(** * Specification extraction and cross-model comparison

    A shallow embedding of the unit normaliser ([tools/transformers.py]),
    the table parser and section builder ([tools/pdf_processor.py]) and the
    cross-model comparator ([tools/compare_processor.py]), followed by the
    properties established about them.

    Conventions of the embedding.
    - A Python [str] is a [string]: the bytes of its UTF-8 encoding.  The
      character classes and case mappings act on the ASCII range and leave
      every other byte as it is, so the embedding covers text whose
      non-ASCII characters are neither blanks nor digits and play no part
      in a case mapping that reaches a table key or a keyword; that is so
      for the degree sign, the omega and the bullet glyph of the sources
      (the keys of the unit table and the keywords are ASCII but for the
      caseless degree sign).
    - A Python [dict] whose iteration order is observed is an insertion
      ordered association list ([Dict.dict]); a [dict] that is only looked
      up is a [gmap]; a Python [set] is a [gset].
    - [Optional[str]] is [option string]; a raised exception is the [Err]
      branch of [result].
    - A Python [float] is a binary64 number of [SpecFloat]: [float] of a
      decimal string rounds to the nearest such number, ties to even, and
      [repr] prints the shortest decimal that reads back as the number. *)

From Stdlib Require Import Ascii String DecimalString ZArith.
From Stdlib Require SpecFloat.
From stdpp Require Import base list strings gmap.

(** ** Python string primitives *)
Module Py.

Definition in_range (lo hi : nat) (c : ascii) : bool :=
  let n := nat_of_ascii c in (lo <=? n)%nat && (n <=? hi)%nat.

(** [str.isspace] on one character: TAB..CR, FS..US and the blank. *)
Definition isspace (c : ascii) : bool := in_range 9 13 c || in_range 28 32 c.

Definition isupper (c : ascii) : bool := in_range 65 90 c.
Definition islower (c : ascii) : bool := in_range 97 122 c.
Definition iscased (c : ascii) : bool := isupper c || islower c.
Definition isdigit_char (c : ascii) : bool := in_range 48 57 c.

Definition lower_char (c : ascii) : ascii :=
  if isupper c then ascii_of_nat (nat_of_ascii c + 32) else c.
Definition upper_char (c : ascii) : ascii :=
  if islower c then ascii_of_nat (nat_of_ascii c - 32) else c.

Fixpoint map_chars (f : ascii -> ascii) (s : string) : string :=
  match s with
  | EmptyString => EmptyString
  | String c r => String (f c) (map_chars f r)
  end.

(** [s.lower()] and [s.upper()]. *)
Definition lower : string -> string := map_chars lower_char.
Definition upper : string -> string := map_chars upper_char.

(** [s.capitalize()]: first character upper case, the rest lower case. *)
Definition capitalize (s : string) : string :=
  match s with
  | EmptyString => EmptyString
  | String c r => String (upper_char c) (lower r)
  end.

(** [s.title()]: a cased character that follows an uncased one is put in
    upper case, one that follows a cased character in lower case. *)
Fixpoint title_from (prev_cased : bool) (s : string) : string :=
  match s with
  | EmptyString => EmptyString
  | String c r =>
      String (if prev_cased then lower_char c else upper_char c)
             (title_from (iscased c) r)
  end.
Definition title : string -> string := title_from false.

Definition is_empty (s : string) : bool :=
  match s with EmptyString => true | String _ _ => false end.

(** Truth value of a [str]: true when it is not empty. *)
Definition truthy (s : string) : bool := negb (is_empty s).

(** Truth value of an [Optional[str]]. *)
Definition truthy_opt (o : option string) : bool :=
  match o with Some s => truthy s | None => false end.

Fixpoint lstrip (s : string) : string :=
  match s with
  | EmptyString => EmptyString
  | String c r => if isspace c then lstrip r else s
  end.

Fixpoint rstrip (s : string) : string :=
  match s with
  | EmptyString => EmptyString
  | String c r =>
      let r' := rstrip r in
      if isspace c && is_empty r' then EmptyString else String c r'
  end.

(** [s.strip()]. *)
Definition strip (s : string) : string := rstrip (lstrip s).

(** Prepend a character to the first piece of a split. *)
Definition cons_head (c : ascii) (l : list string) : list string :=
  match l with
  | [] => [String c EmptyString]
  | h :: t => String c h :: t
  end.

(** [s.split(sep)] for a one-character separator. *)
Fixpoint split (sep : ascii) (s : string) : list string :=
  match s with
  | EmptyString => [EmptyString]
  | String c r =>
      if Ascii.eqb c sep then EmptyString :: split sep r
      else cons_head c (split sep r)
  end.

(** [s.split(sep, 1)]: at most one cut, at the first separator. *)
Fixpoint split1 (sep : ascii) (s : string) : list string :=
  match s with
  | EmptyString => [EmptyString]
  | String c r =>
      if Ascii.eqb c sep then [EmptyString; r]
      else cons_head c (split1 sep r)
  end.

(** [s.replace(c, '', 1)]: drop the first occurrence of [c]. *)
Fixpoint remove_first (c : ascii) (s : string) : string :=
  match s with
  | EmptyString => EmptyString
  | String d r => if Ascii.eqb d c then r else String d (remove_first c r)
  end.

Fixpoint all_chars (p : ascii -> bool) (s : string) : bool :=
  match s with
  | EmptyString => true
  | String c r => p c && all_chars p r
  end.

(** [s.isascii()]. *)
Definition isascii_char (c : ascii) : bool := in_range 0 127 c.
Definition isascii (s : string) : bool := all_chars isascii_char s.

(** [s.isdigit()]: not empty and digits only. *)
Definition isdigit (s : string) : bool := truthy s && all_chars isdigit_char s.

(** [s.startswith(p)]. *)
Fixpoint startswith (s p : string) : bool :=
  match p, s with
  | EmptyString, _ => true
  | String _ _, EmptyString => false
  | String a p', String b s' => Ascii.eqb a b && startswith s' p'
  end.

(** [t in s] for strings. *)
Fixpoint contains (s t : string) : bool :=
  startswith s t ||
  match s with
  | EmptyString => false
  | String _ r => contains r t
  end.

(** [sep.join(l)]. *)
Fixpoint join (sep : string) (l : list string) : string :=
  match l with
  | [] => EmptyString
  | [x] => x
  | x :: r => x +:+ sep +:+ join sep r
  end.

(** [any(l)] over a list of strings. *)
Definition any_truthy (l : list string) : bool := existsb truthy l.

(** [l[-2:]]. *)
Definition last_two (l : list string) : list string :=
  drop (length l - 2) l.

(** *** Floats

    A Python [float] is an IEEE 754 binary64 number: a [spec_float] of the
    standard library, with precision 53 and maximal exponent 1024.  The
    strings that reach [float] have passed the comparator's numeric test
    (digits with at most one point, no sign, no exponent). *)
Definition float : Type := SpecFloat.spec_float.

Definition prec : Z := 53.
Definition emax : Z := 1024.

Definition float_zero : float := SpecFloat.S754_zero false.

(** The quotient [num / den] of two integers rounded to the nearest
    binary64 number, ties to even; too large a quotient gives infinity. *)
Definition float_of_ratio (num den : Z) : float :=
  match num, den with
  | Zpos n, Zpos d =>
      SpecFloat.SFdiv prec emax (SpecFloat.S754_finite false n 0)
                                (SpecFloat.S754_finite false d 0)
  | _, _ => float_zero
  end.

(** The decimal [c * 10^q] as a fraction of integers. *)
Definition decimal_ratio (c q : Z) : Z * Z :=
  if (0 <=? q)%Z then (c * 10 ^ q, 1)%Z else (c, 10 ^ (- q))%Z.

(** The decimal [c * 10^q] rounded to binary64, as [strtod] does. *)
Definition float_of_decimal (c q : Z) : float :=
  let '(num, den) := decimal_ratio c q in float_of_ratio num den.

Definition digit_val (c : ascii) : N := (N_of_ascii c - 48)%N.

Fixpoint digits_val (acc : N) (s : string) : N :=
  match s with
  | EmptyString => acc
  | String c r => digits_val (10 * acc + digit_val c)%N r
  end.

(** [float(s)] for a string [s] that passed the numeric test. *)
Definition float_of_string (s : string) : float :=
  match split1 "." s with
  | ip :: fp :: _ =>
      float_of_decimal (Z.of_N (digits_val 0 (ip +:+ fp)))
                       (- Z.of_nat (String.length fp))
  | _ => float_of_decimal (Z.of_N (digits_val 0 s)) 0
  end.

(** [a < b], [a <= b] and [a == b] on floats. *)
Definition float_ltb (a b : float) : bool := SpecFloat.SFltb a b.
Definition float_leb (a b : float) : bool := SpecFloat.SFleb a b.
Definition float_eqb (a b : float) : bool := SpecFloat.SFeqb a b.

(** [abs(x)]. *)
Definition float_abs (x : float) : float := SpecFloat.SFabs x.

Definition string_of_N (n : N) : string := NilZero.string_of_uint (N.to_uint n).

Fixpoint zeros (k : nat) : string :=
  match k with
  | O => EmptyString
  | S k' => String "0" (zeros k')
  end.

(** The number of decimal digits of a positive integer. *)
Definition decimal_length (n : Z) : Z := Z.of_nat (String.length (string_of_N (Z.to_N n))).

(** [floor(log10(num / den))] for positive [num] and [den]. *)
Definition decimal_exponent (num den : Z) : Z :=
  let p := (decimal_length num - decimal_length den)%Z in
  let '(n1, d1) := decimal_ratio 1 p in
  if (n1 * den <=? num * d1)%Z then p else (p - 1)%Z.

(** The candidates with [n] significant digits for the value [num / den]
    whose decimal exponent is [p]: the value cut after [n] digits and the
    next decimal, each kept only if it reads back as [x]; when both do,
    the nearer is taken, the even one in a tie. *)
Definition digits_at (x : float) (num den p : Z) (n : Z) : option (Z * Z) :=
  let q := (p - n + 1)%Z in
  let '(n1, d1) := decimal_ratio 1 q in
  let lo := (num * d1 / (den * n1))%Z in
  let rem := (num * d1 mod (den * n1))%Z in
  let hi := (lo + 1)%Z in
  let ok c := float_eqb (float_of_decimal c q) x in
  if (rem =? 0)%Z then Some (lo, q)
  else
    match ok lo, ok hi with
    | true, true =>
        match (2 * rem ?= den * n1)%Z with
        | Lt => Some (lo, q)
        | Gt => Some (hi, q)
        | Eq => Some (if Z.even lo then lo else hi, q)
        end
    | true, false => Some (lo, q)
    | false, true => Some (hi, q)
    | false, false => None
    end.

(** The shortest decimal that reads back as [x], trying [n], [n + 1],
    ... digits; seventeen digits always suffice for a binary64 number. *)
Fixpoint shortest_digits (fuel : nat) (x : float) (num den p : Z) (n : Z)
    : Z * Z :=
  match fuel with
  | O => (num / den, 0)%Z
  | S fuel' =>
      match digits_at x num den p n with
      | Some r => r
      | None => shortest_digits fuel' x num den p (n + 1)
      end
  end.

(** Drop the trailing zeros of the digits. *)
Fixpoint strip_zeros (fuel : nat) (c q : Z) : Z * Z :=
  match fuel with
  | O => (c, q)
  | S fuel' =>
      if ((c mod 10 =? 0) && (0 <? c))%Z then strip_zeros fuel' (c / 10)%Z (q + 1)%Z
      else (c, q)
  end.

(** The exponent of the scientific notation: a sign and two digits at
    least. *)
Definition exponent_repr (e : Z) : string :=
  let a := string_of_N (Z.to_N (Z.abs e)) in
  (if (e <? 0)%Z then "-" else "+") +:+ zeros (2 - String.length a) +:+ a.

(** The digits [ds], standing for [0.ds * 10^decpt], as [repr] lays them
    out: scientific notation when the decimal exponent is below -4 or at
    least 16, and positional notation with at least one digit after the
    point otherwise. *)
Definition layout (ds : string) (decpt : Z) : string :=
  let n := Z.of_nat (String.length ds) in
  if ((decpt <=? -4) || (16 <? decpt))%Z then
    match ds with
    | EmptyString => EmptyString
    | String d r =>
        String d (if is_empty r then EmptyString else "." +:+ r)
        +:+ "e" +:+ exponent_repr (decpt - 1)
    end
  else if (decpt <=? 0)%Z then "0." +:+ zeros (Z.to_nat (- decpt)) +:+ ds
  else if (n <=? decpt)%Z then ds +:+ zeros (Z.to_nat (decpt - n)) +:+ ".0"
  else
    substring 0 (Z.to_nat decpt) ds +:+ "." +:+
    substring (Z.to_nat decpt) (Z.to_nat (n - decpt)) ds.

(** [repr(x)], which is also what [str(x)] and an f-string print for a
    float: the shortest decimal that reads back as [x]. *)
Definition float_repr (x : float) : string :=
  match x with
  | SpecFloat.S754_zero s => (if s then "-" else "") +:+ "0.0"
  | SpecFloat.S754_infinity s => (if s then "-" else "") +:+ "inf"
  | SpecFloat.S754_nan => "nan"
  | SpecFloat.S754_finite s m e =>
      let '(num, den) :=
        if (0 <=? e)%Z then (Zpos m * 2 ^ e, 1)%Z else (Zpos m, 2 ^ (- e))%Z in
      let p := decimal_exponent num den in
      let '(c, q) := shortest_digits 17 (float_abs x) num den p 1 in
      let '(c, q) := strip_zeros 17 c q in
      let ds := string_of_N (Z.to_N c) in
      (if s then "-" else "") +:+ layout ds (Z.of_nat (String.length ds) + q)
  end.

(** [max(items, key=key)] over [x :: l]: the first maximal item. *)
Definition max_by {A : Type} (key : A -> float) (x : A) (l : list A) : A :=
  fold_left (fun best y => if float_ltb (key best) (key y) then y else best) l x.

(** [min(items, key=key)] over [x :: l]: the first minimal item. *)
Definition min_by {A : Type} (key : A -> float) (x : A) (l : list A) : A :=
  fold_left (fun best y => if float_ltb (key y) (key best) then y else best) l x.

End Py.

(** ** Unit normaliser ([tools/transformers.py]) *)
Module Transformers.

Inductive UnitType :=
| TEMPERATURE | RESISTANCE | VOLTAGE | CURRENT | POWER | TIME
| FREQUENCY | CAPACITANCE | INDUCTANCE | VOLUME | MAGNETIC.

Record UnitStandard := mkUnit {
  symbol : string;
  display : string;
  type : UnitType;
  suffixes : list (string * string)
}.

Definition default_suffixes : list (string * string) :=
  [("maximum", "max"); ("minimum", "min"); ("typical", "typ"); ("nominal", "nom")].

Definition unit_standard (sym disp : string) (ty : UnitType) : UnitStandard :=
  mkUnit sym disp ty default_suffixes.

(** The entries of [UnitTransformer.STANDARD_UNITS], in source order. *)
Definition STANDARD_UNITS_items : list (string * UnitStandard) :=
  [ ("°C", unit_standard "°C" "°C" TEMPERATURE);
    ("°F", unit_standard "°F" "°F" TEMPERATURE);
    ("ohm", unit_standard "Ω" "Ω" RESISTANCE);
    ("ohms", unit_standard "Ω" "Ω" RESISTANCE);
    ("Ohm", unit_standard "Ω" "Ω" RESISTANCE);
    ("Ohms", unit_standard "Ω" "Ω" RESISTANCE);
    ("V", unit_standard "V" "V" VOLTAGE);
    ("VDC", unit_standard "VDC" "VDC" VOLTAGE);
    ("VAC", unit_standard "VAC" "VAC" VOLTAGE);
    ("Volts", unit_standard "V" "V" VOLTAGE);
    ("A", unit_standard "A" "A" CURRENT);
    ("Amp", unit_standard "A" "A" CURRENT);
    ("Amps", unit_standard "A" "A" CURRENT);
    ("mA", unit_standard "mA" "mA" CURRENT);
    ("W", unit_standard "W" "W" POWER);
    ("Watt", unit_standard "W" "W" POWER);
    ("Watts", unit_standard "W" "W" POWER);
    ("ms", unit_standard "ms" "ms" TIME);
    ("msec", unit_standard "ms" "ms" TIME);
    ("msecs", unit_standard "ms" "ms" TIME);
    ("mSeconds", unit_standard "ms" "ms" TIME);
    ("millisecond", unit_standard "ms" "ms" TIME);
    ("milliseconds", unit_standard "ms" "ms" TIME);
    ("Milliseconds", unit_standard "ms" "ms" TIME);
    ("MILLISECONDS", unit_standard "ms" "ms" TIME);
    ("CC", unit_standard "cc" "cc" VOLUME);
    ("cc", unit_standard "cc" "cc" VOLUME);
    ("cubic centimeter", unit_standard "cc" "cc" VOLUME);
    ("cubic centimeters", unit_standard "cc" "cc" VOLUME);
    ("CUBIC CENTIMETERS", unit_standard "cc" "cc" VOLUME);
    ("Cubic Centimeters", unit_standard "cc" "cc" VOLUME);
    ("Cubic centimeters", unit_standard "cc" "cc" VOLUME);
    ("pF", unit_standard "pF" "pF" CAPACITANCE);
    ("picofarad", unit_standard "pF" "pF" CAPACITANCE);
    ("picofarads", unit_standard "pF" "pF" CAPACITANCE);
    ("mH", unit_standard "mH" "mH" INDUCTANCE);
    ("millihenry", unit_standard "mH" "mH" INDUCTANCE);
    ("millihenries", unit_standard "mH" "mH" INDUCTANCE);
    ("AT", unit_standard "AT" "AT" MAGNETIC);
    ("Ampere Turn", unit_standard "AT" "AT" MAGNETIC);
    ("Ampere Turns", unit_standard "AT" "AT" MAGNETIC);
    ("ampere turn", unit_standard "AT" "AT" MAGNETIC);
    ("ampere turns", unit_standard "AT" "AT" MAGNETIC);
    ("AMPERE TURNS", unit_standard "AT" "AT" MAGNETIC) ].

Definition STANDARD_UNITS : gmap string UnitStandard :=
  list_to_map STANDARD_UNITS_items.

(** The case variations tried for a base unit, in the order of the source. *)
Definition variations (base_unit : string) : list string :=
  [ base_unit; Py.lower base_unit; Py.upper base_unit;
    Py.capitalize base_unit; Py.title base_unit ].

(** The lookup loop: the first variation found in the table wins. *)
Fixpoint first_standard (vs : list string) : option UnitStandard :=
  match vs with
  | [] => None
  | v :: r =>
      match STANDARD_UNITS !! v with
      | Some st => Some st
      | None => first_standard r
      end
  end.

Definition standard_suffixes : list string :=
  ["maximum"; "minimum"; "nominal"; "typical"].

(** [suffix_lower[:3]]. *)
Definition first3 (s : string) : string := String.substring 0 3 s.

(** Step 1 of [standardize_unit]: the base unit and the optional suffix. *)
Definition split_unit (u : string) : string * option string :=
  let parts := map Py.strip (Py.split1 "-" u) in
  let base_unit := Py.strip (nth 0 parts "") in
  let suffix :=
    if (1 <? length parts)%nat then Some (Py.strip (nth 1 parts "")) else None in
  (base_unit, suffix).

(** Step 3 of [standardize_unit]: the display string with its suffix. *)
Definition format_standard (standard : UnitStandard) (suffix : option string) : string :=
  if Py.truthy_opt suffix then
    let sfx := default "" suffix in
    let suffix_lower := Py.lower sfx in
    if bool_decide (suffix_lower ∈ standard_suffixes)
    then display standard +:+ " - " +:+ first3 suffix_lower
    else display standard +:+ " - " +:+ sfx
  else display standard.

(** [UnitTransformer.standardize_unit]. *)
Definition standardize_unit (unit : option string) : option string :=
  if negb (Py.truthy_opt unit) then None
  else
    let u := default "" unit in
    let '(base_unit, suffix) := split_unit u in
    match first_standard (variations base_unit) with
    | None => Some u
    | Some standard => Some (format_standard standard suffix)
    end.

(** [UnitTransformer.format_display_value]; both branches after the
    absent-unit test build the same string, as in the source. *)
Definition format_display_value (value : string) (unit : option string) : string :=
  if negb (Py.truthy_opt unit) then value
  else
    let u := default "" unit in
    if Py.contains value "to" then value +:+ " " +:+ u
    else value +:+ " " +:+ u.

End Transformers.

(** ** Insertion-ordered dictionaries *)
Module Dict.
Section Dict.
Context {V : Type}.

(** The items of a Python [dict], in insertion order. *)
Definition dict := list (string * V).

Definition empty : dict := [].

(** [d.get(k)]: the value under [k], if any. *)
Fixpoint get (k : string) (d : dict) : option V :=
  match d with
  | [] => None
  | (k', v) :: r => if String.eqb k k' then Some v else get k r
  end.

(** [k in d]. *)
Definition mem (k : string) (d : dict) : bool :=
  match get k d with Some _ => true | None => false end.

(** [d[k] = v]: an existing key keeps its place, a new one goes last. *)
Fixpoint set (k : string) (v : V) (d : dict) : dict :=
  match d with
  | [] => [(k, v)]
  | (k', v') :: r =>
      if String.eqb k k' then (k, v) :: r else (k', v') :: set k v r
  end.

(** [if k not in d: d[k] = v]. *)
Definition setdefault (k : string) (v : V) (d : dict) : dict :=
  if mem k d then d else set k v d.

(** In-place change of the value stored under [k] (as in [d[k][j] = x]
    or [d[k].append(x)]).  The source would raise [KeyError] on an absent
    key; each use below follows the statement that puts the key in. *)
Definition modify (k : string) (f : V -> V) (d : dict) : dict :=
  match get k d with
  | Some v => set k (f v) d
  | None => d
  end.

Definition keys (d : dict) : list string := map fst d.
Definition values (d : dict) : list V := map snd d.
Definition items (d : dict) : list (string * V) := d.

(** Truth value of a [dict]: true when it is not empty. *)
Definition truthy (d : dict) : bool :=
  match d with [] => false | _ :: _ => true end.

(** Keys are pairwise distinct, as in every Python [dict]. *)
Definition wf (d : dict) : Prop := NoDup (keys d).
End Dict.
Arguments dict : clear implicits.
End Dict.

(** ** Raised exceptions *)
Inductive PyError :=
| ValidationError.   (* pydantic_core.ValidationError *)

Inductive result (A : Type) :=
| Ok (a : A)
| Err (e : PyError).
Arguments Ok {A} a.
Arguments Err {A} e.

#[global] Instance result_ret : MRet result := fun A a => Ok a.
#[global] Instance result_bind : MBind result := fun A B k r =>
  match r with
  | Ok a => k a
  | Err e => Err e
  end.

(** A [for] loop whose body may raise: the first exception ends it. *)
Fixpoint foldM {A S : Type} (f : S -> A -> result S) (l : list A) (s : S) : result S :=
  match l with
  | [] => Ok s
  | x :: r => s' ← f s x; foldM f r s'
  end.

(** ** Document types ([types/pdf.py]) *)
Module Pdf.

Record PDFSpecification := mkSpec {
  unit : option string;
  value : string
}.

(** The computed field [display_value]. *)
Definition display_value (s : PDFSpecification) : string :=
  Transformers.format_display_value (value s) (unit s).

Record PDFCategory := mkCategory {
  subcategories : Dict.dict PDFSpecification
}.

Record PDFSection := mkSection {
  categories : Dict.dict PDFCategory
}.

Record PDFPage := mkPage {
  number : Z;
  text : string;
  tables : list (list (list string))
}.

(** [PDFContent]; the free-form [metadata] field is read by none of the
    functions below and is left out. *)
Record PDFContent := mkContent {
  raw_text : string;
  pages : list PDFPage;
  model_number : option string;
  sections : Dict.dict PDFSection
}.

(** [PDFContent.get_specification]: [None] where a key is missing. *)
Definition get_specification (c : PDFContent)
    (section category subcategory : string) : option PDFSpecification :=
  match Dict.get section (sections c) with
  | None => None
  | Some sec =>
      match Dict.get category (categories sec) with
      | None => None
      | Some cat => Dict.get subcategory (subcategories cat)
      end
  end.

End Pdf.

(** ** Table parser and section builder ([tools/pdf_processor.py]) *)
Module PdfProcessor.

(** Default value of the field [section_patterns]. *)
Definition section_patterns : gmap string string :=
  list_to_map [ ("electrical", "electrical specifications");
                ("magnetic", "magnetic specifications");
                ("physical", "physical/operational specifications") ].

(** Default value of the field [section_order]. *)
Definition section_order : list string := ["electrical"; "magnetic"; "physical"].

Definition electrical_terms : list string :=
  ["power"; "voltage"; "current"; "resistance"; "capacitance";
   "temperature"; "electrical"].
Definition magnetic_terms : list string :=
  ["pull - in"; "test coil"; "magnetic"].
Definition physical_terms : list string :=
  ["capsule"; "contact material"; "operate time"; "release time";
   "physical"; "operational"].

(** [any(term in category_lower for term in terms)]. *)
Definition any_term_in (category_lower : string) (terms : list string) : bool :=
  existsb (Py.contains category_lower) terms.

(** The helper [get_section_for_category] of [_parse_table_to_specs]; the
    enclosing function's variable [current_section] is made a parameter. *)
Definition get_section_for_category (current_section : option string)
    (category : string) : string :=
  let category_lower := Py.lower category in
  if any_term_in category_lower electrical_terms then
    section_patterns !!! "electrical"
  else if any_term_in category_lower magnetic_terms then
    section_patterns !!! "magnetic"
  else if any_term_in category_lower physical_terms then
    section_patterns !!! "physical"
  else if Py.truthy_opt current_section then default "" current_section
  else section_patterns !!! (nth 0 section_order "").

(** [[str(cell).strip() if cell else "" for cell in row]]. *)
Definition clean_row (row : list string) : list string :=
  map (fun cell => if Py.truthy cell then Py.strip cell else "") row.

Abbreviation Specs := (Dict.dict (Dict.dict (Dict.dict Pdf.PDFSpecification))).

(** The local variables of [_parse_table_to_specs] that live across rows. *)
Record ParseState := mkState {
  specs : Specs;
  current_category : option string;
  current_section : option string
}.

(** The body of the row loop of [_parse_table_to_specs].  No statement of
    the body can raise: every index is guarded by a length test. *)
Definition process_row (st : ParseState) (row : list string) : ParseState :=
  let row_data := clean_row row in
  if negb (Py.any_truthy row_data) then st
  else
    let category : option string :=
      if Py.truthy (nth 0 row_data "") then Some (nth 0 row_data "")
      else current_category st in
    let subcategory : string :=
      if (1 <? length row_data)%nat && Py.truthy (nth 1 row_data "")
      then nth 1 row_data "" else "" in
    let category :=
      if negb (Py.truthy_opt category) && Py.truthy subcategory
      then current_category st else category in
    let st :=
      if Py.truthy_opt category then
        let cat := default "" category in
        let section_name := get_section_for_category (current_section st) cat in
        let sp := Dict.setdefault section_name Dict.empty (specs st) in
        let sp := Dict.modify section_name (Dict.setdefault cat Dict.empty) sp in
        mkState sp (Some cat) (Some section_name)
      else st in
    if (3 <? length row_data)%nat then
      let raw_unit :=
        if Py.truthy (nth 2 row_data "") then Some (Py.strip (nth 2 row_data ""))
        else None in
      let value := Py.strip (nth 3 row_data "") in
      if Py.truthy_opt category && Py.truthy_opt (current_section st) then
        let cat := default "" category in
        let sec := default "" (current_section st) in
        let sp := Dict.modify sec (Dict.setdefault cat Dict.empty) (specs st) in
        let unit := Transformers.standardize_unit raw_unit in
        let spec := Pdf.mkSpec unit value in
        (* the placeholder [{}] the source stores first under a new
           subcategory is overwritten by [spec] in the next statement *)
        let key := if Py.truthy subcategory then subcategory else "" in
        let sp := Dict.modify sec (Dict.modify cat (Dict.set key spec)) sp in
        mkState sp (current_category st) (current_section st)
      else st
    else st.

(** [PDFProcessor._parse_table_to_specs]. *)
Definition parse_table_to_specs (table : list (list string)) : Specs :=
  match table with
  | [] => Dict.empty
  | row0 :: rest =>
      let first_row := clean_row row0 in
      if (length first_row =? 2)%nat
         && Py.contains (nth 0 first_row "") "Features"
         && Py.contains (nth 1 first_row "") "Advantages"
      then Dict.empty
      else
        let is_first_row_data :=
          (3 <=? length first_row)%nat
          && Py.truthy (nth 0 first_row "")
          && Py.any_truthy (Py.last_two first_row) in
        let rows_to_process := if is_first_row_data then table else rest in
        specs (fold_left process_row rows_to_process (mkState Dict.empty None None))
  end.

(** The innermost loop of [_process_specification_tables]: each category
    of one parsed section is stored under its name in section [s]. *)
Definition add_categories (s : string) (sections : Dict.dict Pdf.PDFSection)
    (cats : Dict.dict (Dict.dict Pdf.PDFSpecification)) : Dict.dict Pdf.PDFSection :=
  fold_left
    (fun sections '(category_name, subcategories) =>
       Dict.modify s
         (fun sec => Pdf.mkSection
            (Dict.set category_name (Pdf.mkCategory subcategories) (Pdf.categories sec)))
         sections)
    (Dict.items cats) sections.

(** The loop over the sections of one parsed table. *)
Definition add_table_specs (sections : Dict.dict Pdf.PDFSection) (sp : Specs)
    : Dict.dict Pdf.PDFSection :=
  fold_left
    (fun sections '(section_name, categories) =>
       add_categories section_name
         (Dict.setdefault section_name (Pdf.mkSection Dict.empty) sections)
         categories)
    (Dict.items sp) sections.

(** [PDFProcessor._process_specification_tables]; the unused [text]
    argument is dropped. *)
Definition process_specification_tables (tables : list (list (list string)))
    : Dict.dict Pdf.PDFSection :=
  fold_left
    (fun sections table =>
       let sp := parse_table_to_specs table in
       if Dict.truthy sp then add_table_specs sections sp else sections)
    tables Dict.empty.

End PdfProcessor.

(** ** Comparison types ([types/comparison.py], [types/differences.py]) *)
Module Comparison.

Record SpecificationValue := mkValue {
  unit : option string;
  value : string;
  display_value : string
}.

(** The validating constructor: [value] has [min_length=1]. *)
Definition SpecificationValue_new (unit : option string) (value display_value : string)
    : result SpecificationValue :=
  if Py.truthy value then Ok (mkValue unit value display_value)
  else Err ValidationError.

(** [ComparisonSpecification]; [analysis] keeps its default [None]. *)
Record ComparisonSpecification := mkCompSpec {
  category : string;
  specification : string;
  values : Dict.dict SpecificationValue;
  has_differences : bool
}.

Record ComparisonFeature := mkFeature {
  text : string;
  models : Dict.dict bool
}.

(** The validating constructor: [text] has [min_length=1]. *)
Definition ComparisonFeature_new (text : string) (models : Dict.dict bool)
    : result ComparisonFeature :=
  if Py.truthy text then Ok (mkFeature text models) else Err ValidationError.

Record ComparisonSection := mkCompSection {
  categories : Dict.dict (list ComparisonSpecification + list ComparisonFeature)
}.

Record ComparisonResponse := mkResponse {
  model_numbers : list string;
  comparison_id : string;
  sections : Dict.dict ComparisonSection;
  differences_count : nat
}.

(** The validating constructor: [model_numbers] has [min_length=2] and
    [comparison_id] has [min_length=1]; a length is never negative. *)
Definition ComparisonResponse_new (model_numbers : list string) (comparison_id : string)
    (sections : Dict.dict ComparisonSection) (differences_count : nat)
    : result ComparisonResponse :=
  if (2 <=? length model_numbers)%nat && Py.truthy comparison_id
  then Ok (mkResponse model_numbers comparison_id sections differences_count)
  else Err ValidationError.

End Comparison.

Module Differences.

(** [Difference]; [context] keeps its default [None]. *)
Record Difference := mkDifference {
  model : string;
  category : string;
  subcategory : option string;
  specification : string;
  difference : string;
  unit : option string;
  values : Dict.dict string
}.

End Differences.

(** ** Cross-model comparator ([tools/compare_processor.py]) *)
Module CompareProcessor.

Import Comparison.

(** [_collect_model_data]: [get_content] stands for
    [PDFProcessor.get_content], [None] for a raised exception, which the
    loop catches. *)
Definition collect_model_data (get_content : string -> option Pdf.PDFContent)
    (model_numbers : list string) : gmap string Pdf.PDFContent :=
  fold_left
    (fun models model_num =>
       match get_content model_num with
       | Some result =>
           let model_name :=
             if Py.truthy_opt (Pdf.model_number result)
             then default "" (Pdf.model_number result) else model_num in
           <[model_name := result]> models
       | None => models
       end)
    model_numbers ∅.

(** The text of one model's features or advantages: the chain of
    [continue] tests at the head of the loop of [_process_feature_type]. *)
Definition feature_text (models : gmap string Pdf.PDFContent)
    (model_name feature_type : string) : option string :=
  model ← models !! model_name;
  section ← Dict.get "Features_And_Advantages" (Pdf.sections model);
  category ← Dict.get feature_type (Pdf.categories section);
  spec ← Dict.get "" (Pdf.subcategories category);
  if Py.truthy (Pdf.value spec) then Some (Pdf.value spec) else None.

Definition is_bullet (line : string) : bool :=
  Py.startswith line "•" || Py.startswith line "-".

(** One step of the loop that joins wrapped lines to their bullet. *)
Definition join_line (st : list string * string) (line : string) : list string * string :=
  let '(processed_items, current_item) := st in
  if is_bullet line then
    ((if Py.truthy current_item then processed_items ++ [current_item]
      else processed_items), line)
  else if Py.truthy current_item then
    (processed_items, current_item +:+ " " +:+ line)
  else (processed_items, line).

(** The bullet items of one text block. *)
Definition feature_items (value : string) : list string :=
  let lines :=
    map Py.strip (filter (fun line => Py.truthy (Py.strip line)) (Py.split "010" value)) in
  let '(processed_items, current_item) := fold_left join_line lines ([], "") in
  if Py.truthy current_item then processed_items ++ [current_item]
  else processed_items.

(** The inner loop over [features] that flags the first entry with the
    given text for [model_name]. *)
Fixpoint mark_present (item model_name : string) (features : list ComparisonFeature)
    : list ComparisonFeature :=
  match features with
  | [] => []
  | feature :: r =>
      if String.eqb (text feature) item
      then mkFeature (text feature) (Dict.set model_name true (models feature)) :: r
      else feature :: mark_present item model_name r
  end.

(** [{name: name == model_name for name in model_numbers}]. *)
Definition presence_dict (model_numbers : list string) (model_name : string)
    : Dict.dict bool :=
  fold_left (fun d name => Dict.set name (String.eqb name model_name) d)
            model_numbers Dict.empty.

(** "Create or update features" for one item. *)
Definition add_item (model_numbers : list string) (model_name : string)
    (st : list ComparisonFeature * gset string) (item : string)
    : result (list ComparisonFeature * gset string) :=
  let '(features, seen_texts) := st in
  if bool_decide (item ∈ seen_texts) then
    Ok (mark_present item model_name features, seen_texts)
  else
    feature ← ComparisonFeature_new item (presence_dict model_numbers model_name);
    Ok (features ++ [feature], {[item]} ∪ seen_texts).

(** The items of one model, empty when a [continue] test skips it. *)
Definition model_items (models : gmap string Pdf.PDFContent)
    (model_name feature_type : string) : list string :=
  match feature_text models model_name feature_type with
  | Some value => feature_items value
  | None => []
  end.

(** [_process_feature_type]. *)
Definition process_feature_type (models : gmap string Pdf.PDFContent)
    (model_numbers : list string) (feature_type : string)
    : result (list ComparisonFeature) :=
  st ← foldM
         (fun st model_name =>
            foldM (add_item model_numbers model_name)
                  (model_items models model_name feature_type) st)
         model_numbers ([], ∅);
  Ok st.1.

Definition process_features models model_numbers :=
  process_feature_type models model_numbers "features".
Definition process_advantages models model_numbers :=
  process_feature_type models model_numbers "advantages".

Abbreviation combination := (string * string * string)%type.
Abbreviation SpecSections := (Dict.dict (list ComparisonSpecification)).

(** The local variables of the first loop of [_process_specifications]. *)
Record CollectState := mkCollect {
  c_sections : SpecSections;
  spec_combinations : list combination;
  seen_combinations : gset combination
}.

Definition skipped_sections : list string := ["Features_And_Advantages"; "Diagram"].

Definition note_combination (st : CollectState) (c : combination) : CollectState :=
  if bool_decide (c ∈ seen_combinations st) then st
  else mkCollect (c_sections st) (spec_combinations st ++ [c])
                 ({[c]} ∪ seen_combinations st).

Definition collect_section (st : CollectState) (item : string * Pdf.PDFSection)
    : CollectState :=
  let '(section_name, section) := item in
  if bool_decide (section_name ∈ skipped_sections) then st
  else
    let st := mkCollect (Dict.setdefault section_name [] (c_sections st))
                        (spec_combinations st) (seen_combinations st) in
    fold_left
      (fun st '(category_name, category) =>
         fold_left
           (fun st spec_name => note_combination st (section_name, category_name, spec_name))
           (Dict.keys (Pdf.subcategories category)) st)
      (Dict.items (Pdf.categories section)) st.

(** The first loop of [_process_specifications]. *)
Definition collect_combinations (models : gmap string Pdf.PDFContent)
    (model_numbers : list string) : CollectState :=
  fold_left
    (fun st name =>
       match models !! name with
       | None => st
       | Some model => fold_left collect_section (Dict.items (Pdf.sections model)) st
       end)
    model_numbers (mkCollect Dict.empty [] ∅).

(** [_get_spec_value]. *)
Definition get_spec_value (model : Pdf.PDFContent)
    (section_name category_name spec_name : string) : option Pdf.PDFSpecification :=
  Pdf.get_specification model section_name category_name spec_name.

(** The loop that fills [values] for one combination. *)
Definition collect_values (models : gmap string Pdf.PDFContent)
    (model_numbers : list string) (c : combination)
    : result (Dict.dict SpecificationValue) :=
  let '(section_name, category_name, spec_name) := c in
  foldM
    (fun values name =>
       match models !! name with
       | None => Ok values
       | Some model =>
           match get_spec_value model section_name category_name spec_name with
           | Some spec =>
               v ← SpecificationValue_new (Pdf.unit spec) (Pdf.value spec)
                                          (Pdf.display_value spec);
               Ok (Dict.set name v values)
           | None => Ok values
           end
       end)
    model_numbers Dict.empty.

(** An element of [all_values]: a float or the string itself. *)
Inductive PyValue :=
| PyFloat (x : Py.float)
| PyStr (s : string).

Definition is_number (v : PyValue) : bool :=
  match v with PyFloat _ => true | PyStr _ => false end.

(** The numeric test applied to a value string. *)
Definition numeric_test (s : string) : bool := Py.isdigit (Py.remove_first "." s).

Definition coerce (s : string) : PyValue :=
  if numeric_test s then PyFloat (Py.float_of_string s) else PyStr s.

(** The floats of [all_values] when all of them are numbers. *)
Definition floats_of (vs : list SpecificationValue) : list Py.float :=
  map (fun v => Py.float_of_string (value v)) vs.

(** The body of [if has_differences:]; [values] is not empty there, so
    that [max], [min] and [next(iter(...))] cannot raise. *)
Definition make_difference (c : combination) (values : Dict.dict SpecificationValue)
    : Differences.Difference :=
  let '(section_name, category_name, spec_name) := c in
  let all_values := map (fun v => coerce (value v)) (Dict.values values) in
  let first_key := hd "" (Dict.keys values) in
  let '(extreme_model, difference_desc) :=
    if forallb is_number all_values then
      let key := fun x : string * SpecificationValue =>
                   Py.float_abs (Py.float_of_string (value x.2)) in
      let extreme_model :=
        match Dict.items values with
        | x :: r => (Py.max_by key x r).1
        | [] => first_key
        end in
      let fs := floats_of (Dict.values values) in
      let hi := match fs with x :: r => Py.max_by id x r | [] => Py.float_zero end in
      let lo := match fs with x :: r => Py.min_by id x r | [] => Py.float_zero end in
      (extreme_model, "Value of " +:+ Py.float_repr hi +:+ " vs " +:+ Py.float_repr lo)
    else
      let extreme_model := first_key in
      let other_values :=
        map (fun kv => value kv.2)
            (filter (fun kv => negb (String.eqb kv.1 extreme_model)) (Dict.items values)) in
      let own := match Dict.get extreme_model values with
                 | Some v => value v | None => "" end in
      (extreme_model, "Value of " +:+ own +:+ " vs " +:+ Py.join ", " other_values) in
  Differences.mkDifference
    extreme_model section_name (Some category_name) spec_name difference_desc
    (match Dict.values values with v :: _ => unit v | [] => None end)
    (map (fun kv => (kv.1, value kv.2)) (Dict.items values)).

Definition distinct_values (values : Dict.dict SpecificationValue) : gset string :=
  list_to_set (map value (Dict.values values)).

(** The body of the second loop of [_process_specifications]. *)
Definition process_combination (models : gmap string Pdf.PDFContent)
    (model_numbers : list string)
    (st : SpecSections * list Differences.Difference) (c : combination)
    : result (SpecSections * list Differences.Difference) :=
  let '(sections, differences) := st in
  values ← collect_values models model_numbers c;
  if Dict.truthy values then
    let unique_values := distinct_values values in
    let has_differences := bool_decide (1 < size unique_values)%nat in
    let sections :=
      Dict.modify c.1.1
        (fun l => l ++ [mkCompSpec c.1.2 c.2 values has_differences]) sections in
    if has_differences
    then Ok (sections, differences ++ [make_difference c values])
    else Ok (sections, differences)
  else Ok (sections, differences).

(** [_process_specifications]. *)
Definition process_specifications (models : gmap string Pdf.PDFContent)
    (model_numbers : list string)
    : result (SpecSections * list Differences.Difference) :=
  let st := collect_combinations models model_numbers in
  foldM (process_combination models model_numbers)
        (spec_combinations st) (c_sections st, []).

(** "Group specifications by category". *)
Definition group_by_category (specs : list ComparisonSpecification)
    : Dict.dict (list ComparisonSpecification) :=
  fold_left
    (fun categories spec =>
       let categories := Dict.setdefault (category spec) [] categories in
       Dict.modify (category spec) (fun l => l ++ [spec]) categories)
    specs Dict.empty.

Definition truthy_list {A : Type} (l : list A) : bool :=
  match l with [] => false | _ :: _ => true end.

(** The [sections] argument of the final response. *)
Definition response_sections (features advantages : list ComparisonFeature)
    (sections : SpecSections) : Dict.dict ComparisonSection :=
  let response_sections : Dict.dict ComparisonSection :=
    if truthy_list features || truthy_list advantages then
      let categories : Dict.dict (list ComparisonSpecification + list ComparisonFeature) :=
        Dict.empty in
      let categories :=
        if truthy_list features then Dict.set "features" (inr features) categories
        else categories in
      let categories :=
        if truthy_list advantages then Dict.set "advantages" (inr advantages) categories
        else categories in
      if Dict.truthy categories
      then Dict.set "Features_And_Advantages" (mkCompSection categories) Dict.empty
      else Dict.empty
    else Dict.empty in
  fold_left
    (fun response_sections '(section_name, specs) =>
       Dict.set section_name
         (mkCompSection (map (fun kv => (kv.1, inl kv.2)) (group_by_category specs)))
         response_sections)
    (Dict.items sections) response_sections.

(** [compare_models]; [uuid4] stands for the string of a fresh
    [uuid.uuid4()]. *)
Definition compare_models (get_content : string -> option Pdf.PDFContent)
    (uuid4 : string) (model_numbers : list string) : result ComparisonResponse :=
  let models := collect_model_data get_content model_numbers in
  if bool_decide (models = ∅) then
    ComparisonResponse_new model_numbers uuid4 Dict.empty 0
  else
    features ← process_features models model_numbers;
    advantages ← process_advantages models model_numbers;
    '(sections, differences) ← process_specifications models model_numbers;
    ComparisonResponse_new model_numbers uuid4
      (response_sections features advantages sections) (length differences).

End CompareProcessor.

(** ** Document assembly ([tools/pdf_processor.py], continued) *)
Module Extraction.

(** [d1.update(d2)]. *)
Definition update {V : Type} (d1 d2 : Dict.dict V) : Dict.dict V :=
  fold_left (fun d kv => Dict.set kv.1 kv.2 d) (Dict.items d2) d1.

(** The one-character string ['\n']. *)
Definition newline : string := String "010" EmptyString.

(** The lines kept from one text box by [_parse_features_advantages]:
    [box_text] is what [extract_text()] gave for the box, [header] the
    heading that is dropped ('features' or 'advantages'). *)
Definition box_lines (header : string) (box_text : option string) : list string :=
  if Py.truthy_opt box_text then
    filter (fun line => Py.truthy line && negb (String.eqb (Py.lower line) header))
           (map Py.strip (Py.split "010" (default "" box_text)))
  else [].

Definition text_category (lines : list string) : Pdf.PDFCategory :=
  Pdf.mkCategory [("", Pdf.mkSpec None (Py.join newline lines))].

(** [_parse_features_advantages] once a file is open; the texts of the two
    boxes are parameters. *)
Definition parse_features_advantages (feat_text adv_text : option string)
    : option (Dict.dict Pdf.PDFSection) :=
  let features := box_lines "features" feat_text in
  let advantages := box_lines "advantages" adv_text in
  if CompareProcessor.truthy_list features || CompareProcessor.truthy_list advantages then
    Some [("Features_And_Advantages",
           Pdf.mkSection [("features", text_category features);
                          ("advantages", text_category advantages)])]
  else None.

(** The longest prefix of digits and what follows it. *)
Fixpoint span_digits (s : string) : string * string :=
  match s with
  | EmptyString => (EmptyString, EmptyString)
  | String c r =>
      if Py.isdigit_char c
      then let '(d, rest) := span_digits r in (String c d, rest)
      else (EmptyString, s)
  end.

(** [[RFW]] under [re.IGNORECASE]. *)
Definition is_rfw (c : ascii) : bool :=
  existsb (Ascii.eqb (Py.upper_char c)) ["R"; "F"; "W"]%char.

(** What [\d+[RFW]?] matches at the start of [s]. *)
Definition match_number (s : string) : option string :=
  let '(ds, rest) := span_digits s in
  if Py.truthy ds then
    match rest with
    | String c _ => if is_rfw c then Some (ds +:+ String c EmptyString) else Some ds
    | EmptyString => Some ds
    end
  else None.

(** Group 1 of [HSR-?(\d+[RFW]?)] matched at the start of [s] under
    [re.IGNORECASE]. *)
Definition match_hsr (s : string) : option string :=
  match s with
  | String h (String s1 (String r rest)) =>
      if Ascii.eqb (Py.lower_char h) "h" && Ascii.eqb (Py.lower_char s1) "s"
         && Ascii.eqb (Py.lower_char r) "r"
      then
        match rest with
        | String "-" rest' =>
            match match_number rest' with
            | Some g => Some g
            | None => match_number rest
            end
        | _ => match_number rest
        end
      else None
  | _ => None
  end.

(** [re.search]: the match at the leftmost position that has one. *)
Fixpoint search_hsr (s : string) : option string :=
  match match_hsr s with
  | Some g => Some g
  | None =>
      match s with
      | EmptyString => None
      | String _ r => search_hsr r
      end
  end.

(** [re.split(r'[_\s]', s)]. *)
Fixpoint split_parts (s : string) : list string :=
  match s with
  | EmptyString => [EmptyString]
  | String c r =>
      if Ascii.eqb c "_" || Py.isspace c then EmptyString :: split_parts r
      else Py.cons_head c (split_parts r)
  end.

(** [re.match(r'^\d+[RFW]?$', part, re.IGNORECASE)] on a part without blanks. *)
Definition is_number_part (part : string) : bool :=
  match match_number part with
  | Some g => String.eqb g part
  | None => false
  end.

(** [_extract_model_name] from [base_name], the stem of the file name. *)
Definition extract_model_name (base_name : string) : option string :=
  match search_hsr base_name with
  | Some g => Some (Py.upper g)
  | None =>
      match List.find is_number_part (split_parts base_name) with
      | Some part => Some (Py.upper part)
      | None => if Py.isdigit base_name then Some base_name else None
      end
  end.

Definition diagram_section (diagram_path : string) : Pdf.PDFSection :=
  Pdf.mkSection [("", Pdf.mkCategory [("", Pdf.mkSpec None diagram_path)])].

(** The sections assembled by [_extract_content]: [diagram] is the path of
    the diagram image when the file exists after the extraction attempt. *)
Definition extract_sections (tables : list (list (list string)))
    (feat_text adv_text : option string) (model_name : option string)
    (diagram : option string) : Dict.dict Pdf.PDFSection :=
  let sections :=
    match parse_features_advantages feat_text adv_text with
    | Some d => if Dict.truthy d then d else Dict.empty
    | None => Dict.empty
    end in
  let sections := update sections (PdfProcessor.process_specification_tables tables) in
  if Py.truthy_opt model_name then
    match diagram with
    | Some diagram_path => Dict.set "Diagram" (diagram_section diagram_path) sections
    | None => sections
    end
  else sections.

(** [_extract_content]; the page text, the tables, the two box texts, the
    stem of the file name and the diagram path stand for what the external
    extractors return. *)
Definition extract_content (text : string) (tables : list (list (list string)))
    (feat_text adv_text : option string) (base_name : string)
    (diagram : option string) : Pdf.PDFContent :=
  let model_name := extract_model_name base_name in
  Pdf.mkContent text [Pdf.mkPage 1 text tables] model_name
    (extract_sections tables feat_text adv_text model_name diagram).

End Extraction.

(** ** Sample documents *)
Module Examples.

(** A document whose only specification is a Voltage of [v] volts. *)
Definition voltage_doc (v : string) : Pdf.PDFContent :=
  Pdf.mkContent "" [] None
    [("electrical specifications",
      Pdf.mkSection [("Voltage", Pdf.mkCategory [("", Pdf.mkSpec (Some "V") v)])])].

(** Models "A" and "B" with Voltage values [va] and [vb]. *)
Definition two_models (va vb : string) : gmap string Pdf.PDFContent :=
  <["A" := voltage_doc va]> (<["B" := voltage_doc vb]> ∅).

Definition voltage_value (v : string) : Comparison.SpecificationValue :=
  Comparison.mkValue (Some "V") v (v +:+ " V").

(** A document whose only content is the given features text. *)
Definition feature_doc (v : string) : Pdf.PDFContent :=
  Pdf.mkContent "" [] None
    [("Features_And_Advantages",
      Pdf.mkSection [("features", Pdf.mkCategory [("", Pdf.mkSpec None v)])])].

(** Model "A" with the items "- fast" and "- small", model "B" with
    "- fast" only. *)
Definition two_feature_models : gmap string Pdf.PDFContent :=
  <["A" := feature_doc ("- fast" +:+ String "010" "- small")]>
    (<["B" := feature_doc "- fast"]> ∅).

(** A loader that finds the document of model "A" only. *)
Definition only_A (model_num : string) : option Pdf.PDFContent :=
  if String.eqb model_num "A" then Some (voltage_doc "24") else None.

End Examples.

(** ** Predicates used in the statements *)

Ltac cases_in H :=
  repeat (apply elem_of_cons in H as [H | H]; [subst |]);
  try (apply elem_of_nil in H; destruct H).

(** A string in which no blank leads. *)
Definition no_lead (s : string) : Prop :=
  match s with
  | EmptyString => True
  | String c _ => Py.isspace c = false
  end.

(** The display strings of the table. *)
Definition displays : list string :=
  ["°C"; "°F"; "Ω"; "V"; "VDC"; "VAC"; "A"; "mA"; "W"; "ms"; "cc"; "pF"; "mH"; "AT"].

(** The base unit of [u] is a key of the table up to letter case. *)
Definition known_unit (u : string) : Prop :=
  exists key, is_Some (Transformers.STANDARD_UNITS !! key) /\
              Py.lower key = Py.lower (Transformers.split_unit u).1.

(** Section [sec] of [sp] exists and has category [c]. *)
Definition section_has (sp : PdfProcessor.Specs) (sec c : string) : Prop :=
  exists cats, Dict.get sec sp = Some cats /\ Dict.mem c cats = true.

(** The words of C4: a category that contains one of the magnetic keywords
    named by the specification goes to the magnetic section. *)
Definition magnetic_keywords_stated : list string := ["pull-in"; "test coil"; "magnetic"].

Definition magnetic_keyword_rule : Prop :=
  forall (st : PdfProcessor.ParseState) (row : list string),
    let c := nth 0 (PdfProcessor.clean_row row) "" in
    (exists kw, kw ∈ magnetic_keywords_stated /\ Py.contains (Py.lower c) kw = true) ->
    PdfProcessor.current_section (PdfProcessor.process_row st row)
    = Some "magnetic specifications".

(** Keys are distinct at the section level and at the category level. *)
Definition specs_wf (sp : PdfProcessor.Specs) : Prop :=
  Dict.wf sp /\ Forall (fun kv => Dict.wf kv.2) sp.

(** The category stored under section [s] and name [c]. *)
Definition category_of (sections : Dict.dict Pdf.PDFSection) (s c : string)
    : option Pdf.PDFCategory :=
  sec ← Dict.get s sections; Dict.get c (Pdf.categories sec).

(** The subcategory map one parsed table gives for [(s, c)]. *)
Definition produced (sp : PdfProcessor.Specs) (s c : string)
    : option (Dict.dict Pdf.PDFSpecification) :=
  cats ← Dict.get s sp; Dict.get c cats.

(** The words of C2: the merged map holds every subcategory that any
    table gives for a (section, category) pair. *)
Definition subcategories_united : Prop :=
  forall (tables : list (list (list string))) (t : list (list string))
         (s c k : string) (subs : Dict.dict Pdf.PDFSpecification),
    t ∈ tables ->
    produced (PdfProcessor.parse_table_to_specs t) s c = Some subs ->
    Dict.mem k subs = true ->
    exists cat,
      category_of (PdfProcessor.process_specification_tables tables) s c = Some cat /\
      Dict.mem k (Pdf.subcategories cat) = true.

(** What a collected value is: the specification a requested, available
    model has at the triple, copied field by field. *)
Definition value_from (models : gmap string Pdf.PDFContent)
    (c : CompareProcessor.combination) (m : string)
    (v : Comparison.SpecificationValue) : Prop :=
  exists doc spec,
    models !! m = Some doc /\
    Pdf.get_specification doc c.1.1 c.1.2 c.2 = Some spec /\
    v = Comparison.mkValue (Pdf.unit spec) (Pdf.value spec) (Pdf.display_value spec).

(** What is recorded of an emitted specification under section [s]. *)
Definition spec_ok (models : gmap string Pdf.PDFContent) (s : string)
    (cs : Comparison.ComparisonSpecification) : Prop :=
  Comparison.has_differences cs
  = bool_decide (1 < size (CompareProcessor.distinct_values (Comparison.values cs)))%nat /\
  Forall (fun kv =>
            value_from models
              (s, Comparison.category cs, Comparison.specification cs) kv.1 kv.2)
         (Comparison.values cs).

Definition sections_ok (models : gmap string Pdf.PDFContent)
    (secs : CompareProcessor.SpecSections) : Prop :=
  Forall (fun kv => Forall (spec_ok models kv.1) kv.2) secs.

(** A float that is zero, positive or plus infinity: what [float] gives
    for a string of digits. *)
Definition nonneg_float (x : Py.float) : bool :=
  match x with
  | SpecFloat.S754_zero false | SpecFloat.S754_infinity false
  | SpecFloat.S754_finite false _ _ => true
  | _ => false
  end.

(** Every emitted difference is built by [make_difference] from the
    values collected for one triple. *)
Definition emitted (models : gmap string Pdf.PDFContent) (nums : list string)
    (d : Differences.Difference) : Prop :=
  exists c values,
    CompareProcessor.collect_values models nums c = Ok values /\
    Dict.truthy values = true /\
    (1 < size (CompareProcessor.distinct_values values))%nat /\
    d = CompareProcessor.make_difference c values.

(** Feature [f] says that model [name] has it. *)
Definition flagged (name item : string) (f : Comparison.ComparisonFeature) : Prop :=
  Comparison.text f = item /\ Dict.get name (Comparison.models f) = Some true.

(** The pairs (model, item) in the order in which the loops visit them. *)
Definition visited (models : gmap string Pdf.PDFContent) (ft : string)
    (names : list string) : list (string * string) :=
  names ≫= fun name => map (pair name) (CompareProcessor.model_items models name ft).

(** All items of the requested models, with repetitions. *)
Definition all_items (models : gmap string Pdf.PDFContent) (ft : string)
    (names : list string) : list string :=
  (visited models ft names).*2.

(** The loop invariant of [_process_feature_type] after the pairs [done]. *)
Definition merged (done : list (string * string))
    (st : list Comparison.ComparisonFeature * gset string) : Prop :=
  NoDup (map Comparison.text st.1) /\
  (forall t, t ∈ st.2 <-> t ∈ map Comparison.text st.1) /\
  (forall t, t ∈ map Comparison.text st.1 <-> t ∈ done.*2) /\
  (forall name item, (name, item) ∈ done -> Exists (flagged name item) st.1).

(** A value string on which the comparator cannot fail.  It is not empty
    ([SpecificationValue.value] has [min_length=1]); and it is ASCII, or it
    has an ASCII character other than a digit besides its first point.  In
    the first case [float] accepts every string that the numeric test
    accepts; in the second [str.isdigit] rejects the string, so that
    [float] is not called. *)
Definition plain_value (s : string) : bool :=
  Py.truthy s &&
  (Py.isascii s ||
   negb (Py.all_chars (fun c => Py.isdigit_char c || negb (Py.isascii_char c))
                      (Py.remove_first "." s))).

(** Every specification that the comparator reads, that is every
    specification of the document of a requested model outside the two
    sections it skips, has such a value string. *)
Definition values_comparable (models : gmap string Pdf.PDFContent)
    (nums : list string) : Prop :=
  forall name doc s c k spec,
    name ∈ nums -> models !! name = Some doc ->
    s ∉ CompareProcessor.skipped_sections ->
    Pdf.get_specification doc s c k = Some spec ->
    plain_value (Pdf.value spec) = true.

(** The words of C1: with fewer than two available documents the call
    does not produce a ComparisonResponse. *)
Definition precondition_rule : Prop :=
  forall (get_content : string -> option Pdf.PDFContent) (uuid4 : string)
         (nums : list string),
    (size (CompareProcessor.collect_model_data get_content nums) < 2)%nat ->
    forall r, CompareProcessor.compare_models get_content uuid4 nums <> Ok r.

(** The three section names a parsed table can use. *)
Definition canonical_sections : list string :=
  (fun k => PdfProcessor.section_patterns !!! k) <$> PdfProcessor.section_order.

(** The specification stored at a triple of a parsed table. *)
Definition spec_at (sp : PdfProcessor.Specs) (s c k : string)
    : option Pdf.PDFSpecification :=
  subs ← produced sp s c; Dict.get k subs.

(** A stored specification is in normal form: its value has no blank at
    either end, and its unit is absent or a non-empty string that
    [standardize_unit] leaves alone. *)
Definition spec_normal (spec : Pdf.PDFSpecification) : Prop :=
  Py.strip (Pdf.value spec) = Pdf.value spec /\
  Transformers.standardize_unit (Pdf.unit spec) = Pdf.unit spec /\
  Pdf.unit spec <> Some "".

(** The invariant of the row loop on the nested map. *)
Definition category_inv (kv : string * Dict.dict Pdf.PDFSpecification) : Prop :=
  Py.truthy kv.1 = true /\ Forall (fun ks => spec_normal ks.2) kv.2.

Definition section_inv
    (kv : string * Dict.dict (Dict.dict Pdf.PDFSpecification)) : Prop :=
  kv.1 ∈ canonical_sections /\ Forall category_inv kv.2.

(** The category a cleaned row goes to: its own, or the one carried
    forward. *)
Definition row_category (st : PdfProcessor.ParseState) (row_data : list string)
    : option string :=
  if Py.truthy (nth 0 row_data "") then Some (nth 0 row_data "")
  else PdfProcessor.current_category st.

(** The subcategory key, the unit and the value of a cleaned row. *)
Definition row_subcategory (row_data : list string) : string :=
  if (1 <? length row_data)%nat && Py.truthy (nth 1 row_data "")
  then nth 1 row_data "" else "".

Definition row_spec (row_data : list string) : Pdf.PDFSpecification :=
  Pdf.mkSpec
    (Transformers.standardize_unit
       (if Py.truthy (nth 2 row_data "") then Some (Py.strip (nth 2 row_data ""))
        else None))
    (Py.strip (nth 3 row_data "")).

(** Category [c] is entered under section [sec]. *)
Definition register (sp : PdfProcessor.Specs) (sec c : string) : PdfProcessor.Specs :=
  Dict.modify sec (Dict.setdefault c Dict.empty) (Dict.setdefault sec Dict.empty sp).

(** [spec] is put at [(sec, c, key)]. *)
Definition store (sp : PdfProcessor.Specs) (sec c key : string)
    (spec : Pdf.PDFSpecification) : PdfProcessor.Specs :=
  Dict.modify sec (Dict.modify c (Dict.set key spec))
    (Dict.modify sec (Dict.setdefault c Dict.empty) sp).

(** Character [c] does not occur in [s]. *)
Definition no_char (c : ascii) (s : string) : Prop :=
  Py.all_chars (fun d => negb (Ascii.eqb d c)) s = true.

(** Wrapped lines joined to their bullet, by recursion on the lines: a
    bullet line starts an item, any other line is appended to the current
    item after a blank. *)
Fixpoint group_from (current : string) (lines : list string) : list string :=
  match lines with
  | [] => if Py.truthy current then [current] else []
  | line :: rest =>
      if CompareProcessor.is_bullet line then
        (if Py.truthy current then [current] else []) ++ group_from line rest
      else
        group_from (if Py.truthy current then current +:+ " " +:+ line else line) rest
  end.

Definition group_bullets (lines : list string) : list string :=
  group_from EmptyString lines.

(** The form of a model number: digits, then at most one of R, F, W. *)
Definition model_number_form (r : string) : Prop :=
  exists ds, Py.isdigit ds = true /\
             (r = ds \/ exists c, c ∈ ["R"; "F"; "W"]%char /\ r = ds +:+ String c "").

(** A character of a model number. *)
Definition number_char (c : ascii) : bool :=
  Py.isdigit_char c || existsb (Ascii.eqb c) ["R"; "F"; "W"]%char.

(** The value the comparator should hold for model [m] at triple [c]. *)
Definition expected_value (models : gmap string Pdf.PDFContent)
    (c : CompareProcessor.combination) (m : string)
    : option Comparison.SpecificationValue :=
  doc ← models !! m;
  spec ← Pdf.get_specification doc c.1.1 c.1.2 c.2;
  Some (Comparison.mkValue (Pdf.unit spec) (Pdf.value spec) (Pdf.display_value spec)).

(** The emitted specifications whose values differ. *)
Definition differing_specs (secs : CompareProcessor.SpecSections)
    : list Comparison.ComparisonSpecification :=
  filter (fun cs => Comparison.has_differences cs = true) (concat (map snd secs)).

(** Section [s] occurs in the document of a requested, available model
    and is not one of the two synthetic sections. *)
Definition compared_section (models : gmap string Pdf.PDFContent)
    (nums : list string) (s : string) : Prop :=
  (s ∉ CompareProcessor.skipped_sections) /\
  exists name doc sec,
    name ∈ nums /\ models !! name = Some doc /\
    Dict.get s (Pdf.sections doc) = Some sec.

(** The invariant of the first loop of [_process_specifications]. *)
Definition collect_inv (models : gmap string Pdf.PDFContent) (nums : list string)
    (st : CompareProcessor.CollectState) : Prop :=
  (forall c, c ∈ CompareProcessor.spec_combinations st ->
             Dict.mem c.1.1 (CompareProcessor.c_sections st) = true) /\
  Forall (fun kv => kv.2 = []) (CompareProcessor.c_sections st) /\
  (forall s, Dict.mem s (CompareProcessor.c_sections st) = true ->
             compared_section models nums s) /\
  (forall c, c ∈ CompareProcessor.seen_combinations st ->
             c ∈ CompareProcessor.spec_combinations st).

(** The entry of the output for the triple [c] holds the value [v] for
    model [name]. *)
Definition reported (secs : CompareProcessor.SpecSections)
    (c : CompareProcessor.combination) (name : string)
    (v : Comparison.SpecificationValue) : Prop :=
  exists l cs,
    Dict.get c.1.1 secs = Some l /\ cs ∈ l /\
    Comparison.category cs = c.1.2 /\ Comparison.specification cs = c.2 /\
    Dict.get name (Comparison.values cs) = Some v.

(** After the pairs [done], each flag of each entry says whether the
    pair of its model and the entry's text has been visited. *)
Definition exact_flags (nums : list string) (done : list (string * string))
    (fs : list Comparison.ComparisonFeature) : Prop :=
  forall f name,
    f ∈ fs ->
    Dict.get name (Comparison.models f) =
    if bool_decide (name ∈ nums)
    then Some (bool_decide ((name, Comparison.text f) ∈ done)) else None.

(** The response section made of the specifications of one section. *)
Definition grouped_section (specs : list Comparison.ComparisonSpecification)
    : Comparison.ComparisonSection :=
  Comparison.mkCompSection
    (map (fun kv => (kv.1, inl kv.2)) (CompareProcessor.group_by_category specs)).

(** The categories of the "Features_And_Advantages" section of a response. *)
Definition feature_categories (features advantages : list Comparison.ComparisonFeature)
    : Dict.dict (list Comparison.ComparisonSpecification
                 + list Comparison.ComparisonFeature) :=
  (if CompareProcessor.truthy_list features then [("features", inr features)] else [])
  ++ (if CompareProcessor.truthy_list advantages
      then [("advantages", inr advantages)] else []).

(** [result.model_number or model_num]: the key under which the document
    loaded for the requested number [model_num] is stored. *)
Definition model_key (result : Pdf.PDFContent) (model_num : string) : string :=
  if Py.truthy_opt (Pdf.model_number result)
  then default "" (Pdf.model_number result) else model_num.

(** The document loaded for [model_num], when it is stored under [k]. *)
Definition loaded_under (get_content : string -> option Pdf.PDFContent)
    (k model_num : string) : option Pdf.PDFContent :=
  result ← get_content model_num;
  if String.eqb (model_key result model_num) k then Some result else None.

(** The loops of [collect_section] over the categories and subcategories
    of one section. *)
Definition note_section (section_name : string) (section : Pdf.PDFSection)
    (st : CompareProcessor.CollectState) : CompareProcessor.CollectState :=
  fold_left
    (fun st '(category_name, category) =>
       fold_left
         (fun st spec_name =>
            CompareProcessor.note_combination st (section_name, category_name, spec_name))
         (Dict.keys (Pdf.subcategories category)) st)
    (Dict.items (Pdf.categories section)) st.

(** * Properties *)

(** ** Strings *)

Lemma lstrip_no_lead s : no_lead (Py.lstrip s).
Proof.
  induction s as [| c r IH]; simpl; [exact I |].
  destruct (Py.isspace c) eqn:E; [exact IH | exact E].
Qed.

Lemma lstrip_fixed s : no_lead s -> Py.lstrip s = s.
Proof. destruct s as [| c r]; simpl; [reflexivity |]. intros ->. reflexivity. Qed.

Lemma rstrip_no_lead s : no_lead s -> no_lead (Py.rstrip s).
Proof.
  destruct s as [| c r]; simpl; [exact id |].
  intros E. rewrite E. exact E.
Qed.

Lemma rstrip_idem s : Py.rstrip (Py.rstrip s) = Py.rstrip s.
Proof.
  induction s as [| c r IH]; simpl; [reflexivity |].
  destruct (Py.isspace c && Py.is_empty (Py.rstrip r)) eqn:E; simpl; [reflexivity |].
  rewrite IH, E. reflexivity.
Qed.

Lemma strip_idem s : Py.strip (Py.strip s) = Py.strip s.
Proof.
  unfold Py.strip.
  rewrite (lstrip_fixed (Py.rstrip (Py.lstrip s))).
  - apply rstrip_idem.
  - apply rstrip_no_lead, lstrip_no_lead.
Qed.

Lemma strip_blank_cons s : Py.strip (String " " s) = Py.strip s.
Proof. reflexivity. Qed.

Lemma truthy_opt_Some s : Py.truthy_opt (Some s) = Py.truthy s.
Proof. reflexivity. Qed.

(** ** Unit normaliser *)

Lemma table_displays k st :
  Transformers.STANDARD_UNITS !! k = Some st -> Transformers.display st ∈ displays.
Proof.
  intros H. apply elem_of_list_to_map_2 in H.
  assert (F : forallb (fun kv => bool_decide (Transformers.display kv.2 ∈ displays))
                Transformers.STANDARD_UNITS_items = true) by (vm_compute; reflexivity).
  rewrite forallb_forall in F.
  apply list_elem_of_In, F in H. exact (bool_decide_eq_true_1 _ H).
Qed.

Lemma first_standard_display vs st :
  Transformers.first_standard vs = Some st -> Transformers.display st ∈ displays.
Proof.
  induction vs as [| v r IH]; cbn [Transformers.first_standard]; [discriminate |].
  destruct (Transformers.STANDARD_UNITS !! v) as [st' |] eqn:E; [| exact IH].
  intros [= <-]. exact (table_displays _ _ E).
Qed.

(** Looking a display string up again gives the same display string, or
    nothing (the omega is no key of the table). *)
Lemma display_lookup d :
  d ∈ displays ->
  match Transformers.first_standard (Transformers.variations d) with
  | Some st => Transformers.display st = d
  | None => True
  end.
Proof. intros H. cases_in H; vm_compute; first [reflexivity | exact I]. Qed.

Lemma split_unit_suffix_stripped u b s :
  Transformers.split_unit u = (b, Some s) -> Py.strip s = s.
Proof.
  unfold Transformers.split_unit.
  destruct (1 <? length (map Py.strip (Py.split1 "-" u)))%nat; [| discriminate].
  intros [= _ <-]. apply strip_idem.
Qed.

Lemma split_unit_display d s :
  d ∈ displays -> Py.strip s = s ->
  Transformers.split_unit (d +:+ " - " +:+ s) = (d, Some s).
Proof.
  intros H Hs. unfold Transformers.split_unit.
  assert (E : map Py.strip (Py.split1 "-" (d +:+ " - " +:+ s)) = [d; Py.strip s]).
  { cases_in H; reflexivity. }
  rewrite E. simpl. rewrite strip_idem, Hs. f_equal.
  cases_in H; reflexivity.
Qed.

Lemma display_truthy d s : d ∈ displays -> Py.truthy (d +:+ s) = true.
Proof. intros H. cases_in H; reflexivity. Qed.

(** A display string is left alone. *)
Lemma standardize_display d :
  d ∈ displays -> Transformers.standardize_unit (Some d) = Some d.
Proof. intros H. cases_in H; vm_compute; reflexivity. Qed.

(** So is a display string followed by a suffix that is not one of the
    four long forms. *)
Lemma standardize_display_suffix d s :
  d ∈ displays -> Py.strip s = s -> Py.truthy s = true ->
  Py.lower s ∉ Transformers.standard_suffixes ->
  Transformers.standardize_unit (Some (d +:+ " - " +:+ s)) = Some (d +:+ " - " +:+ s).
Proof.
  intros Hd Hs Ht Hn. unfold Transformers.standardize_unit.
  rewrite truthy_opt_Some, (display_truthy d _ Hd). simpl negb. cbv iota.
  change (default "" (Some ?x)) with x.
  rewrite (split_unit_display d s Hd Hs).
  pose proof (display_lookup d Hd) as L.
  destruct (Transformers.first_standard (Transformers.variations d)) as [st |];
    [| reflexivity].
  unfold Transformers.format_standard.
  rewrite truthy_opt_Some, Ht. change (default "" (Some s)) with s.
  rewrite bool_decide_eq_false_2 by exact Hn. rewrite L. reflexivity.
Qed.

Lemma standardize_unit_steps u :
  Py.truthy u = true ->
  Transformers.standardize_unit (Some u) =
  match Transformers.first_standard
          (Transformers.variations (Transformers.split_unit u).1) with
  | None => Some u
  | Some st => Some (Transformers.format_standard st (Transformers.split_unit u).2)
  end.
Proof.
  intros T. unfold Transformers.standardize_unit.
  rewrite truthy_opt_Some, T. simpl negb. cbv iota.
  change (default "" (Some u)) with u.
  destruct (Transformers.split_unit u) as [b sfx]. reflexivity.
Qed.

Lemma standardize_unit_idem_all x :
  Transformers.standardize_unit (Transformers.standardize_unit x)
  = Transformers.standardize_unit x.
Proof.
  destruct (Py.truthy_opt x) eqn:Tx.
  2:{ assert (Transformers.standardize_unit x = None) as ->; [| reflexivity].
      unfold Transformers.standardize_unit. rewrite Tx. reflexivity. }
  destruct x as [u |]; [| discriminate]. rewrite truthy_opt_Some in Tx.
  rewrite (standardize_unit_steps u Tx).
  destruct (Transformers.split_unit u) as [b sfx] eqn:Es. cbn [fst snd].
  destruct (Transformers.first_standard (Transformers.variations b)) as [st |] eqn:Ef.
  - pose proof (first_standard_display _ _ Ef) as Hd.
    unfold Transformers.format_standard.
    destruct (Py.truthy_opt sfx) eqn:Ts.
    + destruct sfx as [s |]; [| discriminate]. change (default "" (Some s)) with s.
      pose proof (split_unit_suffix_stripped _ _ _ Es) as Hs.
      destruct (bool_decide (Py.lower s ∈ Transformers.standard_suffixes)) eqn:Eb.
      * apply bool_decide_eq_true_1 in Eb.
        apply standardize_display_suffix; [exact Hd | | |];
          cases_in Eb; rewrite Eb; try reflexivity;
          vm_compute; intros Hin; cases_in Hin; discriminate.
      * apply bool_decide_eq_false_1 in Eb.
        apply standardize_display_suffix; assumption.
    + apply standardize_display, Hd.
  - rewrite (standardize_unit_steps u Tx), Es. cbn [fst snd]. rewrite Ef. reflexivity.
Qed.

(** C6: for a raw unit string whose base unit matches a key of the unit
    table up to letter case, standardising twice gives the same result as
    standardising once. *)
Theorem standardize_unit_idempotent (u : string) :
  known_unit u ->
  Transformers.standardize_unit (Transformers.standardize_unit (Some u))
  = Transformers.standardize_unit (Some u).
Proof. intros _. apply standardize_unit_idem_all. Qed.

Lemma standardize_unit_idempotent_witness :
  known_unit "ohms - maximum" /\
  Transformers.standardize_unit (Transformers.standardize_unit (Some "ohms - maximum"))
  = Transformers.standardize_unit (Some "ohms - maximum").
Proof.
  assert (K : known_unit "ohms - maximum").
  { exists "Ohms". split; [vm_compute; eauto | vm_compute; reflexivity]. }
  split; [exact K | exact (standardize_unit_idempotent "ohms - maximum" K)].
Defined.

(** C10: the empty unit string counts as an absent unit: it is
    standardised to [None], and a value formatted with it is returned
    unchanged, exactly as with [None]. *)
Theorem empty_unit_is_absent :
  Transformers.standardize_unit (Some "") = None /\
  forall v : string,
    Transformers.format_display_value v (Some "") = v /\
    Transformers.format_display_value v None = v.
Proof. split; [reflexivity | intros v; split; reflexivity]. Qed.

(** ** Dictionaries *)
Section DictFacts.
Context {V : Type}.
Implicit Types (d : Dict.dict V) (k : string) (v : V).

Lemma eqb_sym k k' : String.eqb k k' = String.eqb k' k.
Proof. apply String.eqb_sym. Qed.

Lemma get_set k k' v d :
  Dict.get k' (Dict.set k v d) = if String.eqb k' k then Some v else Dict.get k' d.
Proof.
  induction d as [| [k0 v0] r IH]; simpl.
  - destruct (String.eqb k' k); reflexivity.
  - destruct (String.eqb_spec k k0) as [-> | Hk]; simpl.
    + destruct (String.eqb k' k0); reflexivity.
    + rewrite IH. destruct (String.eqb_spec k' k0) as [-> | Hk'];
        [| reflexivity].
      apply String.eqb_neq in Hk. rewrite eqb_sym, Hk. reflexivity.
Qed.

Lemma get_setdefault k k' v d :
  Dict.get k' (Dict.setdefault k v d) =
  match Dict.get k' d with
  | Some x => Some x
  | None => if String.eqb k' k then Some v else None
  end.
Proof.
  unfold Dict.setdefault, Dict.mem.
  destruct (Dict.get k d) as [x |] eqn:E.
  - destruct (Dict.get k' d) eqn:E'; [reflexivity |].
    destruct (String.eqb_spec k' k) as [-> | _]; [congruence | reflexivity].
  - rewrite get_set.
    destruct (String.eqb_spec k' k) as [-> | _]; [rewrite E; reflexivity |].
    destruct (Dict.get k' d); reflexivity.
Qed.

Lemma get_modify k k' (f : V -> V) d :
  Dict.get k' (Dict.modify k f d) =
  if String.eqb k' k then f <$> Dict.get k d else Dict.get k' d.
Proof.
  unfold Dict.modify. destruct (Dict.get k d) as [x |] eqn:E.
  - rewrite get_set. reflexivity.
  - destruct (String.eqb_spec k' k) as [-> | _]; [rewrite E |]; reflexivity.
Qed.

Lemma get_None_keys k d : Dict.get k d = None <-> k ∉ Dict.keys d.
Proof.
  induction d as [| [k0 v0] r IH]; simpl.
  - split; [intros _; apply not_elem_of_nil | reflexivity].
  - rewrite not_elem_of_cons.
    destruct (String.eqb_spec k k0) as [-> | Hk].
    + split; [discriminate | intros [? _]; congruence].
    + rewrite IH. tauto.
Qed.

Lemma keys_set k v d :
  Dict.keys (Dict.set k v d) = if Dict.mem k d then Dict.keys d else Dict.keys d ++ [k].
Proof.
  unfold Dict.mem. induction d as [| [k0 v0] r IH]; simpl; [reflexivity |].
  destruct (String.eqb_spec k k0) as [-> | Hk]; simpl; [reflexivity |].
  rewrite IH. destruct (Dict.get k r); reflexivity.
Qed.

Lemma wf_set k v d : Dict.wf d -> Dict.wf (Dict.set k v d).
Proof.
  unfold Dict.wf. intros H. rewrite keys_set. unfold Dict.mem.
  destruct (Dict.get k d) eqn:E; [exact H |].
  apply NoDup_app. split; [exact H |]. split; [| apply NoDup_singleton].
  intros x Hx Hk. apply list_elem_of_singleton in Hk as ->.
  apply get_None_keys in E. contradiction.
Qed.

Lemma wf_setdefault k v d : Dict.wf d -> Dict.wf (Dict.setdefault k v d).
Proof.
  unfold Dict.setdefault. destruct (Dict.mem k d); [exact id | apply wf_set].
Qed.

Lemma wf_modify k (f : V -> V) d : Dict.wf d -> Dict.wf (Dict.modify k f d).
Proof.
  unfold Dict.modify. destruct (Dict.get k d); [apply wf_set | exact id].
Qed.

Lemma Forall_set (Q : string * V -> Prop) k v d :
  Forall Q d -> Q (k, v) -> Forall Q (Dict.set k v d).
Proof.
  intros H Hv. induction H as [| [k0 v0] r H0 Hr IH]; simpl.
  - constructor; [exact Hv | constructor].
  - destruct (String.eqb k k0); constructor; assumption.
Qed.

Lemma Forall_get (Q : string * V -> Prop) k v d :
  Forall Q d -> Dict.get k d = Some v -> Q (k, v).
Proof.
  intros H. induction H as [| [k0 v0] r H0 Hr IH]; simpl; [discriminate |].
  destruct (String.eqb_spec k k0) as [-> | _]; [intros [= <-]; exact H0 | exact IH].
Qed.

Lemma Forall_setdefault (Q : string * V -> Prop) k v d :
  Forall Q d -> Q (k, v) -> Forall Q (Dict.setdefault k v d).
Proof.
  unfold Dict.setdefault. destruct (Dict.mem k d); [tauto | apply Forall_set].
Qed.

Lemma Forall_modify (Q : string * V -> Prop) k (f : V -> V) d :
  Forall Q d -> (forall v, Q (k, v) -> Q (k, f v)) -> Forall Q (Dict.modify k f d).
Proof.
  intros H Hf. unfold Dict.modify. destruct (Dict.get k d) as [v |] eqn:E; [| exact H].
  apply Forall_set; [exact H |]. apply Hf. exact (Forall_get Q k v d H E).
Qed.

Lemma wf_cons k v d :
  Dict.wf ((k, v) :: d) -> Dict.get k d = None /\ Dict.wf d.
Proof.
  unfold Dict.wf. change (Dict.keys ((k, v) :: d)) with (k :: Dict.keys d).
  intros [H1 H2]%NoDup_cons. split; [apply get_None_keys, H1 | exact H2].
Qed.

Lemma get_elem_of k v d : Dict.get k d = Some v -> (k, v) ∈ d.
Proof.
  induction d as [| [k0 v0] r IH]; simpl; [discriminate |].
  destruct (String.eqb_spec k k0) as [-> | _].
  - intros [= <-]. apply list_elem_of_here.
  - intros H. apply list_elem_of_further, IH, H.
Qed.
End DictFacts.

(** ** Table parser *)

Lemma pattern_electrical :
  PdfProcessor.section_patterns !!! "electrical" = "electrical specifications".
Proof. vm_compute. reflexivity. Qed.

Lemma pattern_magnetic :
  PdfProcessor.section_patterns !!! "magnetic" = "magnetic specifications".
Proof. vm_compute. reflexivity. Qed.

Lemma pattern_physical :
  PdfProcessor.section_patterns !!! "physical" = "physical/operational specifications".
Proof. vm_compute. reflexivity. Qed.

Lemma any_truthy_nth0 l : Py.truthy (nth 0 l "") = true -> Py.any_truthy l = true.
Proof. destruct l as [| x r]; simpl; [discriminate | intros ->; reflexivity]. Qed.

Lemma section_has_register sp sec c :
  section_has
    (Dict.modify sec (Dict.setdefault c Dict.empty) (Dict.setdefault sec Dict.empty sp))
    sec c.
Proof.
  unfold section_has. rewrite get_modify, String.eqb_refl, get_setdefault, String.eqb_refl.
  destruct (Dict.get sec sp) as [cats |]; simpl; eexists; (split; [reflexivity |]);
    unfold Dict.mem; rewrite get_setdefault, String.eqb_refl;
    destruct (Dict.get c _); reflexivity.
Qed.

Lemma section_has_modify sp sec c (f : Dict.dict (Dict.dict Pdf.PDFSpecification) ->
                                       Dict.dict (Dict.dict Pdf.PDFSpecification)) :
  (forall cats, Dict.mem c cats = true -> Dict.mem c (f cats) = true) ->
  section_has sp sec c -> section_has (Dict.modify sec f sp) sec c.
Proof.
  intros Hf (cats & Hg & Hm). exists (f cats).
  rewrite get_modify, String.eqb_refl, Hg. split; [reflexivity | exact (Hf _ Hm)].
Qed.

Lemma mem_setdefault {V} c (v : V) cats :
  Dict.mem c cats = true -> Dict.mem c (Dict.setdefault c v cats) = true.
Proof. unfold Dict.setdefault. intros H. rewrite H. exact H. Qed.

Lemma mem_modify {V} c (f : V -> V) cats :
  Dict.mem c cats = true -> Dict.mem c (Dict.modify c f cats) = true.
Proof.
  unfold Dict.mem. rewrite get_modify, String.eqb_refl.
  destruct (Dict.get c cats); [reflexivity | discriminate].
Qed.

(** What a row with a non-empty category cell leaves behind. *)
Lemma process_row_category st row c :
  nth 0 (PdfProcessor.clean_row row) "" = c -> Py.truthy c = true ->
  let sec := PdfProcessor.get_section_for_category (PdfProcessor.current_section st) c in
  let st' := PdfProcessor.process_row st row in
  PdfProcessor.current_section st' = Some sec /\
  PdfProcessor.current_category st' = Some c /\
  section_has (PdfProcessor.specs st') sec c.
Proof.
  intros Hc Ht sec st'. subst st'. unfold PdfProcessor.process_row. cbv zeta.
  rewrite (any_truthy_nth0 _ (eq_ind_r (fun x => Py.truthy x = true) Ht Hc)).
  rewrite Hc.
  do 3 (rewrite ?Ht;
        cbn [negb andb Py.truthy_opt default from_option id PdfProcessor.specs
             PdfProcessor.current_section PdfProcessor.current_category]).
  fold sec.
  destruct (3 <? length (PdfProcessor.clean_row row))%nat;
    [destruct (Py.truthy sec) |];
    cbn [PdfProcessor.specs PdfProcessor.current_section PdfProcessor.current_category];
    (split; [reflexivity | split; [reflexivity |]]);
    try apply section_has_register.
  apply section_has_modify; [intros; apply mem_modify; assumption |].
  apply section_has_modify; [intros; apply mem_setdefault; assumption |].
  apply section_has_register.
Qed.

(** The category "Test Coil Resistance" contains the magnetic keyword
    "test coil" and is filed under the electrical section, because it also
    contains "resistance" and the electrical keywords are tried first. *)
Lemma magnetic_keyword_rule_fails :
  Py.contains (Py.lower "Test Coil Resistance") "test coil" = true /\
  PdfProcessor.parse_table_to_specs [["Test Coil Resistance"; ""; "Ohms"; "10"]]
  = [("electrical specifications",
      [("Test Coil Resistance", [("", Pdf.mkSpec (Some "Ω") "10")])])] /\
  ~ magnetic_keyword_rule.
Proof.
  split; [vm_compute; reflexivity |]. split; [vm_compute; reflexivity |].
  intros H.
  specialize (H (PdfProcessor.mkState Dict.empty None None)
                ["Test Coil Resistance"; ""; "Ohms"; "10"]).
  assert (E : PdfProcessor.current_section
                (PdfProcessor.process_row (PdfProcessor.mkState Dict.empty None None)
                   ["Test Coil Resistance"; ""; "Ohms"; "10"])
              = Some "electrical specifications") by (vm_compute; reflexivity).
  rewrite E in H. discriminate H.
  exists "test coil". split; [| vm_compute; reflexivity].
  apply list_elem_of_further, list_elem_of_here.
Qed.

(** C4 (amended): a row with a non-empty category cell registers its
    category under the section chosen by the first test that succeeds on
    the lower-cased category: an electrical keyword gives the electrical
    section; otherwise "pull - in", "test coil" or "magnetic" gives the
    magnetic section; otherwise a physical keyword gives the physical
    section. *)
Theorem section_by_first_matching_keyword
    (st : PdfProcessor.ParseState) (row : list string) (c : string) :
  nth 0 (PdfProcessor.clean_row row) "" = c -> Py.truthy c = true ->
  let cl := Py.lower c in
  let st' := PdfProcessor.process_row st row in
  exists sec,
    PdfProcessor.current_section st' = Some sec /\
    section_has (PdfProcessor.specs st') sec c /\
    (PdfProcessor.any_term_in cl PdfProcessor.electrical_terms = true ->
     sec = "electrical specifications") /\
    (PdfProcessor.any_term_in cl PdfProcessor.electrical_terms = false ->
     PdfProcessor.any_term_in cl PdfProcessor.magnetic_terms = true ->
     sec = "magnetic specifications") /\
    (PdfProcessor.any_term_in cl PdfProcessor.electrical_terms = false ->
     PdfProcessor.any_term_in cl PdfProcessor.magnetic_terms = false ->
     PdfProcessor.any_term_in cl PdfProcessor.physical_terms = true ->
     sec = "physical/operational specifications").
Proof.
  intros Hc Ht cl st'.
  destruct (process_row_category st row c Hc Ht) as (Hs & _ & Hh).
  eexists. split; [exact Hs |]. split; [exact Hh |].
  unfold PdfProcessor.get_section_for_category. fold cl.
  split; [| split].
  - intros ->. apply pattern_electrical.
  - intros -> ->. apply pattern_magnetic.
  - intros -> -> ->. apply pattern_physical.
Qed.

Lemma section_by_first_matching_keyword_witness :
  exists sec,
    PdfProcessor.current_section
      (PdfProcessor.process_row (PdfProcessor.mkState Dict.empty None None)
         ["Test Coil"; "Nominal"; "AT"; "20"]) = Some sec /\
    sec = "magnetic specifications".
Proof.
  destruct (section_by_first_matching_keyword
              (PdfProcessor.mkState Dict.empty None None)
              ["Test Coil"; "Nominal"; "AT"; "20"] "Test Coil"
              eq_refl eq_refl) as (sec & Hs & _ & _ & Hm & _).
  exists sec. split; [exact Hs | apply Hm; reflexivity].
Defined.

(** C7: the two-row Voltage table gives one category "Voltage" in the
    electrical section with the subcategories "" (24 V) and "Max" (30 V);
    the second row, whose category cell is empty, takes the category
    carried forward from the first. *)
Theorem parse_voltage_table :
  PdfProcessor.section_patterns !! "electrical" = Some "electrical specifications" /\
  PdfProcessor.parse_table_to_specs
    [["Voltage"; ""; "V"; "24"]; [""; "Max"; "V"; "30"]]
  = [("electrical specifications",
      [("Voltage", [("", Pdf.mkSpec (Some "V") "24");
                    ("Max", Pdf.mkSpec (Some "V") "30")])])] /\
  PdfProcessor.current_category
    (PdfProcessor.process_row
       (PdfProcessor.process_row (PdfProcessor.mkState Dict.empty None None)
          ["Voltage"; ""; "V"; "24"])
       [""; "Max"; "V"; "30"]) = Some "Voltage".
Proof. repeat split; vm_compute; reflexivity. Qed.

(** ** Section builder *)

Lemma specs_wf_setdefault sp sec :
  specs_wf sp -> specs_wf (Dict.setdefault sec Dict.empty sp).
Proof.
  intros [H1 H2]. split; [apply wf_setdefault, H1 |].
  apply (Forall_setdefault (fun kv => Dict.wf kv.2)); [exact H2 | apply NoDup_nil_2].
Qed.

Lemma specs_wf_modify sp sec f :
  (forall cats, Dict.wf cats -> Dict.wf (f cats)) ->
  specs_wf sp -> specs_wf (Dict.modify sec f sp).
Proof.
  intros Hf [H1 H2]. split; [apply wf_modify, H1 |].
  apply (Forall_modify (fun kv => Dict.wf kv.2)); [exact H2 | exact Hf].
Qed.

Lemma process_row_wf st row :
  specs_wf (PdfProcessor.specs st) ->
  specs_wf (PdfProcessor.specs (PdfProcessor.process_row st row)).
Proof.
  intros H. unfold PdfProcessor.process_row. cbv zeta.
  repeat match goal with
         | |- context [if ?b then _ else _] => destruct b
         end;
    cbn [PdfProcessor.specs]; try exact H;
    repeat first
      [ apply specs_wf_modify;
        [intros cats Hc; first [apply wf_setdefault | apply wf_modify]; exact Hc |]
      | apply specs_wf_setdefault ];
    exact H.
Qed.

Lemma fold_rows_wf rows st :
  specs_wf (PdfProcessor.specs st) ->
  specs_wf (PdfProcessor.specs (fold_left PdfProcessor.process_row rows st)).
Proof.
  revert st. induction rows as [| row r IH]; intros st H; simpl; [exact H |].
  apply IH, process_row_wf, H.
Qed.

Lemma parse_table_wf table : specs_wf (PdfProcessor.parse_table_to_specs table).
Proof.
  assert (E : specs_wf (@Dict.empty (Dict.dict (Dict.dict Pdf.PDFSpecification)))).
  { split; [apply NoDup_nil_2 | constructor]. }
  unfold PdfProcessor.parse_table_to_specs.
  destruct table as [| row0 rest]; [exact E |].
  destruct (_ && _ && _); [exact E |].
  apply fold_rows_wf. exact E.
Qed.

Lemma add_categories_other s s' sections cats :
  s' <> s -> Dict.get s' (PdfProcessor.add_categories s sections cats) = Dict.get s' sections.
Proof.
  intros Hs. unfold PdfProcessor.add_categories, Dict.items. revert sections.
  induction cats as [| [c subs] r IH]; intros sections; simpl; [reflexivity |].
  rewrite IH, get_modify. apply String.eqb_neq in Hs. rewrite Hs. reflexivity.
Qed.

Lemma add_categories_same s sections cats c :
  Dict.wf cats -> is_Some (Dict.get s sections) ->
  category_of (PdfProcessor.add_categories s sections cats) s c =
  match Dict.get c cats with
  | Some subs => Some (Pdf.mkCategory subs)
  | None => category_of sections s c
  end.
Proof.
  unfold PdfProcessor.add_categories, Dict.items. revert sections.
  induction cats as [| [c1 subs1] r IH]; intros sections Hwf Hs; simpl; [reflexivity |].
  apply wf_cons in Hwf as [Hc1 Hr].
  rewrite IH; [| exact Hr |].
  2:{ rewrite get_modify, String.eqb_refl. destruct Hs as [x ->]. simpl. eauto. }
  destruct (String.eqb_spec c c1) as [-> | Hne].
  - rewrite Hc1.
    unfold category_of. rewrite get_modify, String.eqb_refl.
    destruct Hs as [x ->]. simpl. rewrite get_set, String.eqb_refl. reflexivity.
  - destruct (Dict.get c r); [reflexivity |].
    unfold category_of. rewrite get_modify, String.eqb_refl.
    destruct Hs as [x ->]. simpl. rewrite get_set.
    apply String.eqb_neq in Hne. rewrite Hne. reflexivity.
Qed.

Lemma category_of_setdefault sections s s' c :
  category_of (Dict.setdefault s (Pdf.mkSection Dict.empty) sections) s' c
  = category_of sections s' c.
Proof.
  unfold category_of. rewrite get_setdefault.
  destruct (Dict.get s' sections); [reflexivity |].
  destruct (String.eqb s' s); reflexivity.
Qed.

(** After one table is merged, a pair it produces holds that table's
    subcategories; every other pair is as before. *)
Lemma add_table_specs_category sp sections s c :
  specs_wf sp ->
  category_of (PdfProcessor.add_table_specs sections sp) s c =
  match produced sp s c with
  | Some subs => Some (Pdf.mkCategory subs)
  | None => category_of sections s c
  end.
Proof.
  unfold PdfProcessor.add_table_specs, Dict.items, specs_wf.
  revert sections. induction sp as [| [s1 cats1] r IH]; intros sections [Hwf Hall];
    cbn [fold_left]; [reflexivity |].
  apply wf_cons in Hwf as [Hs1 Hr]. apply Forall_cons in Hall as [Hc1 Hall].
  rewrite IH by (split; assumption).
  unfold produced at 2. simpl.
  destruct (String.eqb_spec s s1) as [-> | Hne]; simpl.
  - unfold produced. rewrite Hs1. simpl.
    rewrite add_categories_same; [| exact Hc1 |].
    + destruct (Dict.get c cats1); [reflexivity | apply category_of_setdefault].
    + rewrite get_setdefault, String.eqb_refl.
      destruct (Dict.get s1 sections); eauto.
  - change (Dict.get s r ≫= _) with (produced r s c).
    destruct (produced r s c); [reflexivity |].
    rewrite <- (category_of_setdefault sections s1 s c).
    unfold category_of. rewrite add_categories_other by exact Hne. reflexivity.
Qed.

Lemma process_tables_snoc ts t :
  PdfProcessor.process_specification_tables (ts ++ [t]) =
  let sp := PdfProcessor.parse_table_to_specs t in
  if Dict.truthy sp
  then PdfProcessor.add_table_specs (PdfProcessor.process_specification_tables ts) sp
  else PdfProcessor.process_specification_tables ts.
Proof. unfold PdfProcessor.process_specification_tables. apply fold_left_app. Qed.

(** Two tables that both give Voltage: the subcategory "" of the first is
    gone after the second is merged. *)
Lemma subcategories_united_fails :
  PdfProcessor.process_specification_tables
    [[["Voltage"; ""; "V"; "24"]]; [["Voltage"; "Max"; "V"; "30"]]]
  = [("electrical specifications",
      Pdf.mkSection
        [("Voltage", Pdf.mkCategory [("Max", Pdf.mkSpec (Some "V") "30")])])] /\
  ~ subcategories_united.
Proof.
  split; [vm_compute; reflexivity |].
  intros H.
  destruct (H [[["Voltage"; ""; "V"; "24"]]; [["Voltage"; "Max"; "V"; "30"]]]
              [["Voltage"; ""; "V"; "24"]]
              "electrical specifications" "Voltage" ""
              [("", Pdf.mkSpec (Some "V") "24")])
    as (cat & Hc & Hm).
  - apply list_elem_of_here.
  - vm_compute. reflexivity.
  - reflexivity.
  - vm_compute in Hc. injection Hc as <-. vm_compute in Hm. discriminate Hm.
Qed.

(** C2 (amended): sections and their categories accumulate across the
    tables of a document, but a (section, category) pair produced by a
    later table replaces the subcategory map stored for it by an earlier
    one: after a table is merged, each pair it produces holds exactly that
    table's subcategories, and every other pair is unchanged. *)
Theorem later_table_replaces_category
    (ts : list (list (list string))) (t : list (list string)) (s c : string) :
  category_of (PdfProcessor.process_specification_tables (ts ++ [t])) s c =
  match produced (PdfProcessor.parse_table_to_specs t) s c with
  | Some subs => Some (Pdf.mkCategory subs)
  | None => category_of (PdfProcessor.process_specification_tables ts) s c
  end.
Proof.
  rewrite process_tables_snoc. cbv zeta.
  destruct (Dict.truthy (PdfProcessor.parse_table_to_specs t)) eqn:E.
  - apply add_table_specs_category, parse_table_wf.
  - destruct (PdfProcessor.parse_table_to_specs t); [reflexivity | discriminate].
Qed.

(** ** Loops *)

Lemma fold_left_inv {A S : Type} (P : S -> Prop) (f : S -> A -> S) l s :
  (forall s x, x ∈ l -> P s -> P (f s x)) -> P s -> P (fold_left f l s).
Proof.
  revert s. induction l as [| x r IH]; intros s Hf Hs; simpl; [exact Hs |].
  apply IH.
  - intros s0 y Hy. apply Hf. apply list_elem_of_further, Hy.
  - apply Hf; [apply list_elem_of_here | exact Hs].
Qed.

Lemma foldM_cons {A S : Type} (f : S -> A -> result S) x l s :
  foldM f (x :: l) s = match f s x with Ok s' => foldM f l s' | Err e => Err e end.
Proof. reflexivity. Qed.

Lemma foldM_inv {A S : Type} (P : S -> Prop) (f : S -> A -> result S) l s s' :
  (forall s x s', x ∈ l -> P s -> f s x = Ok s' -> P s') ->
  P s -> foldM f l s = Ok s' -> P s'.
Proof.
  revert s. induction l as [| x r IH]; intros s Hf Hs.
  - intros [= <-]. exact Hs.
  - rewrite foldM_cons. destruct (f s x) as [s1 |] eqn:E; [| discriminate].
    apply IH.
    + intros s0 y s0' Hy. apply Hf. apply list_elem_of_further, Hy.
    + apply (Hf s x s1); [apply list_elem_of_here | exact Hs | exact E].
Qed.

Lemma foldM_ext_in {A S : Type} (f g : S -> A -> result S) l s :
  (forall s x, x ∈ l -> f s x = g s x) -> foldM f l s = foldM g l s.
Proof.
  revert s. induction l as [| x r IH]; intros s H; [reflexivity |].
  rewrite !foldM_cons, (H s x) by apply list_elem_of_here.
  destruct (g s x); [| reflexivity].
  apply IH. intros s0 y Hy. apply H, list_elem_of_further, Hy.
Qed.

Lemma fold_left_ext_in {A S : Type} (f g : S -> A -> S) l s :
  (forall s x, x ∈ l -> f s x = g s x) -> fold_left f l s = fold_left g l s.
Proof.
  revert s. induction l as [| x r IH]; intros s H; simpl; [reflexivity |].
  rewrite (H s x) by apply list_elem_of_here.
  apply IH. intros s0 y Hy. apply H, list_elem_of_further, Hy.
Qed.

(** ** Comparator: specifications *)

(** How many distinct members a list has, and when there are two. *)
Lemma two_distinct (l : list string) :
  (1 < size (list_to_set l : gset string))%nat <->
  exists x y, x ∈ l /\ y ∈ l /\ x <> y.
Proof.
  set (X := list_to_set l : gset string).
  assert (HX : forall x, x ∈ X <-> x ∈ l) by (intros x; apply elem_of_list_to_set).
  split.
  - intros H.
    destruct (set_choose_L X) as [x Hx].
    { intros E. rewrite E, size_empty in H. lia. }
    destruct (set_choose_L (X ∖ {[x]})) as [y Hy].
    { intros E. apply (f_equal size) in E. rewrite size_empty in E.
      rewrite size_difference in E by (apply singleton_subseteq_l, Hx).
      rewrite size_singleton in E. lia. }
    apply elem_of_difference in Hy as [Hy Hne].
    rewrite elem_of_singleton in Hne.
    exists x, y. rewrite <- !HX. auto.
  - intros (x & y & Hx & Hy & Hne). apply HX in Hx, Hy.
    assert (Hsub : ({[x]} ∪ {[y]} : gset string) ⊆ X).
    { apply union_subseteq. split; apply singleton_subseteq_l; assumption. }
    apply subseteq_size in Hsub.
    rewrite size_union in Hsub by (apply disjoint_singleton_l; rewrite elem_of_singleton; exact Hne).
    rewrite !size_singleton in Hsub. lia.
Qed.

Lemma collect_values_sound models nums c values :
  CompareProcessor.collect_values models nums c = Ok values ->
  Forall (fun kv => value_from models c kv.1 kv.2) values.
Proof.
  destruct c as [[s cat] sp]. unfold CompareProcessor.collect_values.
  apply foldM_inv; [| constructor].
  intros vs name vs' _ Hvs.
  destruct (models !! name) as [doc |] eqn:Em; [| intros [= <-]; exact Hvs].
  unfold CompareProcessor.get_spec_value.
  destruct (Pdf.get_specification doc s cat sp) as [spec |] eqn:Eg;
    [| intros [= <-]; exact Hvs].
  unfold Comparison.SpecificationValue_new.
  destruct (Py.truthy (Pdf.value spec)); [| discriminate].
  intros [= <-]. apply Forall_set; [exact Hvs |].
  exists doc, spec. auto.
Qed.

Lemma note_combination_sections st c :
  CompareProcessor.c_sections (CompareProcessor.note_combination st c)
  = CompareProcessor.c_sections st.
Proof.
  unfold CompareProcessor.note_combination.
  destruct (bool_decide _); reflexivity.
Qed.

Lemma collect_section_inv (P : CompareProcessor.SpecSections -> Prop) st item :
  (forall k d, P d -> P (Dict.setdefault k [] d)) ->
  P (CompareProcessor.c_sections st) ->
  P (CompareProcessor.c_sections (CompareProcessor.collect_section st item)).
Proof.
  intros HP H. destruct item as [name section]. unfold CompareProcessor.collect_section.
  destruct (bool_decide _); [exact H |].
  apply (fold_left_inv (fun st => P (CompareProcessor.c_sections st)));
    [| cbn; apply HP, H].
  intros st1 [cat category] _ H1.
  apply (fold_left_inv (fun st => P (CompareProcessor.c_sections st))); [| exact H1].
  intros st2 k _ H2. rewrite note_combination_sections. exact H2.
Qed.

Lemma collect_combinations_inv (P : CompareProcessor.SpecSections -> Prop) models nums :
  (forall k d, P d -> P (Dict.setdefault k [] d)) ->
  P Dict.empty ->
  P (CompareProcessor.c_sections (CompareProcessor.collect_combinations models nums)).
Proof.
  intros HP H0. unfold CompareProcessor.collect_combinations.
  apply (fold_left_inv (fun st => P (CompareProcessor.c_sections st))); [| exact H0].
  intros st name _ H. destruct (models !! name) as [doc |]; [| exact H].
  apply (fold_left_inv (fun st => P (CompareProcessor.c_sections st))); [| exact H].
  intros st1 item _ H1. apply collect_section_inv; assumption.
Qed.

Lemma process_combination_ok models nums st c st' :
  CompareProcessor.process_combination models nums st c = Ok st' ->
  sections_ok models st.1 -> sections_ok models st'.1.
Proof.
  destruct st as [secs diffs]. unfold CompareProcessor.process_combination.
  destruct (CompareProcessor.collect_values models nums c) as [values |] eqn:Ev;
    [| discriminate].
  cbn [mbind result_bind]. cbv zeta.
  assert (Hm : sections_ok models secs ->
               sections_ok models
                 (Dict.modify c.1.1
                    (fun l => l ++ [Comparison.mkCompSpec c.1.2 c.2 values
                       (bool_decide (1 < size (CompareProcessor.distinct_values values))%nat)])
                    secs)).
  { intros H. apply (Forall_modify (fun kv => Forall (spec_ok models kv.1) kv.2));
      [exact H |].
    intros l Hl. apply Forall_app. split; [exact Hl |].
    constructor; [| constructor].
    split; [reflexivity |]. cbn. destruct c as [[s cat] sp].
    exact (collect_values_sound _ _ _ _ Ev). }
  destruct (Dict.truthy values); [| intros [= <-]; exact id].
  destruct (bool_decide _); intros [= <-]; exact Hm.
Qed.

Lemma process_specifications_ok models nums secs diffs :
  CompareProcessor.process_specifications models nums = Ok (secs, diffs) ->
  sections_ok models secs.
Proof.
  unfold CompareProcessor.process_specifications. intros H.
  apply (foldM_inv (fun st => sections_ok models st.1)) in H; [exact H | |].
  - intros st c st' _ Hs Hp. exact (process_combination_ok _ _ _ _ _ Hp Hs).
  - cbn. apply (collect_combinations_inv (sections_ok models)).
    + intros k d Hd. apply (Forall_setdefault (fun kv => Forall (spec_ok models kv.1) kv.2));
        [exact Hd | constructor].
    + constructor.
Qed.

(** C5: in every ComparisonSpecification the comparator emits,
    [has_differences] is true exactly when the set of distinct raw [value]
    strings of the collected values has more than one member, that is, when
    two contributing models hold different value strings; each collected
    value is the [value] field of the model's own specification at the
    triple. *)
Theorem has_differences_iff_distinct_values
    (models : gmap string Pdf.PDFContent) (nums : list string)
    (secs : CompareProcessor.SpecSections) (diffs : list Differences.Difference)
    (s : string) (specs : list Comparison.ComparisonSpecification)
    (cs : Comparison.ComparisonSpecification) :
  CompareProcessor.process_specifications models nums = Ok (secs, diffs) ->
  (s, specs) ∈ secs -> cs ∈ specs ->
  (Comparison.has_differences cs = true <->
   (1 < size (list_to_set (map Comparison.value (Dict.values (Comparison.values cs)))
              : gset string))%nat) /\
  (Comparison.has_differences cs = true <->
   exists m1 v1 m2 v2,
     (m1, v1) ∈ Comparison.values cs /\ (m2, v2) ∈ Comparison.values cs /\
     Comparison.value v1 <> Comparison.value v2) /\
  (forall m v, (m, v) ∈ Comparison.values cs ->
     exists doc spec,
       models !! m = Some doc /\
       Pdf.get_specification doc s (Comparison.category cs) (Comparison.specification cs)
       = Some spec /\
       Comparison.value v = Pdf.value spec).
Proof.
  intros Hp Hs Hc. apply process_specifications_ok in Hp.
  unfold sections_ok in Hp. rewrite Forall_forall in Hp.
  specialize (Hp _ Hs). cbn in Hp. rewrite Forall_forall in Hp.
  destruct (Hp _ Hc) as [Hd Hv].
  assert (E : Comparison.has_differences cs = true <->
              (1 < size (list_to_set (map Comparison.value
                                        (Dict.values (Comparison.values cs)))
                         : gset string))%nat).
  { rewrite Hd. apply bool_decide_eq_true. }
  split; [exact E |]. split.
  - rewrite E, two_distinct. unfold Dict.values. split.
    + intros (x & y & Hx & Hy & Hne).
      apply list_elem_of_fmap in Hx as (v1 & -> & [[m1 w1] [-> H1]]%list_elem_of_fmap).
      apply list_elem_of_fmap in Hy as (v2 & -> & [[m2 w2] [-> H2]]%list_elem_of_fmap).
      exists m1, w1, m2, w2. auto.
    + intros (m1 & v1 & m2 & v2 & H1 & H2 & Hne).
      exists (Comparison.value v1), (Comparison.value v2).
      split; [| split; [| exact Hne]];
        apply list_elem_of_fmap; eexists; (split; [reflexivity |]);
        apply list_elem_of_fmap; [exists (m1, v1) | exists (m2, v2)]; auto.
  - intros m v Hin. rewrite Forall_forall in Hv.
    destruct (Hv _ Hin) as (doc & spec & Hm & Hg & Heq). cbn in Hm, Hg, Heq.
    subst v. exists doc, spec. auto.
Qed.

(** ** Floats and extremes *)

Lemma shr_1_nonneg mrs :
  (0 <= SpecFloat.shr_m mrs)%Z -> (0 <= SpecFloat.shr_m (SpecFloat.shr_1 mrs))%Z.
Proof. destruct mrs as [[| [p | p |] | p] r s]; cbn; lia. Qed.

Lemma iter_shr_1_nonneg p mrs :
  (0 <= SpecFloat.shr_m mrs)%Z ->
  (0 <= SpecFloat.shr_m (SpecFloat.iter_pos SpecFloat.shr_1 p mrs))%Z.
Proof.
  revert mrs. induction p as [p IH | p IH |]; intros mrs H; cbn [SpecFloat.iter_pos].
  - apply IH, IH, shr_1_nonneg, H.
  - apply IH, IH, H.
  - apply shr_1_nonneg, H.
Qed.

Lemma shr_fexp_nonneg m e l :
  (0 <= m)%Z ->
  (0 <= SpecFloat.shr_m (SpecFloat.shr_fexp Py.prec Py.emax m e l).1)%Z.
Proof.
  intros H. unfold SpecFloat.shr_fexp, SpecFloat.shr.
  assert (H0 : (0 <= SpecFloat.shr_m (SpecFloat.shr_record_of_loc m l))%Z)
    by (destruct l as [| []]; exact H).
  destruct (_ - e)%Z; cbn [fst]; [exact H0 | apply iter_shr_1_nonneg, H0 | exact H0].
Qed.

(** Rounding a mantissa that is not negative gives no NaN and no sign. *)
Lemma binary_round_aux_nonneg mx ex lx :
  (0 <= mx)%Z ->
  nonneg_float (SpecFloat.binary_round_aux Py.prec Py.emax false mx ex lx) = true.
Proof.
  intros H. unfold SpecFloat.binary_round_aux.
  pose proof (shr_fexp_nonneg mx ex lx H) as H1.
  destruct (SpecFloat.shr_fexp Py.prec Py.emax mx ex lx) as [mrs1 e1]. cbn [fst] in H1.
  assert (H2 : (0 <= SpecFloat.round_nearest_even (SpecFloat.shr_m mrs1)
                       (SpecFloat.loc_of_shr_record mrs1))%Z).
  { unfold SpecFloat.round_nearest_even.
    destruct (SpecFloat.loc_of_shr_record mrs1) as [| []];
      try destruct (Z.even _); lia. }
  pose proof (shr_fexp_nonneg _ e1 SpecFloat.loc_Exact H2) as H3.
  destruct (SpecFloat.shr_fexp Py.prec Py.emax _ e1 SpecFloat.loc_Exact) as [mrs2 e2].
  cbn [fst] in H3.
  destruct (SpecFloat.shr_m mrs2) as [| m | m];
    [reflexivity | destruct (e2 <=? _)%Z; reflexivity | lia].
Qed.

Lemma float_of_ratio_nonneg num den : nonneg_float (Py.float_of_ratio num den) = true.
Proof.
  unfold Py.float_of_ratio.
  destruct num as [| n | n]; [reflexivity | | reflexivity].
  destruct den as [| d | d]; [reflexivity | | reflexivity].
  unfold SpecFloat.SFdiv, SpecFloat.SFdiv_core_binary. cbv zeta.
  match goal with
  | |- context [Z.div_eucl ?a ?b] =>
      assert (Ha : (0 <= a)%Z);
      [| pose proof (Z.div_pos a b Ha eq_refl) as Hq; unfold Z.div in Hq;
         destruct (Z.div_eucl a b) as [q r]]
  end.
  - match goal with |- (0 <= match ?x with _ => _ end)%Z => destruct x end;
      [lia | apply Z.shiftl_nonneg; lia | lia].
  - cbn [xorb]. apply binary_round_aux_nonneg, Hq.
Qed.

Lemma float_of_string_nonneg s : nonneg_float (Py.float_of_string s) = true.
Proof.
  unfold Py.float_of_string, Py.float_of_decimal.
  destruct (Py.split1 "." s) as [| ip [| fp r]];
    match goal with
    | |- context [Py.decimal_ratio ?c ?q] => destruct (Py.decimal_ratio c q)
    end; apply float_of_ratio_nonneg.
Qed.

Lemma float_abs_nonneg x : nonneg_float x = true -> Py.float_abs x = x.
Proof. destruct x as [[] | [] | | [] m e]; try discriminate; reflexivity. Qed.

(** On such floats the comparison is that of the exponents and then of
    the mantissas. *)
Ltac float_order :=
  unfold Py.float_ltb, Py.float_leb, SpecFloat.SFltb, SpecFloat.SFleb,
    SpecFloat.SFcompare;
  repeat match goal with
         | |- context [Z.compare ?a ?b] => destruct (Z.compare_spec a b)
         | |- context [Pos.compare_cont Eq ?a ?b] =>
             change (Pos.compare_cont Eq a b) with (Pos.compare a b);
             destruct (Pos.compare_spec a b)
         end;
  try reflexivity; try discriminate; try lia.

Lemma float_ltb_asym a b : Py.float_ltb a b = true -> Py.float_ltb b a = false.
Proof.
  destruct a as [[] | [] | | [] ma ea], b as [[] | [] | | [] mb eb]; float_order.
Qed.

Lemma float_ltb_false_leb a b :
  nonneg_float a = true -> nonneg_float b = true ->
  Py.float_ltb a b = false -> Py.float_leb b a = true.
Proof.
  destruct a as [[] | [] | | [] ma ea], b as [[] | [] | | [] mb eb];
    try discriminate; intros _ _; float_order.
Qed.

Lemma float_ltb_false_trans a b c :
  nonneg_float a = true -> nonneg_float b = true -> nonneg_float c = true ->
  Py.float_ltb b a = false -> Py.float_ltb c b = false -> Py.float_ltb c a = false.
Proof.
  destruct a as [[] | [] | | [] ma ea], b as [[] | [] | | [] mb eb],
    c as [[] | [] | | [] mc ec];
    try discriminate; intros _ _ _; float_order.
Qed.

(** The selection loop shared by [max_by] and [min_by]. *)
Lemma select_spec {A : Type} (P : A -> Prop) (lt : A -> A -> bool) (x : A) (l : list A) :
  (forall a b c, P a -> P b -> P c ->
                 lt b a = false -> lt c b = false -> lt c a = false) ->
  (forall a b, lt a b = true -> lt b a = false) ->
  Forall P (x :: l) ->
  let r := fold_left (fun best y => if lt best y then y else best) l x in
  r ∈ x :: l /\ forall z, z ∈ x :: l -> lt r z = false.
Proof.
  intros T L. revert x. induction l as [| y l IH]; intros x HP; cbn [fold_left].
  - split; [apply list_elem_of_here |].
    intros z ->%list_elem_of_singleton.
    destruct (lt x x) eqn:E; [| reflexivity]. rewrite (L _ _ E) in E. discriminate.
  - apply Forall_cons in HP as [Px HP]. pose proof HP as HP'.
    apply Forall_cons in HP' as [Py Pl].
    assert (Pb : Forall P ((if lt x y then y else x) :: l))
      by (constructor; [destruct (lt x y) |]; assumption).
    destruct (IH (if lt x y then y else x) Pb) as [Hin Hle].
    assert (Pr : P (fold_left (fun best y0 => if lt best y0 then y0 else best) l
                      (if lt x y then y else x)))
      by (rewrite Forall_forall in Pb; apply Pb, Hin).
    split.
    + apply elem_of_cons in Hin as [-> | Hin].
      * destruct (lt x y); [apply list_elem_of_further |]; apply list_elem_of_here.
      * do 2 apply list_elem_of_further. exact Hin.
    + intros z Hz.
      assert (Hx' : lt (fold_left (fun best y0 => if lt best y0 then y0 else best) l
                          (if lt x y then y else x))
                       (if lt x y then y else x) = false)
        by (apply Hle, list_elem_of_here).
      apply elem_of_cons in Hz as [-> | Hz];
        [| apply elem_of_cons in Hz as [-> | Hz]].
      * destruct (lt x y) eqn:E; [| exact Hx'].
        exact (T _ _ _ Px Py Pr (L _ _ E) Hx').
      * destruct (lt x y) eqn:E; [exact Hx' |].
        exact (T _ _ _ Py Px Pr E Hx').
      * apply Hle, list_elem_of_further, Hz.
Qed.

Lemma max_by_spec {A : Type} (key : A -> Py.float) x l :
  Forall (fun z => nonneg_float (key z) = true) (x :: l) ->
  Py.max_by key x l ∈ x :: l /\
  forall z, z ∈ x :: l -> Py.float_leb (key z) (key (Py.max_by key x l)) = true.
Proof.
  intros HP.
  destruct (select_spec (fun z => nonneg_float (key z) = true)
              (fun a b => Py.float_ltb (key a) (key b)) x l) as [H1 H2].
  - intros a b c Ha Hb Hc. apply float_ltb_false_trans; assumption.
  - intros a b. apply float_ltb_asym.
  - exact HP.
  - split; [exact H1 |]. intros z Hz. rewrite Forall_forall in HP.
    apply float_ltb_false_leb; [apply HP, H1 | apply HP, Hz | apply H2, Hz].
Qed.

Lemma min_by_spec {A : Type} (key : A -> Py.float) x l :
  Forall (fun z => nonneg_float (key z) = true) (x :: l) ->
  Py.min_by key x l ∈ x :: l /\
  forall z, z ∈ x :: l -> Py.float_leb (key (Py.min_by key x l)) (key z) = true.
Proof.
  intros HP.
  destruct (select_spec (fun z => nonneg_float (key z) = true)
              (fun a b => Py.float_ltb (key b) (key a)) x l) as [H1 H2].
  - intros a b c Ha Hb Hc Hab Hbc.
    exact (float_ltb_false_trans _ _ _ Hc Hb Ha Hbc Hab).
  - intros a b. apply float_ltb_asym.
  - exact HP.
  - split; [exact H1 |]. intros z Hz. rewrite Forall_forall in HP.
    apply float_ltb_false_leb; [apply HP, Hz | apply HP, H1 | apply H2, Hz].
Qed.

(** ** Comparator: differences *)

Lemma all_numbers values :
  (forall m v, (m, v) ∈ values -> CompareProcessor.numeric_test (Comparison.value v) = true) ->
  forallb CompareProcessor.is_number
    (map (fun v => CompareProcessor.coerce (Comparison.value v)) (Dict.values values)) = true.
Proof.
  intros H. apply forallb_forall. intros x Hx.
  apply in_map_iff in Hx as (v & <- & Hv).
  apply in_map_iff in Hv as ([m w] & <- & Hw). apply list_elem_of_In in Hw.
  unfold CompareProcessor.coerce. cbn [snd]. rewrite (H m w Hw). reflexivity.
Qed.

(** The numeric branch of [make_difference]. *)
Lemma make_difference_numeric c values :
  Dict.truthy values = true ->
  (forall m v, (m, v) ∈ values -> CompareProcessor.numeric_test (Comparison.value v) = true) ->
  let d := CompareProcessor.make_difference c values in
  let number := fun v => Py.float_of_string (Comparison.value v) in
  (exists v, (Differences.model d, v) ∈ values /\
     forall m' v', (m', v') ∈ values ->
       Py.float_leb (Py.float_abs (number v')) (Py.float_abs (number v)) = true) /\
  (exists hi lo,
     hi ∈ map number (Dict.values values) /\ lo ∈ map number (Dict.values values) /\
     (forall x, x ∈ map number (Dict.values values) ->
        Py.float_leb x hi = true /\ Py.float_leb lo x = true) /\
     Differences.difference d
     = "Value of " +:+ Py.float_repr hi +:+ " vs " +:+ Py.float_repr lo).
Proof.
  intros Ht Hn d number. subst d. destruct c as [[s cat] sp].
  unfold CompareProcessor.make_difference. rewrite (all_numbers values Hn).
  destruct values as [| [m0 v0] r]; [discriminate |].
  cbn [Dict.items Dict.values map CompareProcessor.floats_of
       Differences.model Differences.difference].
  split.
  - destruct (max_by_spec
                (fun x : string * Comparison.SpecificationValue =>
                   Py.float_abs (Py.float_of_string (Comparison.value x.2)))
                (m0, v0) r) as [Hin Hmax].
    { apply Forall_forall. intros z _.
      rewrite float_abs_nonneg; apply float_of_string_nonneg. }
    destruct (Py.max_by _ (m0, v0) r) as [m v] eqn:E. exists v. split; [exact Hin |].
    intros m' v' H'. exact (Hmax (m', v') H').
  - fold (map number (map snd r)).
    assert (Hnn : Forall (fun z => nonneg_float (id z) = true)
                    (number v0 :: map number (map snd r))).
    { apply Forall_forall. intros z Hz.
      apply elem_of_cons in Hz as [-> | Hz]; [apply float_of_string_nonneg |].
      apply list_elem_of_fmap in Hz as (w & -> & _). apply float_of_string_nonneg. }
    destruct (max_by_spec id (number v0) (map number (map snd r)) Hnn) as [Hhi Hmax].
    destruct (min_by_spec id (number v0) (map number (map snd r)) Hnn) as [Hlo Hmin].
    eexists _, _. split; [exact Hhi |]. split; [exact Hlo |]. split; [| reflexivity].
    intros x Hx. split; [exact (Hmax x Hx) | exact (Hmin x Hx)].
Qed.

Lemma process_combination_emitted models nums st c st' :
  CompareProcessor.process_combination models nums st c = Ok st' ->
  Forall (emitted models nums) st.2 -> Forall (emitted models nums) st'.2.
Proof.
  destruct st as [secs diffs]. unfold CompareProcessor.process_combination.
  destruct (CompareProcessor.collect_values models nums c) as [values |] eqn:Ev;
    [| discriminate].
  cbn [mbind result_bind]. cbv zeta.
  destruct (Dict.truthy values) eqn:Et; [| intros [= <-]; exact id].
  destruct (bool_decide _) eqn:Eb; intros [= <-]; [| exact id].
  intros H. cbn. apply Forall_app. split; [exact H |].
  constructor; [| constructor]. exists c, values.
  apply bool_decide_eq_true_1 in Eb. auto.
Qed.

Lemma process_specifications_emitted models nums secs diffs :
  CompareProcessor.process_specifications models nums = Ok (secs, diffs) ->
  Forall (emitted models nums) diffs.
Proof.
  unfold CompareProcessor.process_specifications. intros H.
  apply (foldM_inv (fun st => Forall (emitted models nums) st.2)) in H; [exact H | |].
  - intros st c st' _ Hs Hp. exact (process_combination_emitted _ _ _ _ _ Hp Hs).
  - constructor.
Qed.

(** C3: every emitted difference is built from the values collected for
    one triple, and when all the collected value strings pass the numeric
    test it names a model whose value is the greatest in absolute value and
    its description is "Value of {max} vs {min}" with the greatest and the
    least of the floats; for two models with Voltage values "24" and "30"
    there is exactly one difference, it names the model with "30" and reads
    "Value of 30.0 vs 24.0". *)
Theorem numeric_difference_names_maximum :
  (forall (models : gmap string Pdf.PDFContent) (nums : list string)
          (secs : CompareProcessor.SpecSections) (diffs : list Differences.Difference)
          (d : Differences.Difference),
     CompareProcessor.process_specifications models nums = Ok (secs, diffs) ->
     d ∈ diffs ->
     exists c values,
       CompareProcessor.collect_values models nums c = Ok values /\
       Dict.truthy values = true /\
       (1 < size (CompareProcessor.distinct_values values))%nat /\
       d = CompareProcessor.make_difference c values) /\
  (forall (c : CompareProcessor.combination)
          (values : Dict.dict Comparison.SpecificationValue),
     Dict.truthy values = true ->
     (forall m v, (m, v) ∈ values ->
        CompareProcessor.numeric_test (Comparison.value v) = true) ->
     let d := CompareProcessor.make_difference c values in
     let number := fun v => Py.float_of_string (Comparison.value v) in
     (exists v, (Differences.model d, v) ∈ values /\
        forall m' v', (m', v') ∈ values ->
          Py.float_leb (Py.float_abs (number v')) (Py.float_abs (number v)) = true) /\
     (exists hi lo,
        hi ∈ map number (Dict.values values) /\
        lo ∈ map number (Dict.values values) /\
        (forall x, x ∈ map number (Dict.values values) ->
           Py.float_leb x hi = true /\ Py.float_leb lo x = true) /\
        Differences.difference d
        = "Value of " +:+ Py.float_repr hi +:+ " vs " +:+ Py.float_repr lo)) /\
  (exists secs,
     CompareProcessor.process_specifications (Examples.two_models "24" "30") ["A"; "B"]
     = Ok (secs,
           [Differences.mkDifference "B" "electrical specifications" (Some "Voltage") ""
              "Value of 30.0 vs 24.0" (Some "V") [("A", "24"); ("B", "30")]])) /\
  (exists secs,
     CompareProcessor.process_specifications (Examples.two_models "30" "24") ["A"; "B"]
     = Ok (secs,
           [Differences.mkDifference "A" "electrical specifications" (Some "Voltage") ""
              "Value of 30.0 vs 24.0" (Some "V") [("A", "30"); ("B", "24")]])).
Proof.
  split; [| split; [| split; eexists; vm_compute; reflexivity]].
  - intros models nums secs diffs d Hp Hd.
    apply process_specifications_emitted in Hp. rewrite Forall_forall in Hp.
    exact (Hp d Hd).
  - exact make_difference_numeric.
Qed.

Lemma numeric_difference_names_maximum_witness :
  let values := [("A", Examples.voltage_value "24"); ("B", Examples.voltage_value "30")] in
  let d := CompareProcessor.make_difference
             ("electrical specifications", "Voltage", "") values in
  (exists v, (Differences.model d, v) ∈ values /\
     forall m' v', (m', v') ∈ values ->
       Py.float_leb (Py.float_abs (Py.float_of_string (Comparison.value v')))
                    (Py.float_abs (Py.float_of_string (Comparison.value v))) = true) /\
  Differences.model d = "B" /\
  Differences.difference d = "Value of 30.0 vs 24.0".
Proof.
  intros values d.
  destruct numeric_difference_names_maximum as (_ & G & _).
  destruct (G ("electrical specifications", "Voltage", "") values) as [He _].
  - reflexivity.
  - intros m v H. subst values. cases_in H; inversion H; reflexivity.
  - split; [exact He |]. split; vm_compute; reflexivity.
Defined.

Lemma has_differences_iff_distinct_values_witness :
  let cs := Comparison.mkCompSpec "Voltage" ""
              [("A", Examples.voltage_value "24"); ("B", Examples.voltage_value "30")]
              true in
  Comparison.has_differences cs = true <->
  (1 < size (list_to_set (map Comparison.value (Dict.values (Comparison.values cs)))
             : gset string))%nat.
Proof.
  intros cs.
  refine (proj1 (has_differences_iff_distinct_values
                   (Examples.two_models "24" "30") ["A"; "B"]
                   [("electrical specifications", [cs])]
                   [Differences.mkDifference "B" "electrical specifications"
                      (Some "Voltage") "" "Value of 30.0 vs 24.0" (Some "V")
                      [("A", "24"); ("B", "30")]]
                   "electrical specifications" [cs] cs _ _ _)).
  - vm_compute. reflexivity.
  - apply list_elem_of_here.
  - apply list_elem_of_here.
Defined.

(** ** Comparator: features and advantages *)

Lemma join_line_truthy st line :
  Forall (fun item => Py.truthy item = true) st.1 ->
  Forall (fun item => Py.truthy item = true) (CompareProcessor.join_line st line).1.
Proof.
  destruct st as [items current]. unfold CompareProcessor.join_line. cbn [fst].
  intros H. destruct (CompareProcessor.is_bullet line).
  - destruct (Py.truthy current) eqn:E; cbn [fst]; [| exact H].
    apply Forall_app. split; [exact H |]. constructor; [exact E | constructor].
  - destruct (Py.truthy current); exact H.
Qed.

(** No item is empty, so that no [ComparisonFeature] can fail validation. *)
Lemma feature_items_truthy value :
  Forall (fun item => Py.truthy item = true) (CompareProcessor.feature_items value).
Proof.
  unfold CompareProcessor.feature_items.
  set (lines := map Py.strip _).
  assert (H : Forall (fun item => Py.truthy item = true)
                (fold_left CompareProcessor.join_line lines ([], "")).1).
  { apply (fold_left_inv (fun st => Forall (fun item => Py.truthy item = true) st.1)).
    - intros st line _. apply join_line_truthy.
    - constructor. }
  destruct (fold_left CompareProcessor.join_line lines ([], "")) as [items current].
  cbn [fst] in H. destruct (Py.truthy current) eqn:E; [| exact H].
  apply Forall_app. split; [exact H |]. constructor; [exact E | constructor].
Qed.

Lemma model_items_truthy models name ft :
  Forall (fun item => Py.truthy item = true) (CompareProcessor.model_items models name ft).
Proof.
  unfold CompareProcessor.model_items.
  destruct (CompareProcessor.feature_text models name ft);
    [apply feature_items_truthy | constructor].
Qed.

Lemma mark_present_texts item name fs :
  map Comparison.text (CompareProcessor.mark_present item name fs)
  = map Comparison.text fs.
Proof.
  induction fs as [| f r IH]; simpl; [reflexivity |].
  destruct (String.eqb (Comparison.text f) item); simpl; [reflexivity |].
  rewrite IH. reflexivity.
Qed.

Lemma mark_present_flags item name fs :
  item ∈ map Comparison.text fs ->
  Exists (flagged name item) (CompareProcessor.mark_present item name fs).
Proof.
  induction fs as [| f r IH]; simpl; [intros H; inversion H |].
  destruct (String.eqb_spec (Comparison.text f) item) as [E | Hne].
  - intros _. apply Exists_cons_hd. split; [exact E |].
    cbn. rewrite get_set, String.eqb_refl. reflexivity.
  - intros H. apply elem_of_cons in H as [H | H]; [congruence |].
    apply Exists_cons_tl, IH, H.
Qed.

Lemma mark_present_keeps item name n t fs :
  Exists (flagged n t) fs ->
  Exists (flagged n t) (CompareProcessor.mark_present item name fs).
Proof.
  induction fs as [| f r IH]; simpl; [exact id |].
  intros H. destruct (String.eqb (Comparison.text f) item).
  - apply Exists_cons in H as [[Ht Hf] | H]; [| apply Exists_cons_tl, H].
    apply Exists_cons_hd. split; [exact Ht |]. cbn. rewrite get_set.
    destruct (String.eqb n name); [reflexivity | exact Hf].
  - apply Exists_cons in H as [H | H];
      [apply Exists_cons_hd, H | apply Exists_cons_tl, IH, H].
Qed.

Lemma presence_dict_keeps (g : string -> bool) k l d :
  Dict.get k d = Some (g k) ->
  Dict.get k (fold_left (fun d name => Dict.set name (g name) d) l d) = Some (g k).
Proof.
  revert d. induction l as [| n r IH]; intros d H; simpl; [exact H |].
  apply IH. rewrite get_set.
  destruct (String.eqb_spec k n) as [-> | _]; [reflexivity | exact H].
Qed.

Lemma presence_dict_own nums name :
  name ∈ nums ->
  Dict.get name (CompareProcessor.presence_dict nums name) = Some true.
Proof.
  unfold CompareProcessor.presence_dict. intros H.
  rewrite <- (String.eqb_refl name). revert H. generalize (@Dict.empty bool).
  induction nums as [| n r IH]; intros d H; [inversion H |].
  cbn [fold_left]. apply elem_of_cons in H as [<- | H]; [| apply IH, H].
  apply (presence_dict_keeps (fun n => String.eqb n name) name).
  rewrite get_set, String.eqb_refl. reflexivity.
Qed.

Lemma add_item_merged nums name done st item :
  name ∈ nums -> Py.truthy item = true -> merged done st ->
  exists st', CompareProcessor.add_item nums name st item = Ok st' /\
              merged (done ++ [(name, item)]) st'.
Proof.
  intros Hname Hitem (Hnd & Hseen & Htexts & Hflags). destruct st as [fs seen].
  cbn [fst snd] in *. unfold CompareProcessor.add_item.
  destruct (bool_decide (item ∈ seen)) eqn:E.
  - apply bool_decide_eq_true_1 in E. eexists. split; [reflexivity |].
    unfold merged. cbn [fst snd]. rewrite mark_present_texts, fmap_app.
    split; [exact Hnd |]. split; [exact Hseen |]. split.
    + intros t. rewrite elem_of_app, <- Htexts. cbn.
      rewrite list_elem_of_singleton. split; [auto |].
      intros [H | ->]; [exact H | apply Hseen, E].
    + intros n t [H | H%list_elem_of_singleton]%elem_of_app.
      * apply mark_present_keeps, Hflags, H.
      * injection H as -> ->. apply mark_present_flags, Hseen, E.
  - apply bool_decide_eq_false_1 in E.
    unfold Comparison.ComparisonFeature_new. rewrite Hitem. cbn [mbind result_bind].
    eexists. split; [reflexivity |].
    unfold merged. cbn [fst snd]. rewrite map_app, fmap_app. cbn [map fmap list_fmap].
    split; [| split; [| split]].
    + apply NoDup_app. split; [exact Hnd |]. split; [| apply NoDup_singleton].
      intros t Ht ->%list_elem_of_singleton. apply E, Hseen, Ht.
    + intros t. rewrite elem_of_union, elem_of_singleton, elem_of_app,
        list_elem_of_singleton, Hseen. cbn. tauto.
    + intros t. rewrite !elem_of_app, !list_elem_of_singleton, Htexts. cbn. tauto.
    + intros n t [H | H%list_elem_of_singleton]%elem_of_app.
      * apply Exists_app. left. apply Hflags, H.
      * injection H as -> ->. apply Exists_app. right. apply Exists_cons_hd.
        split; [reflexivity |]. cbn. apply presence_dict_own, Hname.
Qed.

Lemma add_items_merged nums name items done st :
  name ∈ nums -> Forall (fun item => Py.truthy item = true) items -> merged done st ->
  exists st', foldM (CompareProcessor.add_item nums name) items st = Ok st' /\
              merged (done ++ map (pair name) items) st'.
Proof.
  intros Hname. revert done st.
  induction items as [| item r IH]; intros done st Hall Hm.
  - exists st. split; [reflexivity |]. cbn. rewrite app_nil_r. exact Hm.
  - apply Forall_cons in Hall as [Hitem Hall].
    destruct (add_item_merged nums name done st item Hname Hitem Hm) as (st1 & E1 & H1).
    destruct (IH _ st1 Hall H1) as (st2 & E2 & H2).
    exists st2. rewrite foldM_cons, E1. split; [exact E2 |].
    cbn [map]. rewrite <- app_assoc in H2. exact H2.
Qed.

Lemma process_models_merged models nums ft names done st :
  names ⊆ nums -> merged done st ->
  exists st',
    foldM (fun st model_name =>
             foldM (CompareProcessor.add_item nums model_name)
                   (CompareProcessor.model_items models model_name ft) st)
          names st = Ok st' /\
    merged (done ++ visited models ft names) st'.
Proof.
  revert done st. induction names as [| name r IH]; intros done st Hsub Hm.
  - exists st. split; [reflexivity |]. cbn. rewrite app_nil_r. exact Hm.
  - destruct (add_items_merged nums name
                (CompareProcessor.model_items models name ft) done st) as (st1 & E1 & H1).
    { apply Hsub, list_elem_of_here. }
    { apply model_items_truthy. }
    { exact Hm. }
    destruct (IH (done ++ map (pair name) (CompareProcessor.model_items models name ft))
                 st1) as (st2 & E2 & H2).
    { intros x Hx. apply Hsub, list_elem_of_further, Hx. }
    { exact H1. }
    exists st2. rewrite foldM_cons, E1. split; [exact E2 |].
    unfold visited in *. cbn [mbind list_bind]. rewrite <- app_assoc in H2. exact H2.
Qed.

(** C8: the merger always returns a list, no two entries of which have the
    same text; its length is the number of distinct item texts of the
    requested models; and every item of every such model is found in an
    entry whose presence flag for that model is true. *)
Theorem feature_texts_are_distinct
    (models : gmap string Pdf.PDFContent) (nums : list string) (ft : string) :
  exists features,
    CompareProcessor.process_feature_type models nums ft = Ok features /\
    NoDup (map Comparison.text features) /\
    length features = size (list_to_set (all_items models ft nums) : gset string) /\
    (forall t, t ∈ map Comparison.text features <-> t ∈ all_items models ft nums) /\
    (forall name item,
       name ∈ nums -> item ∈ CompareProcessor.model_items models name ft ->
       exists f, f ∈ features /\ Comparison.text f = item /\
                 Dict.get name (Comparison.models f) = Some true).
Proof.
  destruct (process_models_merged models nums ft nums [] ([], ∅))
    as ([fs seen] & E & Hnd & Hseen & Htexts & Hflags).
  { reflexivity. }
  { split; [constructor |]. split; [| split].
    - intros t. cbn. rewrite elem_of_empty. split; [tauto | intros H; inversion H].
    - intros t. cbn. tauto.
    - intros n t H. inversion H. }
  cbn [fst snd app] in *. exists fs.
  unfold CompareProcessor.process_feature_type. rewrite E. cbn [mbind result_bind fst].
  split; [reflexivity |]. split; [exact Hnd |]. split; [| split].
  - rewrite <- (length_map Comparison.text fs).
    rewrite <- (size_list_to_set (C := gset string)) by exact Hnd.
    f_equal. apply set_eq. intros t. rewrite !elem_of_list_to_set. apply Htexts.
  - exact Htexts.
  - intros name item Hname Hitem.
    assert (Hv : (name, item) ∈ visited models ft nums).
    { unfold visited. apply list_elem_of_bind. exists name. split; [| exact Hname].
      apply list_elem_of_fmap. exists item. auto. }
    apply Hflags, Exists_exists in Hv as (f & Hf & Ht & Hg). exists f. auto.
Qed.

(** ** Comparator: the models that are read *)

Lemma model_items_agree m1 m2 name ft :
  m1 !! name = m2 !! name ->
  CompareProcessor.model_items m1 name ft = CompareProcessor.model_items m2 name ft.
Proof.
  intros H. unfold CompareProcessor.model_items, CompareProcessor.feature_text.
  rewrite H. reflexivity.
Qed.

Lemma process_feature_type_agree m1 m2 nums ft :
  (forall k, k ∈ nums -> m1 !! k = m2 !! k) ->
  CompareProcessor.process_feature_type m1 nums ft
  = CompareProcessor.process_feature_type m2 nums ft.
Proof.
  intros H. unfold CompareProcessor.process_feature_type. f_equal.
  apply foldM_ext_in. intros st name Hname.
  rewrite (model_items_agree m1 m2 name ft (H name Hname)). reflexivity.
Qed.

Lemma collect_combinations_agree m1 m2 nums :
  (forall k, k ∈ nums -> m1 !! k = m2 !! k) ->
  CompareProcessor.collect_combinations m1 nums
  = CompareProcessor.collect_combinations m2 nums.
Proof.
  intros H. unfold CompareProcessor.collect_combinations.
  apply fold_left_ext_in. intros st name Hname. rewrite (H name Hname). reflexivity.
Qed.

Lemma collect_values_agree m1 m2 nums c :
  (forall k, k ∈ nums -> m1 !! k = m2 !! k) ->
  CompareProcessor.collect_values m1 nums c = CompareProcessor.collect_values m2 nums c.
Proof.
  intros H. destruct c as [[s cat] sp]. unfold CompareProcessor.collect_values.
  apply foldM_ext_in. intros st name Hname. rewrite (H name Hname). reflexivity.
Qed.

Lemma process_specifications_agree m1 m2 nums :
  (forall k, k ∈ nums -> m1 !! k = m2 !! k) ->
  CompareProcessor.process_specifications m1 nums
  = CompareProcessor.process_specifications m2 nums.
Proof.
  intros H. unfold CompareProcessor.process_specifications.
  rewrite (collect_combinations_agree m1 m2 nums H).
  apply foldM_ext_in. intros st c _. unfold CompareProcessor.process_combination.
  rewrite (collect_values_agree m1 m2 nums c H). reflexivity.
Qed.

(** C9: entries of the models map under keys that are not requested have
    no effect: on two maps that agree on every requested model number, the
    feature merger and the specification processor return the same
    results; in particular a document stored under a key outside the
    request can be added or removed freely. *)
Theorem unrequested_models_are_ignored
    (m1 m2 : gmap string Pdf.PDFContent) (nums : list string) (ft : string) :
  (forall k, k ∈ nums -> m1 !! k = m2 !! k) ->
  CompareProcessor.process_feature_type m1 nums ft
  = CompareProcessor.process_feature_type m2 nums ft /\
  CompareProcessor.process_specifications m1 nums
  = CompareProcessor.process_specifications m2 nums.
Proof.
  intros H. split;
    [apply process_feature_type_agree | apply process_specifications_agree]; exact H.
Qed.

Lemma unrequested_models_are_ignored_witness :
  CompareProcessor.process_feature_type
    (<["520R" := Examples.voltage_doc "99"]> (Examples.two_models "24" "30"))
    ["A"; "B"] "features"
  = CompareProcessor.process_feature_type (Examples.two_models "24" "30")
      ["A"; "B"] "features" /\
  CompareProcessor.process_specifications
    (<["520R" := Examples.voltage_doc "99"]> (Examples.two_models "24" "30")) ["A"; "B"]
  = CompareProcessor.process_specifications (Examples.two_models "24" "30") ["A"; "B"].
Proof.
  apply unrequested_models_are_ignored.
  intros k Hk. apply lookup_insert_ne.
  intros <-. cases_in Hk; discriminate.
Defined.

(** ** Scenarios *)

Example standardize_ohms_maximum :
  Transformers.standardize_unit (Some "Ohms - maximum") = Some "Ω - max".
Proof. vm_compute. reflexivity. Qed.

Example standardize_ohm : Transformers.standardize_unit (Some "ohm") = Some "Ω".
Proof. vm_compute. reflexivity. Qed.

Example standardize_unknown :
  Transformers.standardize_unit (Some "Banana") = Some "Banana".
Proof. vm_compute. reflexivity. Qed.

Example standardize_other_suffix :
  Transformers.standardize_unit (Some "volts-at 20 C") = Some "V - at 20 C".
Proof. vm_compute. reflexivity. Qed.

Example wrapped_bullets :
  CompareProcessor.feature_items
    ("• High " +:+ String "010" "  power" +:+ String "010" "- Small")
  = ["• High power"; "- Small"].
Proof. vm_compute. reflexivity. Qed.

Example identical_values_no_difference :
  CompareProcessor.process_specifications (Examples.two_models "24" "24") ["A"; "B"]
  = Ok ([("electrical specifications",
          [Comparison.mkCompSpec "Voltage" ""
             [("A", Examples.voltage_value "24"); ("B", Examples.voltage_value "24")]
             false])],
        []).
Proof. vm_compute. reflexivity. Qed.

Example text_values_name_first_model :
  CompareProcessor.make_difference ("physical/operational specifications", "Capsule", "")
    [("A", Comparison.mkValue None "glass" "glass");
     ("B", Comparison.mkValue None "steel" "steel");
     ("C", Comparison.mkValue None "glass" "glass")]
  = Differences.mkDifference "A" "physical/operational specifications" (Some "Capsule") ""
      "Value of glass vs steel, glass" None
      [("A", "glass"); ("B", "steel"); ("C", "glass")].
Proof. vm_compute. reflexivity. Qed.

Example float_repr_samples :
  map (fun s => Py.float_repr (Py.float_of_string s)) ["24"; "30.50"; ".5"; "1."; "007"]
  = ["24.0"; "30.5"; "0.5"; "1.0"; "7.0"].
Proof. vm_compute. reflexivity. Qed.

(** Rounding to binary64 and the notation of [repr]: the integer above
    2^53 is read as 2^53, small and large numbers are printed with an
    exponent, and a tie between two shortest decimals goes to the even
    digit. *)
Example float_rounding_samples :
  map (fun s => Py.float_repr (Py.float_of_string s))
      ["9007199254740993"; "0.00005"; "10000000000000000"; "0.1";
       "123456789012345.625"]
  = ["9007199254740992.0"; "5e-05"; "1e+16"; "0.1"; "123456789012345.62"].
Proof. vm_compute. reflexivity. Qed.

(** Two value strings that are read as the same float: the first model
    is named. *)
Example equal_floats_name_first_model :
  let d := CompareProcessor.make_difference ("electrical specifications", "Voltage", "")
             [("A", Comparison.mkValue None "9007199254740992" "9007199254740992");
              ("B", Comparison.mkValue None "9007199254740993" "9007199254740993")] in
  Differences.model d = "A" /\
  Differences.difference d = "Value of 9007199254740992.0 vs 9007199254740992.0".
Proof. vm_compute. split; reflexivity. Qed.

Example exponent_notation_in_description :
  let d := CompareProcessor.make_difference ("electrical specifications", "Current", "")
             [("A", Comparison.mkValue None "0.00005" "0.00005");
              ("B", Comparison.mkValue None "0.5" "0.5");
              ("C", Comparison.mkValue None "10000000000000000" "10000000000000000")] in
  Differences.model d = "C" /\
  Differences.difference d = "Value of 1e+16 vs 5e-05".
Proof. vm_compute. split; reflexivity. Qed.

(** * Further properties *)

(** ** Unit normaliser *)

Lemma displays_truthy d : d ∈ displays -> Py.truthy d = true.
Proof. intros H. cases_in H; reflexivity. Qed.

Lemma format_standard_truthy st sfx :
  Transformers.display st ∈ displays ->
  Py.truthy (Transformers.format_standard st sfx) = true.
Proof.
  intros Hd. unfold Transformers.format_standard.
  destruct (Py.truthy_opt sfx); [| apply displays_truthy, Hd].
  destruct (bool_decide _); apply display_truthy, Hd.
Qed.

Lemma standardize_unit_truthy x r :
  Transformers.standardize_unit x = Some r -> Py.truthy r = true.
Proof.
  destruct (Py.truthy_opt x) eqn:Tx.
  2:{ unfold Transformers.standardize_unit. rewrite Tx. discriminate. }
  destruct x as [u |]; [| discriminate]. rewrite truthy_opt_Some in Tx.
  rewrite (standardize_unit_steps u Tx).
  destruct (Transformers.first_standard _) as [st |] eqn:Ef; intros [= <-].
  - apply format_standard_truthy. exact (first_standard_display _ _ Ef).
  - exact Tx.
Qed.

(** X1: [standardize_unit] returns [None] exactly for an absent or empty
    unit, and it never returns the empty string. *)
Theorem standardize_unit_none_iff_absent (x : option string) :
  (Transformers.standardize_unit x = None <-> Py.truthy_opt x = false) /\
  Transformers.standardize_unit x <> Some "".
Proof.
  split.
  - split.
    + intros H. destruct (Py.truthy_opt x) eqn:Tx; [| reflexivity].
      destruct x as [u |]; [| discriminate]. rewrite truthy_opt_Some in Tx.
      rewrite (standardize_unit_steps u Tx) in H.
      destruct (Transformers.first_standard _); discriminate.
    + intros Tx. unfold Transformers.standardize_unit. rewrite Tx. reflexivity.
  - intros H. apply standardize_unit_truthy in H. discriminate.
Qed.

(** X2: the result for a non-empty unit is the input itself, when no
    variant of its base unit is in the table, or else the display string of
    a table entry, alone or followed by " - " and a suffix that is not
    empty, has no blank at either end and is none of the long forms
    "maximum", "minimum", "nominal", "typical". *)
Theorem standardize_unit_shape (u r : string) :
  Transformers.standardize_unit (Some u) = Some r ->
  (r = u /\
   Transformers.first_standard
     (Transformers.variations (Transformers.split_unit u).1) = None) \/
  exists key st,
    Transformers.STANDARD_UNITS !! key = Some st /\
    key ∈ Transformers.variations (Transformers.split_unit u).1 /\
    (r = Transformers.display st \/
     exists s, r = Transformers.display st +:+ " - " +:+ s /\
               Py.strip s = s /\ Py.truthy s = true /\
               Py.lower s ∉ Transformers.standard_suffixes).
Proof.
  intros H.
  assert (Tu : Py.truthy u = true).
  { destruct (Py.truthy u) eqn:E; [reflexivity |].
    unfold Transformers.standardize_unit in H. rewrite truthy_opt_Some, E in H.
    discriminate. }
  rewrite (standardize_unit_steps u Tu) in H.
  destruct (Transformers.split_unit u) as [b sfx] eqn:Es. cbn [fst snd] in *.
  destruct (Transformers.first_standard (Transformers.variations b)) as [st |] eqn:Ef.
  2:{ injection H as <-. left. auto. }
  injection H as <-. right.
  assert (Hk : exists key, key ∈ Transformers.variations b /\
                           Transformers.STANDARD_UNITS !! key = Some st).
  { clear Es. revert Ef. generalize (Transformers.variations b).
    induction l as [| v vs IH]; cbn [Transformers.first_standard]; [discriminate |].
    destruct (Transformers.STANDARD_UNITS !! v) as [st' |] eqn:E.
    - intros [= <-]. exists v. split; [apply list_elem_of_here | exact E].
    - intros H. destruct (IH H) as (k & Hk & Hl). exists k.
      split; [apply list_elem_of_further, Hk | exact Hl]. }
  destruct Hk as (key & Hin & Hl). exists key, st.
  split; [exact Hl |]. split; [exact Hin |].
  unfold Transformers.format_standard.
  destruct (Py.truthy_opt sfx) eqn:Ts; [| left; reflexivity].
  destruct sfx as [s |]; [| discriminate]. change (default "" (Some s)) with s.
  rewrite truthy_opt_Some in Ts.
  pose proof (split_unit_suffix_stripped _ _ _ Es) as Hs. right.
  destruct (bool_decide (Py.lower s ∈ Transformers.standard_suffixes)) eqn:Eb.
  - apply bool_decide_eq_true_1 in Eb. exists (Transformers.first3 (Py.lower s)).
    split; [reflexivity |].
    cases_in Eb; rewrite Eb; (split; [reflexivity |]); (split; [reflexivity |]);
      vm_compute; intros Hin'; cases_in Hin'; discriminate.
  - apply bool_decide_eq_false_1 in Eb. exists s. auto.
Qed.

Lemma standardize_unit_shape_witness :
  exists key st,
    Transformers.STANDARD_UNITS !! key = Some st /\
    "Ω - max" = Transformers.display st +:+ " - " +:+ "max".
Proof.
  destruct (standardize_unit_shape "Ohms - maximum" "Ω - max")
    as [[H _] | (key & st & Hl & Hin & [H | (s & H & _)])].
  - vm_compute. reflexivity.
  - discriminate H.
  - exfalso. apply table_displays in Hl. rewrite <- H in Hl.
    cases_in Hl; discriminate.
  - exists key, st. split; [exact Hl |].
    pose proof (table_displays _ _ Hl) as Hd.
    cases_in Hd; rewrite Hd in H |- *; try discriminate H. reflexivity.
Defined.

(** ** Rows of a table *)

Lemma canonical_sections_eq :
  canonical_sections =
  ["electrical specifications"; "magnetic specifications";
   "physical/operational specifications"].
Proof. vm_compute. reflexivity. Qed.

Lemma get_section_truthy cs c :
  Py.truthy (PdfProcessor.get_section_for_category cs c) = true.
Proof.
  unfold PdfProcessor.get_section_for_category.
  destruct (PdfProcessor.any_term_in _ PdfProcessor.electrical_terms);
    [rewrite pattern_electrical; reflexivity |].
  destruct (PdfProcessor.any_term_in _ PdfProcessor.magnetic_terms);
    [rewrite pattern_magnetic; reflexivity |].
  destruct (PdfProcessor.any_term_in _ PdfProcessor.physical_terms);
    [rewrite pattern_physical; reflexivity |].
  destruct (Py.truthy_opt cs) eqn:E.
  - destruct cs as [s |]; [exact E | discriminate].
  - change (nth 0 PdfProcessor.section_order "") with "electrical".
    rewrite pattern_electrical. reflexivity.
Qed.

Lemma get_section_canonical cs c :
  (forall s, cs = Some s -> s ∈ canonical_sections) ->
  PdfProcessor.get_section_for_category cs c ∈ canonical_sections.
Proof.
  intros H. rewrite canonical_sections_eq in *.
  unfold PdfProcessor.get_section_for_category.
  destruct (PdfProcessor.any_term_in _ PdfProcessor.electrical_terms);
    [rewrite pattern_electrical; apply list_elem_of_here |].
  destruct (PdfProcessor.any_term_in _ PdfProcessor.magnetic_terms);
    [rewrite pattern_magnetic; apply list_elem_of_further, list_elem_of_here |].
  destruct (PdfProcessor.any_term_in _ PdfProcessor.physical_terms);
    [rewrite pattern_physical; do 2 apply list_elem_of_further; apply list_elem_of_here |].
  destruct (Py.truthy_opt cs) eqn:E.
  - destruct cs as [s |]; [apply H; reflexivity | discriminate].
  - change (nth 0 PdfProcessor.section_order "") with "electrical".
    rewrite pattern_electrical. apply list_elem_of_here.
Qed.

Lemma truthy_or_empty s : (if Py.truthy s then s else "") = s.
Proof. destruct s; reflexivity. Qed.

(** The body of the row loop in closed form. *)
Lemma process_row_eq st row :
  PdfProcessor.process_row st row =
  let rd := PdfProcessor.clean_row row in
  if negb (Py.any_truthy rd) then st
  else
    match row_category st rd with
    | Some c =>
        if Py.truthy c then
          let sec := PdfProcessor.get_section_for_category
                       (PdfProcessor.current_section st) c in
          let sp1 := register (PdfProcessor.specs st) sec c in
          if (3 <? length rd)%nat
          then PdfProcessor.mkState
                 (store sp1 sec c (row_subcategory rd) (row_spec rd)) (Some c) (Some sec)
          else PdfProcessor.mkState sp1 (Some c) (Some sec)
        else st
    | None => st
    end.
Proof.
  unfold PdfProcessor.process_row, row_category, row_subcategory, row_spec,
    register, store.
  cbv zeta. set (rd := PdfProcessor.clean_row row).
  destruct (negb (Py.any_truthy rd)); [reflexivity |].
  set (cat0 := if Py.truthy (nth 0 rd "") then Some (nth 0 rd "")
               else PdfProcessor.current_category st).
  set (sub := if (1 <? length rd)%nat && Py.truthy (nth 1 rd "")
              then nth 1 rd "" else "").
  assert (E : (if negb (Py.truthy_opt cat0) && Py.truthy sub
               then PdfProcessor.current_category st else cat0) = cat0).
  { subst cat0. destruct (Py.truthy (nth 0 rd "")) eqn:T0.
    - cbn [Py.truthy_opt]. rewrite T0. reflexivity.
    - destruct (negb _ && _); reflexivity. }
  rewrite E. clear E.
  destruct cat0 as [c |]; cbn [Py.truthy_opt].
  2:{ rewrite andb_false_l. destruct (3 <? length rd)%nat; reflexivity. }
  destruct (Py.truthy c) eqn:Tc.
  2:{ rewrite andb_false_l. destruct (3 <? length rd)%nat; reflexivity. }
  cbn [default from_option id PdfProcessor.specs PdfProcessor.current_section
       PdfProcessor.current_category Py.truthy_opt].
  rewrite get_section_truthy, truthy_or_empty. cbn [andb].
  destruct (3 <? length rd)%nat; reflexivity.
Qed.

Lemma spec_at_unfold sp s c k :
  spec_at sp s c k =
  match Dict.get s sp with
  | Some cats =>
      match Dict.get c cats with
      | Some subs => Dict.get k subs
      | None => None
      end
  | None => None
  end.
Proof.
  unfold spec_at, produced. destruct (Dict.get s sp) as [cats |]; [| reflexivity].
  cbn. destruct (Dict.get c cats); reflexivity.
Qed.

Lemma spec_at_register sp sec c0 s c k :
  spec_at (register sp sec c0) s c k = spec_at sp s c k.
Proof.
  rewrite !spec_at_unfold. unfold register.
  rewrite get_modify, get_setdefault, String.eqb_refl.
  destruct (String.eqb_spec s sec) as [-> | Hs].
  - destruct (Dict.get sec sp) as [cats |]; cbn.
    + rewrite get_setdefault. destruct (Dict.get c cats); [reflexivity |].
      destruct (String.eqb c c0); reflexivity.
    + destruct (String.eqb c c0); reflexivity.
  - rewrite get_setdefault. apply String.eqb_neq in Hs. rewrite Hs.
    destruct (Dict.get s sp); reflexivity.
Qed.

Lemma spec_at_store_same sp sec c key spec :
  is_Some (Dict.get sec sp) ->
  spec_at (store sp sec c key spec) sec c key = Some spec.
Proof.
  intros [cats Hc]. rewrite spec_at_unfold. unfold store.
  rewrite !get_modify, !String.eqb_refl, Hc. cbn.
  rewrite get_modify, String.eqb_refl, get_setdefault, String.eqb_refl.
  destruct (Dict.get c cats); cbn [fmap option_fmap option_map];
    rewrite get_set, String.eqb_refl; reflexivity.
Qed.

Lemma spec_at_store_other sp sec c0 key spec s c k :
  s <> sec \/ c <> c0 \/ k <> key ->
  spec_at (store sp sec c0 key spec) s c k = spec_at sp s c k.
Proof.
  intros H. rewrite !spec_at_unfold. unfold store.
  rewrite !get_modify, String.eqb_refl.
  destruct (String.eqb_spec s sec) as [-> | Hs]; [| reflexivity].
  destruct (Dict.get sec sp) as [cats |]; [| reflexivity]. cbn.
  rewrite get_modify, get_setdefault, String.eqb_refl.
  destruct (String.eqb_spec c c0) as [-> | Hc].
  - destruct H as [H | [H | H]]; try congruence.
    apply String.eqb_neq in H.
    destruct (Dict.get c0 cats) as [subs |]; cbn [fmap option_fmap option_map];
      rewrite get_set, H; reflexivity.
  - rewrite get_setdefault. apply String.eqb_neq in Hc. rewrite Hc.
    destruct (Dict.get c cats); reflexivity.
Qed.

Lemma register_section sp sec c : is_Some (Dict.get sec (register sp sec c)).
Proof.
  unfold register. rewrite get_modify, String.eqb_refl, get_setdefault, String.eqb_refl.
  destruct (Dict.get sec sp); cbn; eauto.
Qed.

(** X3: a row that has a value column and a category of its own or a
    carried one stores its specification at the triple (inferred section,
    category, subcategory cell or ""), with the standardised unit and the
    stripped value, and leaves the category and section as the current
    ones. *)
Theorem row_stores_its_value (st : PdfProcessor.ParseState) (row : list string)
    (c : string) :
  let rd := PdfProcessor.clean_row row in
  Py.any_truthy rd = true -> (3 < length rd)%nat ->
  row_category st rd = Some c -> Py.truthy c = true ->
  let st' := PdfProcessor.process_row st row in
  let sec := PdfProcessor.get_section_for_category (PdfProcessor.current_section st) c in
  spec_at (PdfProcessor.specs st') sec c (row_subcategory rd) = Some (row_spec rd) /\
  PdfProcessor.current_category st' = Some c /\
  PdfProcessor.current_section st' = Some sec.
Proof.
  intros rd Ha Hl Hc Tc st' sec. subst st'. rewrite process_row_eq. cbv zeta.
  fold rd. rewrite Ha, Hc, Tc. cbn [negb].
  apply Nat.ltb_lt in Hl. rewrite Hl.
  cbn [PdfProcessor.specs PdfProcessor.current_category PdfProcessor.current_section].
  split; [| split; reflexivity].
  apply spec_at_store_same, register_section.
Qed.

Lemma row_stores_its_value_witness :
  spec_at
    (PdfProcessor.specs
       (PdfProcessor.process_row
          (PdfProcessor.mkState Dict.empty (Some "Voltage")
             (Some "electrical specifications"))
          [""; " Max "; "volts - maximum"; " 30 "]))
    "electrical specifications" "Voltage" "Max"
  = Some (Pdf.mkSpec (Some "V - max") "30").
Proof.
  refine (proj1 (row_stores_its_value
                   (PdfProcessor.mkState Dict.empty (Some "Voltage")
                      (Some "electrical specifications"))
                   [""; " Max "; "volts - maximum"; " 30 "] "Voltage" _ _ _ _)).
  - reflexivity.
  - cbn. lia.
  - reflexivity.
  - reflexivity.
Defined.

(** X4: a row changes no triple but its own: a row without a value column
    (three cells or fewer) or a blank row changes none, and any other row
    leaves every triple that differs from its own in section, category or
    subcategory as it was. *)
Theorem row_changes_only_its_triple (st : PdfProcessor.ParseState)
    (row : list string) (s c k : string) :
  let rd := PdfProcessor.clean_row row in
  (length rd <= 3)%nat \/ Py.any_truthy rd = false \/
  row_category st rd <> Some c \/
  s <> PdfProcessor.get_section_for_category (PdfProcessor.current_section st) c \/
  k <> row_subcategory rd ->
  spec_at (PdfProcessor.specs (PdfProcessor.process_row st row)) s c k
  = spec_at (PdfProcessor.specs st) s c k.
Proof.
  intros rd H. rewrite process_row_eq. cbv zeta. fold rd.
  destruct (Py.any_truthy rd) eqn:Ha; cbn [negb]; [| reflexivity].
  destruct (row_category st rd) as [c0 |] eqn:Hc; [| reflexivity].
  destruct (Py.truthy c0); [| reflexivity].
  destruct (3 <? length rd)%nat eqn:Hl; cbn [PdfProcessor.specs];
    [| apply spec_at_register].
  apply Nat.ltb_lt in Hl.
  rewrite spec_at_store_other; [apply spec_at_register |].
  destruct H as [H | [H | [H | [H | H]]]]; [lia | discriminate | | | auto].
  - right. left. congruence.
  - destruct (String.eqb_spec c c0) as [-> | Hne]; [left; exact H | right; left; exact Hne].
Qed.

Lemma row_changes_only_its_triple_witness :
  spec_at
    (PdfProcessor.specs
       (PdfProcessor.process_row
          (PdfProcessor.mkState
             [("electrical specifications",
               [("Voltage", [("", Pdf.mkSpec (Some "V") "24")])])]
             (Some "Voltage") (Some "electrical specifications"))
          ["Current"; "Max"; "A"]))
    "electrical specifications" "Voltage" ""
  = Some (Pdf.mkSpec (Some "V") "24").
Proof.
  refine (eq_trans
            (row_changes_only_its_triple
               (PdfProcessor.mkState
                  [("electrical specifications",
                    [("Voltage", [("", Pdf.mkSpec (Some "V") "24")])])]
                  (Some "Voltage") (Some "electrical specifications"))
               ["Current"; "Max"; "A"]
               "electrical specifications" "Voltage" "" _) _).
  - left. cbn. lia.
  - reflexivity.
Defined.

(** ** Normal form of a parsed table *)

Lemma row_spec_normal rd : spec_normal (row_spec rd).
Proof.
  unfold spec_normal, row_spec. cbn [Pdf.value Pdf.unit].
  split; [apply strip_idem |]. split; [apply standardize_unit_idem_all |].
  intros H. apply standardize_unit_truthy in H. discriminate.
Qed.

Lemma register_inv sp sec c :
  Forall section_inv sp -> Py.truthy c = true -> sec ∈ canonical_sections ->
  Forall section_inv (register sp sec c).
Proof.
  intros H Tc Hs. unfold register. apply Forall_modify.
  - apply Forall_setdefault; [exact H |]. split; [exact Hs | constructor].
  - intros cats [H1 H2]. split; [exact H1 |]. cbn [snd] in *.
    apply (Forall_setdefault category_inv); [exact H2 |].
    split; [exact Tc | constructor].
Qed.

Lemma store_inv sp sec c key spec :
  Forall section_inv sp -> Py.truthy c = true -> spec_normal spec ->
  Forall section_inv (store sp sec c key spec).
Proof.
  intros H Tc Hn. unfold store. apply Forall_modify; [apply Forall_modify |].
  - exact H.
  - intros cats [H1 H2]. split; [exact H1 |]. cbn [snd] in *.
    apply (Forall_setdefault category_inv); [exact H2 |].
    split; [exact Tc | constructor].
  - intros cats [H1 H2]. split; [exact H1 |]. cbn [snd] in *.
    apply (Forall_modify category_inv); [exact H2 |].
    intros subs [H3 H4]. split; [exact H3 |]. cbn [snd] in *.
    apply (Forall_set (fun ks => spec_normal ks.2)); [exact H4 | exact Hn].
Qed.

Lemma process_row_inv st row :
  Forall section_inv (PdfProcessor.specs st) /\
  (forall s, PdfProcessor.current_section st = Some s -> s ∈ canonical_sections) ->
  Forall section_inv (PdfProcessor.specs (PdfProcessor.process_row st row)) /\
  (forall s, PdfProcessor.current_section (PdfProcessor.process_row st row) = Some s ->
             s ∈ canonical_sections).
Proof.
  intros [H1 H2]. rewrite process_row_eq. cbv zeta.
  destruct (negb _); [auto |].
  destruct (row_category st _) as [c |]; [| auto].
  destruct (Py.truthy c) eqn:Tc; [| auto].
  pose proof (get_section_canonical _ c H2) as Hs.
  destruct (3 <? _)%nat;
    cbn [PdfProcessor.specs PdfProcessor.current_section];
    (split; [| intros s [= <-]; exact Hs]).
  - apply store_inv; [| exact Tc | apply row_spec_normal].
    apply register_inv; assumption.
  - apply register_inv; assumption.
Qed.

Lemma parse_table_inv (table : list (list string)) :
  Forall section_inv (PdfProcessor.parse_table_to_specs table).
Proof.
  unfold PdfProcessor.parse_table_to_specs.
  destruct table as [| row0 rest]; [constructor |].
  destruct (_ && _ && _); [constructor |].
  apply (fold_left_inv
           (fun st => Forall section_inv (PdfProcessor.specs st) /\
                      (forall s, PdfProcessor.current_section st = Some s ->
                                 s ∈ canonical_sections))).
  - intros st row _. apply process_row_inv.
  - split; [constructor | discriminate].
Qed.

(** X5: in the result of parsing any table, every section name is one of
    the three section patterns, no category name is empty, and every stored
    specification is in normal form: its value has no blank at either end
    and its unit is absent or a non-empty fixed point of
    [standardize_unit]. *)
Theorem parsed_table_is_normal (table : list (list string)) :
  Forall
    (fun sec =>
       sec.1 ∈ ["electrical specifications"; "magnetic specifications";
                "physical/operational specifications"] /\
       Forall
         (fun cat =>
            Py.truthy cat.1 = true /\
            Forall
              (fun sub =>
                 Py.strip (Pdf.value sub.2) = Pdf.value sub.2 /\
                 Transformers.standardize_unit (Pdf.unit sub.2) = Pdf.unit sub.2 /\
                 Pdf.unit sub.2 <> Some "")
              cat.2)
         sec.2)
    (PdfProcessor.parse_table_to_specs table).
Proof.
  rewrite <- canonical_sections_eq. exact (parse_table_inv table).
Qed.

(** ** Tables of a document *)

Lemma process_tables_step ts t s c :
  category_of (PdfProcessor.process_specification_tables (ts ++ [t])) s c =
  match produced (PdfProcessor.parse_table_to_specs t) s c with
  | Some subs => Some (Pdf.mkCategory subs)
  | None => category_of (PdfProcessor.process_specification_tables ts) s c
  end.
Proof.
  rewrite process_tables_snoc. cbv zeta.
  destruct (Dict.truthy (PdfProcessor.parse_table_to_specs t)) eqn:E.
  - apply add_table_specs_category, parse_table_wf.
  - destruct (PdfProcessor.parse_table_to_specs t); [reflexivity | discriminate].
Qed.

(** X6: over all the tables of a document the last writer wins: a
    (section, category) pair is absent from the merged sections exactly
    when no table produces it, and otherwise it holds the subcategories of
    the last table that produces it. *)
Theorem last_table_wins (tables : list (list (list string))) (s c : string) :
  (category_of (PdfProcessor.process_specification_tables tables) s c = None <->
   forall t, t ∈ tables -> produced (PdfProcessor.parse_table_to_specs t) s c = None) /\
  (forall before t after subs,
     tables = before ++ t :: after ->
     produced (PdfProcessor.parse_table_to_specs t) s c = Some subs ->
     (forall t', t' ∈ after ->
        produced (PdfProcessor.parse_table_to_specs t') s c = None) ->
     category_of (PdfProcessor.process_specification_tables tables) s c
     = Some (Pdf.mkCategory subs)).
Proof.
  split.
  - induction tables as [| t ts IH] using rev_ind.
    + split; [intros _ t Ht; inversion Ht | reflexivity].
    + rewrite process_tables_step. split.
      * intros H t' Ht'.
        destruct (produced (PdfProcessor.parse_table_to_specs t) s c) eqn:E;
          [discriminate |].
        apply elem_of_app in Ht' as [Ht' | ->%list_elem_of_singleton];
          [apply IH; assumption | exact E].
      * intros H. rewrite (H t) by (apply elem_of_app; right; apply list_elem_of_here).
        apply IH. intros t' Ht'. apply H, elem_of_app. left. exact Ht'.
  - intros before t after. revert tables.
    induction after as [| t' after IH] using rev_ind; intros tables subs -> Hp Hn.
    + rewrite process_tables_step, Hp. reflexivity.
    + rewrite app_comm_cons, app_assoc, process_tables_step.
      rewrite (Hn t') by (apply elem_of_app; right; apply list_elem_of_here).
      apply (IH _ subs eq_refl Hp).
      intros t0 H0. apply Hn, elem_of_app. left. exact H0.
Qed.

Lemma last_table_wins_witness :
  category_of
    (PdfProcessor.process_specification_tables
       [[["Voltage"; "Max"; "V"; "30"]]; [["Voltage"; ""; "V"; "24"]];
        [["Capsule"; ""; ""; "glass"]]])
    "electrical specifications" "Voltage"
  = Some (Pdf.mkCategory [("", Pdf.mkSpec (Some "V") "24")]).
Proof.
  refine (proj2 (last_table_wins _ "electrical specifications" "Voltage")
            [[["Voltage"; "Max"; "V"; "30"]]] [["Voltage"; ""; "V"; "24"]]
            [[["Capsule"; ""; ""; "glass"]]] [("", Pdf.mkSpec (Some "V") "24")] _ _ _).
  - reflexivity.
  - vm_compute. reflexivity.
  - intros t' Ht'. cases_in Ht'. vm_compute. reflexivity.
Defined.

Lemma add_categories_keys (Q : string * Pdf.PDFSection -> Prop) s sections cats :
  (forall sec sec', Q (s, sec) -> Q (s, sec')) ->
  Forall Q sections -> Forall Q (PdfProcessor.add_categories s sections cats).
Proof.
  intros HQ. unfold PdfProcessor.add_categories, Dict.items. revert sections.
  induction cats as [| [c subs] r IH]; intros sections H; cbn [fold_left]; [exact H |].
  apply IH. apply Forall_modify; [exact H |]. intros v. apply HQ.
Qed.

Lemma add_categories_wf s sections cats :
  Dict.wf sections -> Dict.wf (PdfProcessor.add_categories s sections cats).
Proof.
  unfold PdfProcessor.add_categories, Dict.items. revert sections.
  induction cats as [| [c subs] r IH]; intros sections H; cbn [fold_left]; [exact H |].
  apply IH, wf_modify, H.
Qed.

(** The merged sections have distinct names, all of them section patterns. *)
Lemma process_tables_sections tables :
  Dict.wf (PdfProcessor.process_specification_tables tables) /\
  Forall (fun kv => kv.1 ∈ canonical_sections)
         (PdfProcessor.process_specification_tables tables).
Proof.
  unfold PdfProcessor.process_specification_tables.
  apply (fold_left_inv
           (fun d => Dict.wf d /\ Forall (fun kv => kv.1 ∈ canonical_sections) d)).
  2:{ split; [apply NoDup_nil_2 | constructor]. }
  intros sections t _ H. destruct (Dict.truthy _); [| exact H].
  pose proof (parse_table_inv t) as Hn.
  unfold PdfProcessor.add_table_specs, Dict.items.
  revert sections H. induction Hn as [| [s cats] r [Hs _] _ IH]; intros sections [H1 H2];
    cbn [fold_left]; [auto |].
  apply IH. split.
  - apply add_categories_wf, wf_setdefault, H1.
  - apply (add_categories_keys (fun kv => kv.1 ∈ canonical_sections)); [auto |].
    apply Forall_setdefault; [exact H2 | exact Hs].
Qed.

Lemma get_update {V : Type} (d1 d2 : Dict.dict V) k :
  Dict.wf d2 ->
  Dict.get k (Extraction.update d1 d2) =
  match Dict.get k d2 with
  | Some v => Some v
  | None => Dict.get k d1
  end.
Proof.
  unfold Extraction.update, Dict.items. revert d1.
  induction d2 as [| [k2 v2] r IH]; intros d1 Hwf; cbn [fold_left]; [reflexivity |].
  apply wf_cons in Hwf as [Hk Hr]. rewrite IH by exact Hr. cbn [fst snd Dict.get].
  destruct (String.eqb_spec k k2) as [-> | Hne].
  - rewrite Hk, get_set, String.eqb_refl. reflexivity.
  - rewrite get_set. apply String.eqb_neq in Hne. rewrite Hne. reflexivity.
Qed.

Lemma not_canonical_get tables k :
  k ∉ canonical_sections ->
  Dict.get k (PdfProcessor.process_specification_tables tables) = None.
Proof.
  intros Hk. destruct (process_tables_sections tables) as [_ H].
  destruct (Dict.get k _) as [v |] eqn:E; [| reflexivity].
  apply get_elem_of in E. rewrite Forall_forall in H. apply H in E. contradiction.
Qed.

Lemma extract_content_sections (text : string) (tables : list (list (list string)))
    (feat_text adv_text : option string) (base_name : string)
    (diagram : option string) (s : string) :
  Dict.get s
    (Pdf.sections
       (Extraction.extract_content text tables feat_text adv_text base_name diagram)) =
  if String.eqb s "Features_And_Advantages" then
    d ← Extraction.parse_features_advantages feat_text adv_text; Dict.get s d
  else if String.eqb s "Diagram" then
    if Py.truthy_opt (Extraction.extract_model_name base_name)
    then Extraction.diagram_section <$> diagram else None
  else Dict.get s (PdfProcessor.process_specification_tables tables).
Proof.
  unfold Extraction.extract_content, Extraction.extract_sections.
  cbn [Pdf.sections].
  set (fa := match Extraction.parse_features_advantages feat_text adv_text with
             | Some d => if Dict.truthy d then d else Dict.empty
             | None => Dict.empty
             end).
  assert (Hfa : forall k, Dict.get k fa =
                          (d ← Extraction.parse_features_advantages feat_text adv_text;
                           Dict.get k d)).
  { intros k. subst fa.
    destruct (Extraction.parse_features_advantages feat_text adv_text) as [d |];
      [| reflexivity].
    destruct d; reflexivity. }
  assert (Hfa' : forall k, k <> "Features_And_Advantages" -> Dict.get k fa = None).
  { intros k Hk. rewrite Hfa. unfold Extraction.parse_features_advantages.
    destruct (_ || _); [| reflexivity]. cbn.
    apply String.eqb_neq in Hk. rewrite Hk. reflexivity. }
  assert (Hu : forall k,
             Dict.get k (Extraction.update fa
                           (PdfProcessor.process_specification_tables tables)) =
             if String.eqb k "Features_And_Advantages" then Dict.get k fa
             else Dict.get k (PdfProcessor.process_specification_tables tables)).
  { intros k. rewrite get_update by apply process_tables_sections.
    destruct (String.eqb_spec k "Features_And_Advantages") as [-> | Hk].
    - rewrite not_canonical_get; [reflexivity |].
      rewrite canonical_sections_eq. intros H. cases_in H; discriminate.
    - rewrite (Hfa' k Hk). destruct (Dict.get k _); reflexivity. }
  assert (Hd : Dict.get "Diagram" (PdfProcessor.process_specification_tables tables)
               = None).
  { apply not_canonical_get. rewrite canonical_sections_eq.
    intros H. cases_in H; discriminate. }
  destruct (Py.truthy_opt (Extraction.extract_model_name base_name));
    [destruct diagram as [p |] |]; cbn [fmap option_fmap option_map];
    rewrite ?get_set, Hu, ?Hfa;
    destruct (String.eqb_spec s "Features_And_Advantages") as [-> | Hs];
    try reflexivity;
    destruct (String.eqb_spec s "Diagram") as [-> | Hs']; try reflexivity;
    exact Hd.
Qed.

(** X7: the three parts of an assembled document do not overwrite each
    other: under "Features_And_Advantages" is the section built from the
    two text boxes, if any line was kept; under "Diagram" the diagram
    section, if a model number was extracted and the image exists; and
    under every other name what the specification tables give. *)
Theorem assembled_sections (text : string) (tables : list (list (list string)))
    (feat_text adv_text : option string) (base_name : string)
    (diagram : option string) (s : string) :
  Dict.get s
    (Pdf.sections
       (Extraction.extract_content text tables feat_text adv_text base_name diagram)) =
  if String.eqb s "Features_And_Advantages" then
    d ← Extraction.parse_features_advantages feat_text adv_text; Dict.get s d
  else if String.eqb s "Diagram" then
    if Py.truthy_opt (Extraction.extract_model_name base_name)
    then Extraction.diagram_section <$> diagram else None
  else Dict.get s (PdfProcessor.process_specification_tables tables).
Proof. apply extract_content_sections. Qed.

(** ** From the text boxes to the comparator's items *)

Lemma split_no_sep sep s : no_char sep s -> Py.split sep s = [s].
Proof.
  unfold no_char. induction s as [| c r IH]; cbn; [reflexivity |].
  destruct (Ascii.eqb c sep); cbn; [discriminate |].
  intros H. rewrite (IH H). reflexivity.
Qed.

Lemma split_app_sep sep s rest :
  no_char sep s ->
  Py.split sep (s +:+ String sep rest) = s :: Py.split sep rest.
Proof.
  unfold no_char. induction s as [| c r IH].
  - intros _. change ("" +:+ String sep rest) with (String sep rest).
    cbn [Py.split]. rewrite Ascii.eqb_refl. reflexivity.
  - change (String c r +:+ String sep rest) with (String c (r +:+ String sep rest)).
    cbn [Py.split Py.all_chars].
    destruct (Ascii.eqb c sep); cbn [negb andb]; [discriminate |].
    intros H. rewrite (IH H). reflexivity.
Qed.

Lemma split_join lines :
  lines <> [] -> Forall (no_char "010") lines ->
  Py.split "010" (Py.join Extraction.newline lines) = lines.
Proof.
  intros Hne H. induction H as [| x r Hx Hr IH]; [congruence |].
  destruct r as [| y r'].
  - cbn [Py.join]. apply split_no_sep, Hx.
  - change (Py.join Extraction.newline (x :: y :: r'))
      with (x +:+ String "010" (Py.join Extraction.newline (y :: r'))).
    rewrite split_app_sep by exact Hx. f_equal. apply IH. discriminate.
Qed.

Lemma split_pieces sep s : Forall (no_char sep) (Py.split sep s).
Proof.
  unfold no_char. induction s as [| c r IH]; cbn; [repeat constructor |].
  destruct (Ascii.eqb c sep) eqn:E; [constructor; [reflexivity | exact IH] |].
  destruct (Py.split sep r) as [| h t]; cbn.
  - constructor; [cbn; rewrite E; reflexivity | constructor].
  - apply Forall_cons in IH as [Hh Ht]. constructor; [| exact Ht].
    cbn. rewrite E. exact Hh.
Qed.

Lemma lstrip_no_char c s : no_char c s -> no_char c (Py.lstrip s).
Proof.
  unfold no_char. induction s as [| d r IH]; cbn; [auto |].
  intros [H1 H2]%andb_true_iff. destruct (Py.isspace d); [exact (IH H2) |].
  cbn. rewrite H1, H2. reflexivity.
Qed.

Lemma rstrip_no_char c s : no_char c s -> no_char c (Py.rstrip s).
Proof.
  unfold no_char. induction s as [| d r IH]; cbn; [auto |].
  intros [H1 H2]%andb_true_iff. destruct (_ && _); [reflexivity |].
  cbn. rewrite H1, (IH H2). reflexivity.
Qed.

(** What every line kept from a text box is like. *)
Lemma box_lines_kept header box_text :
  Forall (fun line => Py.strip line = line /\ Py.truthy line = true /\
                      no_char "010" line /\ Py.lower line <> header)
         (Extraction.box_lines header box_text).
Proof.
  unfold Extraction.box_lines. destruct (Py.truthy_opt box_text); [| constructor].
  apply Forall_forall. intros line Hl.
  apply list_elem_of_filter in Hl as [Hp Hl].
  apply andb_prop_elim in Hp as [Ht Hh].
  apply list_elem_of_fmap in Hl as (piece & -> & Hpiece).
  split; [apply strip_idem |]. split; [apply Is_true_eq_true, Ht |]. split.
  - apply rstrip_no_char, lstrip_no_char.
    pose proof (split_pieces "010" (default "" box_text)) as Hs.
    rewrite Forall_forall in Hs. exact (Hs _ Hpiece).
  - intros E. apply String.eqb_eq in E. rewrite E in Hh. exact Hh.
Qed.

Lemma filter_map_strip lines :
  Forall (fun line => Py.strip line = line /\ Py.truthy line = true) lines ->
  map Py.strip (filter (fun line => Py.truthy (Py.strip line)) lines) = lines.
Proof.
  induction 1 as [| x r [Hs Ht] _ IH]; [reflexivity |].
  rewrite filter_cons_True by (rewrite Hs, Ht; exact I).
  cbn [map]. rewrite Hs, IH. reflexivity.
Qed.

Lemma fold_join_line lines items current :
  (let '(processed_items, current_item) :=
     fold_left CompareProcessor.join_line lines (items, current) in
   if Py.truthy current_item then processed_items ++ [current_item]
   else processed_items)
  = items ++ group_from current lines.
Proof.
  revert items current. induction lines as [| line r IH]; intros items current.
  - cbn. destruct (Py.truthy current); [reflexivity | rewrite app_nil_r; reflexivity].
  - cbn [fold_left group_from]. unfold CompareProcessor.join_line at 2.
    destruct (CompareProcessor.is_bullet line).
    + rewrite IH. destruct (Py.truthy current);
        [rewrite <- app_assoc |]; reflexivity.
    + destruct (Py.truthy current); apply IH.
Qed.

Lemma feature_items_of_lines lines :
  lines <> [] ->
  Forall (fun line => Py.strip line = line /\ Py.truthy line = true /\
                      no_char "010" line) lines ->
  CompareProcessor.feature_items (Py.join Extraction.newline lines)
  = group_bullets lines.
Proof.
  intros Hne H. unfold CompareProcessor.feature_items.
  rewrite split_join;
    [| exact Hne | eapply Forall_impl; [exact H | intros ? (? & ? & ?); assumption]].
  rewrite filter_map_strip
    by (eapply Forall_impl; [exact H | intros ? (? & ? & ?); auto]).
  apply (fold_join_line lines [] "").
Qed.

Lemma join_truthy lines :
  lines <> [] -> Forall (fun line => Py.truthy line = true) lines ->
  Py.truthy (Py.join Extraction.newline lines) = true.
Proof.
  intros Hne H. destruct H as [| x r Hx _]; [congruence |].
  destruct x; [discriminate |]. destruct r; reflexivity.
Qed.

Lemma text_category_items lines :
  Forall (fun line => Py.strip line = line /\ Py.truthy line = true /\
                      no_char "010" line) lines ->
  (let value := Py.join Extraction.newline lines in
   if Py.truthy value then CompareProcessor.feature_items value else [])
  = group_bullets lines.
Proof.
  intros H. cbv zeta. destruct lines as [| x r]; [reflexivity |].
  rewrite join_truthy;
    [| discriminate | eapply Forall_impl; [exact H | intros ? (? & ? & ?); assumption]].
  apply feature_items_of_lines; [discriminate | exact H].
Qed.

(** X8: nothing is lost between the builder and the comparator: for a
    model whose document was assembled from the two text boxes, the items
    the comparator works on are the lines kept from the features box (and
    from the advantages box), wrapped lines joined to their bullet. *)
Theorem items_of_assembled_document
    (models : gmap string Pdf.PDFContent) (name : string)
    (text : string) (tables : list (list (list string)))
    (feat_text adv_text : option string) (base_name : string)
    (diagram : option string) :
  models !! name
  = Some (Extraction.extract_content text tables feat_text adv_text base_name diagram) ->
  CompareProcessor.model_items models name "features"
  = group_bullets (Extraction.box_lines "features" feat_text) /\
  CompareProcessor.model_items models name "advantages"
  = group_bullets (Extraction.box_lines "advantages" adv_text).
Proof.
  intros Hm.
  assert (Hk : forall header lines,
             Forall (fun line => Py.strip line = line /\ Py.truthy line = true /\
                                 no_char "010" line /\ Py.lower line <> header) lines ->
             Forall (fun line => Py.strip line = line /\ Py.truthy line = true /\
                                 no_char "010" line) lines).
  { intros header lines H.
    eapply Forall_impl; [exact H | intros ? (? & ? & ? & ?); auto]. }
  pose proof (Hk _ _ (box_lines_kept "features" feat_text)) as Hf.
  pose proof (Hk _ _ (box_lines_kept "advantages" adv_text)) as Ha.
  unfold CompareProcessor.model_items, CompareProcessor.feature_text.
  rewrite Hm. cbn [mbind option_bind].
  rewrite (extract_content_sections text tables feat_text adv_text base_name diagram
             "Features_And_Advantages").
  cbn [String.eqb Ascii.eqb Bool.eqb]. unfold Extraction.parse_features_advantages.
  set (fs := Extraction.box_lines "features" feat_text) in *.
  set (advs := Extraction.box_lines "advantages" adv_text) in *.
  destruct (CompareProcessor.truthy_list fs || CompareProcessor.truthy_list advs) eqn:E.
  - cbn. split.
    + rewrite <- (text_category_items fs Hf). cbv zeta.
      destruct (Py.truthy (Py.join Extraction.newline fs)); reflexivity.
    + rewrite <- (text_category_items advs Ha). cbv zeta.
      destruct (Py.truthy (Py.join Extraction.newline advs)); reflexivity.
  - apply orb_false_elim in E as [E1 E2].
    destruct fs; [| discriminate]. destruct advs; [| discriminate]. split; reflexivity.
Qed.

Lemma items_of_assembled_document_witness :
  CompareProcessor.model_items
    {["520R" := Extraction.extract_content "" []
                  (Some ("Features" +:+ Extraction.newline +:+ "• High" +:+
                         Extraction.newline +:+ " power ")) None "HSR-520R" None]}
    "520R" "features"
  = ["• High power"].
Proof.
  refine (eq_trans
            (proj1 (items_of_assembled_document _ "520R" "" []
                      (Some ("Features" +:+ Extraction.newline +:+ "• High" +:+
                             Extraction.newline +:+ " power ")) None "HSR-520R" None _))
            _).
  - apply lookup_singleton_eq.
  - vm_compute. reflexivity.
Defined.

(** ** Model numbers *)

Lemma span_digits_spec s :
  s = (Extraction.span_digits s).1 +:+ (Extraction.span_digits s).2 /\
  Py.all_chars Py.isdigit_char (Extraction.span_digits s).1 = true.
Proof.
  induction s as [| c r [IH1 IH2]]; cbn [Extraction.span_digits]; [auto |].
  destruct (Py.isdigit_char c) eqn:E; [| auto].
  destruct (Extraction.span_digits r) as [d rest]. cbn [fst snd] in *.
  split; [| cbn; rewrite E; exact IH2].
  change (String c d +:+ rest) with (String c (d +:+ rest)). f_equal. exact IH1.
Qed.

Lemma upper_digits ds :
  Py.all_chars Py.isdigit_char ds = true -> Py.upper ds = ds.
Proof.
  induction ds as [| c r IH]; cbn; [reflexivity |].
  intros [H1 H2]%andb_true_iff. rewrite (IH H2). f_equal.
  revert H1. destruct c as [[] [] [] [] [] [] [] []]; vm_compute; congruence.
Qed.

Lemma append_cons c s t : String c s +:+ t = String c (s +:+ t).
Proof. reflexivity. Qed.

Lemma upper_app s t : Py.upper (s +:+ t) = Py.upper s +:+ Py.upper t.
Proof.
  unfold Py.upper. induction s as [| c r IH]; [reflexivity |].
  rewrite append_cons. cbn [Py.map_chars]. rewrite append_cons, IH. reflexivity.
Qed.

Lemma is_rfw_upper c :
  Extraction.is_rfw c = true -> Py.upper_char c ∈ ["R"; "F"; "W"]%char.
Proof.
  destruct c as [[] [] [] [] [] [] [] []]; vm_compute; try discriminate; intros _;
    repeat first [apply list_elem_of_here | apply list_elem_of_further].
Qed.

Lemma match_number_form s g :
  Extraction.match_number s = Some g -> model_number_form (Py.upper g).
Proof.
  unfold Extraction.match_number.
  destruct (span_digits_spec s) as [_ Hd].
  destruct (Extraction.span_digits s) as [ds rest]. cbn [fst snd] in Hd.
  destruct (Py.truthy ds) eqn:Td; [| discriminate].
  assert (Hi : Py.isdigit ds = true) by (unfold Py.isdigit; rewrite Td, Hd; reflexivity).
  assert (Hplain : model_number_form (Py.upper ds)).
  { exists ds. split; [exact Hi |]. left. apply upper_digits, Hd. }
  destruct rest as [| c rest']; [intros [= <-]; exact Hplain |].
  destruct (Extraction.is_rfw c) eqn:Ec; intros [= <-]; [| exact Hplain].
  exists ds. split; [exact Hi |]. right. exists (Py.upper_char c).
  split; [apply is_rfw_upper, Ec |].
  rewrite upper_app, (upper_digits ds Hd). reflexivity.
Qed.

Lemma search_hsr_form s g :
  Extraction.search_hsr s = Some g -> model_number_form (Py.upper g).
Proof.
  induction s as [| c r IH]; cbn [Extraction.search_hsr].
  - cbn. discriminate.
  - destruct (Extraction.match_hsr (String c r)) as [g' |] eqn:E; [| exact IH].
    intros [= <-]. unfold Extraction.match_hsr in E.
    destruct r as [| c1 [| c2 rest]]; try discriminate.
    destruct (_ && _ && _); [| discriminate].
    destruct rest as [| d rest'].
    + apply match_number_form in E. exact E.
    + destruct (Ascii.eqb_spec d "-") as [-> | Hd].
      * destruct (Extraction.match_number rest') as [g0 |] eqn:E0.
        -- injection E as <-. exact (match_number_form _ _ E0).
        -- exact (match_number_form _ _ E).
      * assert (E' : Extraction.match_number (String d rest') = Some g').
        { revert E. destruct d as [[] [] [] [] [] [] [] []]; try exact id.
          congruence. }
        exact (match_number_form _ _ E').
Qed.

Lemma form_chars r :
  model_number_form r -> Py.all_chars number_char r = true /\ Py.truthy r = true.
Proof.
  intros (ds & Hi & Hr). unfold Py.isdigit in Hi.
  apply andb_true_iff in Hi as [Ht Hd].
  assert (Hds : Py.all_chars number_char ds = true).
  { clear Ht Hr. induction ds as [| c t IH]; [reflexivity |]. cbn in *.
    apply andb_true_iff in Hd as [H1 H2]. unfold number_char at 1.
    rewrite H1, (IH H2). reflexivity. }
  destruct Hr as [-> | (c & Hc & ->)]; [auto |]. split.
  - clear Ht Hd. induction ds as [| d t IH].
    + cbn. cases_in Hc; reflexivity.
    + cbn in Hds. apply andb_true_iff in Hds as [H1 H2].
      rewrite append_cons. cbn [Py.all_chars]. rewrite H1, (IH H2). reflexivity.
  - destruct ds; [discriminate | reflexivity].
Qed.

Lemma number_chars_no_hsr r :
  Py.all_chars number_char r = true -> Extraction.search_hsr r = None.
Proof.
  induction r as [| c t IH]; [reflexivity |].
  cbn [Py.all_chars]. intros [H1 H2]%andb_true_iff.
  cbn [Extraction.search_hsr]. rewrite (IH H2).
  assert (E : Ascii.eqb (Py.lower_char c) "h" = false).
  { revert H1. destruct c as [[] [] [] [] [] [] [] []]; vm_compute; congruence. }
  unfold Extraction.match_hsr. destruct t as [| c1 [| c2 rest]]; try reflexivity.
  rewrite E. reflexivity.
Qed.

Lemma number_chars_one_part r :
  Py.all_chars number_char r = true -> Extraction.split_parts r = [r].
Proof.
  induction r as [| c t IH]; [reflexivity |].
  cbn [Py.all_chars]. intros [H1 H2]%andb_true_iff.
  cbn [Extraction.split_parts]. rewrite (IH H2).
  assert (E : Ascii.eqb c "_" || Py.isspace c = false).
  { revert H1. destruct c as [[] [] [] [] [] [] [] []]; vm_compute; congruence. }
  rewrite E. reflexivity.
Qed.

Lemma span_digits_app ds rest :
  Py.all_chars Py.isdigit_char ds = true ->
  match rest with
  | EmptyString => True
  | String c _ => Py.isdigit_char c = false
  end ->
  Extraction.span_digits (ds +:+ rest) = (ds, rest).
Proof.
  intros Hd Hr. induction ds as [| c t IH].
  - change ("" +:+ rest) with rest. destruct rest as [| c t]; [reflexivity |].
    cbn [Extraction.span_digits]. rewrite Hr. reflexivity.
  - cbn [Py.all_chars] in Hd. apply andb_true_iff in Hd as [H1 H2].
    change (String c t +:+ rest) with (String c (t +:+ rest)).
    cbn [Extraction.span_digits]. rewrite H1, (IH H2). reflexivity.
Qed.

Lemma append_empty_r s : s +:+ "" = s.
Proof. induction s as [| c r IH]; [reflexivity |]. rewrite append_cons, IH. reflexivity. Qed.

Lemma form_is_number_part r :
  model_number_form r -> Extraction.is_number_part r = true /\ Py.upper r = r.
Proof.
  intros (ds & Hi & Hr). unfold Py.isdigit in Hi.
  apply andb_true_iff in Hi as [Ht Hd].
  unfold Extraction.is_number_part, Extraction.match_number.
  destruct Hr as [-> | (c & Hc & ->)].
  - pose proof (span_digits_app ds "" Hd I) as E. rewrite append_empty_r in E.
    rewrite E, Ht, String.eqb_refl.
    split; [reflexivity | apply upper_digits, Hd].
  - assert (Hc' : Py.isdigit_char c = false /\ Extraction.is_rfw c = true /\
                  Py.upper_char c = c) by (cases_in Hc; repeat split; reflexivity).
    destruct Hc' as (H1 & H2 & H3).
    rewrite (span_digits_app ds (String c "") Hd H1), Ht, H2, String.eqb_refl.
    split; [reflexivity |]. rewrite upper_app, (upper_digits ds Hd). cbn. rewrite H3.
    reflexivity.
Qed.

(** X9: an extracted model number consists of digits followed by at most
    one of the letters R, F, W (in upper case), and extracting from it
    again gives it back. *)
Theorem extracted_model_number_is_stable (base_name r : string) :
  Extraction.extract_model_name base_name = Some r ->
  model_number_form r /\ Extraction.extract_model_name r = Some r.
Proof.
  intros H.
  assert (Hf : model_number_form r).
  { unfold Extraction.extract_model_name in H.
    destruct (Extraction.search_hsr base_name) as [g |] eqn:Es.
    - injection H as <-. exact (search_hsr_form _ _ Es).
    - destruct (find Extraction.is_number_part _) as [part |] eqn:Ef.
      + injection H as <-. apply find_some in Ef as [_ Ep].
        unfold Extraction.is_number_part in Ep.
        destruct (Extraction.match_number part) as [g |] eqn:Em; [| discriminate].
        apply String.eqb_eq in Ep as ->. exact (match_number_form _ _ Em).
      + destruct (Py.isdigit base_name) eqn:Ei; [| discriminate].
        injection H as <-. exists base_name. auto. }
  split; [exact Hf |].
  destruct (form_chars r Hf) as [Hc _]. destruct (form_is_number_part r Hf) as [Hp Hu].
  unfold Extraction.extract_model_name.
  rewrite (number_chars_no_hsr r Hc), (number_chars_one_part r Hc).
  cbn [find]. rewrite Hp, Hu. reflexivity.
Qed.

Lemma extracted_model_number_is_stable_witness :
  model_number_form "980F" /\ Extraction.extract_model_name "980F" = Some "980F".
Proof.
  apply (extracted_model_number_is_stable "hsr_980f_datasheet" "980F").
  vm_compute. reflexivity.
Defined.

(** ** Comparator: the values of a triple *)

Lemma collect_values_step models c values name :
  (fun values name =>
     match models !! name with
     | None => Ok values
     | Some model =>
         match CompareProcessor.get_spec_value model c.1.1 c.1.2 c.2 with
         | Some spec =>
             v ← Comparison.SpecificationValue_new (Pdf.unit spec) (Pdf.value spec)
                                                   (Pdf.display_value spec);
             Ok (Dict.set name v values)
         | None => Ok values
         end
     end) values name =
  match expected_value models c name with
  | Some v => if Py.truthy (Comparison.value v) then Ok (Dict.set name v values)
              else Err ValidationError
  | None => Ok values
  end.
Proof.
  unfold expected_value, CompareProcessor.get_spec_value. cbv beta.
  destruct (models !! name) as [doc |]; [| reflexivity]. cbn [mbind option_bind].
  destruct (Pdf.get_specification doc c.1.1 c.1.2 c.2) as [spec |]; [| reflexivity].
  cbn [mbind option_bind Comparison.value]. unfold Comparison.SpecificationValue_new.
  destruct (Py.truthy (Pdf.value spec)); reflexivity.
Qed.

Lemma collect_values_fold models c l d values :
  foldM (fun values name =>
           match models !! name with
           | None => Ok values
           | Some model =>
               match CompareProcessor.get_spec_value model c.1.1 c.1.2 c.2 with
               | Some spec =>
                   v ← Comparison.SpecificationValue_new (Pdf.unit spec) (Pdf.value spec)
                                                         (Pdf.display_value spec);
                   Ok (Dict.set name v values)
               | None => Ok values
               end
           end) l d = Ok values ->
  (Dict.wf d -> Dict.wf values) /\
  forall m, Dict.get m values =
            if bool_decide (m ∈ l) then
              match expected_value models c m with
              | Some v => Some v
              | None => Dict.get m d
              end
            else Dict.get m d.
Proof.
  revert d. induction l as [| name r IH]; intros d.
  - intros [= <-]. split; [exact id |]. intros m.
    rewrite bool_decide_eq_false_2 by apply not_elem_of_nil. reflexivity.
  - rewrite foldM_cons, collect_values_step.
    destruct (expected_value models c name) as [v |] eqn:Ev.
    + destruct (Py.truthy (Comparison.value v)); [| discriminate].
      intros H. destruct (IH _ H) as [Hwf Hget]. split.
      * intros Hd. apply Hwf, wf_set, Hd.
      * intros m. rewrite Hget, get_set.
        destruct (String.eqb_spec m name) as [-> | Hne].
        -- rewrite Ev. rewrite (bool_decide_eq_true_2 (name ∈ name :: r))
             by apply list_elem_of_here.
           destruct (bool_decide (name ∈ r)); reflexivity.
        -- destruct (bool_decide (m ∈ r)) eqn:Er.
           ++ apply bool_decide_eq_true_1 in Er.
              rewrite bool_decide_eq_true_2 by (apply list_elem_of_further, Er).
              reflexivity.
           ++ apply bool_decide_eq_false_1 in Er.
              rewrite bool_decide_eq_false_2; [reflexivity |].
              intros [? | ?]%elem_of_cons; contradiction.
    + intros H. destruct (IH _ H) as [Hwf Hget]. split; [exact Hwf |].
      intros m. rewrite Hget.
      destruct (bool_decide (m ∈ r)) eqn:Er.
      * apply bool_decide_eq_true_1 in Er.
        rewrite bool_decide_eq_true_2 by (apply list_elem_of_further, Er). reflexivity.
      * apply bool_decide_eq_false_1 in Er.
        destruct (decide (m = name)) as [-> | Hne].
        -- rewrite bool_decide_eq_true_2 by apply list_elem_of_here.
           rewrite Ev. reflexivity.
        -- rewrite bool_decide_eq_false_2; [reflexivity |].
           intros [? | ?]%elem_of_cons; contradiction.
Qed.

Lemma collect_values_get models nums c values :
  CompareProcessor.collect_values models nums c = Ok values ->
  Dict.wf values /\
  forall m, Dict.get m values =
            if bool_decide (m ∈ nums) then expected_value models c m else None.
Proof.
  destruct c as [[s cat] sp]. unfold CompareProcessor.collect_values. intros H.
  destruct (collect_values_fold models (s, cat, sp) nums Dict.empty values H)
    as [Hwf Hget].
  split; [apply Hwf, NoDup_nil_2 |]. intros m. rewrite Hget.
  destruct (bool_decide (m ∈ nums)); [| reflexivity].
  destruct (expected_value models (s, cat, sp) m); reflexivity.
Qed.

(** X10: the values collected for a triple hold, for each requested model
    number, exactly the specification that the model's document has at the
    triple (nothing for a model that is not available or lacks the triple),
    and nothing for any other name. *)
Theorem collected_values_are_the_documents_values
    (models : gmap string Pdf.PDFContent) (nums : list string)
    (c : CompareProcessor.combination)
    (values : Dict.dict Comparison.SpecificationValue) (m : string) :
  CompareProcessor.collect_values models nums c = Ok values ->
  Dict.get m values =
  if bool_decide (m ∈ nums) then
    doc ← models !! m;
    spec ← Pdf.get_specification doc c.1.1 c.1.2 c.2;
    Some (Comparison.mkValue (Pdf.unit spec) (Pdf.value spec) (Pdf.display_value spec))
  else None.
Proof. intros H. apply (collect_values_get models nums c values H). Qed.

Lemma collected_values_are_the_documents_values_witness :
  Dict.get "B" [("A", Examples.voltage_value "24"); ("B", Examples.voltage_value "30")]
  = (doc ← Examples.two_models "24" "30" !! "B";
     spec ← Pdf.get_specification doc "electrical specifications" "Voltage" "";
     Some (Comparison.mkValue (Pdf.unit spec) (Pdf.value spec) (Pdf.display_value spec))).
Proof.
  refine (collected_values_are_the_documents_values
            (Examples.two_models "24" "30") ["A"; "B"]
            ("electrical specifications", "Voltage", "")
            [("A", Examples.voltage_value "24"); ("B", Examples.voltage_value "30")]
            "B" _).
  vm_compute. reflexivity.
Defined.

Lemma get_map_values (values : Dict.dict Comparison.SpecificationValue) m :
  Dict.get m (map (fun kv => (kv.1, Comparison.value kv.2)) (Dict.items values))
  = Comparison.value <$> Dict.get m values.
Proof.
  unfold Dict.items. induction values as [| [k v] r IH]; [reflexivity |].
  cbn [map Dict.get fst snd]. destruct (String.eqb m k); [reflexivity | exact IH].
Qed.

Lemma make_difference_fields c values :
  let d := CompareProcessor.make_difference c values in
  Differences.category d = c.1.1 /\
  Differences.subcategory d = Some c.1.2 /\
  Differences.specification d = c.2 /\
  Differences.values d
  = map (fun kv => (kv.1, Comparison.value kv.2)) (Dict.items values).
Proof.
  destruct c as [[s cat] sp]. unfold CompareProcessor.make_difference.
  destruct (if forallb _ _ then _ else _) as [em desc]. cbn. auto.
Qed.

(** X11: the [values] map of an emitted difference holds the raw value of
    every requested model whose document has the triple of the difference,
    not only of the models named in the description. *)
Theorem difference_lists_every_model
    (models : gmap string Pdf.PDFContent) (nums : list string)
    (secs : CompareProcessor.SpecSections) (diffs : list Differences.Difference)
    (d : Differences.Difference) (name : string) (doc : Pdf.PDFContent)
    (spec : Pdf.PDFSpecification) :
  CompareProcessor.process_specifications models nums = Ok (secs, diffs) ->
  d ∈ diffs -> name ∈ nums -> models !! name = Some doc ->
  Pdf.get_specification doc (Differences.category d)
    (default "" (Differences.subcategory d)) (Differences.specification d) = Some spec ->
  Dict.get name (Differences.values d) = Some (Pdf.value spec).
Proof.
  intros Hp Hd Hn Hm Hg.
  apply process_specifications_emitted in Hp. rewrite Forall_forall in Hp.
  destruct (Hp d Hd) as (c & values & Hc & _ & _ & ->).
  destruct (make_difference_fields c values) as (E1 & E2 & E3 & E4).
  rewrite E1, E2, E3 in Hg. rewrite E4, get_map_values.
  destruct (collect_values_get _ _ _ _ Hc) as [_ Hget]. rewrite Hget.
  rewrite bool_decide_eq_true_2 by exact Hn.
  unfold expected_value. rewrite Hm. cbn in Hg |- *. rewrite Hg. reflexivity.
Qed.

Lemma difference_lists_every_model_witness :
  Dict.get "A" [("A", "24"); ("B", "30")] = Some "24".
Proof.
  refine (difference_lists_every_model
            (Examples.two_models "24" "30") ["A"; "B"]
            [("electrical specifications",
              [Comparison.mkCompSpec "Voltage" ""
                 [("A", Examples.voltage_value "24"); ("B", Examples.voltage_value "30")]
                 true])]
            [Differences.mkDifference "B" "electrical specifications" (Some "Voltage") ""
               "Value of 30.0 vs 24.0" (Some "V") [("A", "24"); ("B", "30")]]
            (Differences.mkDifference "B" "electrical specifications" (Some "Voltage") ""
               "Value of 30.0 vs 24.0" (Some "V") [("A", "24"); ("B", "30")])
            "A" (Examples.voltage_doc "24") (Pdf.mkSpec (Some "V") "24") _ _ _ _ _).
  - vm_compute. reflexivity.
  - apply list_elem_of_here.
  - apply list_elem_of_here.
  - vm_compute. reflexivity.
  - reflexivity.
Defined.

Lemma not_all_numbers values :
  (exists m v, (m, v) ∈ values /\
               CompareProcessor.numeric_test (Comparison.value v) = false) ->
  forallb CompareProcessor.is_number
    (map (fun v => CompareProcessor.coerce (Comparison.value v)) (Dict.values values))
  = false.
Proof.
  intros (m & v & Hin & Hn). apply not_true_is_false. intros H.
  rewrite forallb_forall in H.
  assert (Hv : In (CompareProcessor.coerce (Comparison.value v))
                  (map (fun v => CompareProcessor.coerce (Comparison.value v))
                       (Dict.values values))).
  { apply in_map_iff. exists v. split; [reflexivity |].
    apply in_map_iff. exists (m, v). split; [reflexivity | apply list_elem_of_In, Hin]. }
  apply H in Hv. unfold CompareProcessor.coerce in Hv. rewrite Hn in Hv.
  discriminate Hv.
Qed.

Lemma filter_other_keys {V : Type} (k : string) (r : list (string * V)) :
  Dict.get k r = None ->
  filter (fun kv : string * V => negb (String.eqb kv.1 k)) r = r.
Proof.
  induction r as [| [k' v'] r IH]; [reflexivity |]. cbn [Dict.get].
  destruct (String.eqb_spec k k') as [-> | Hne]; [discriminate |].
  intros H. rewrite filter_cons_True.
  - rewrite (IH H). reflexivity.
  - cbn. apply String.eqb_neq in Hne. rewrite String.eqb_sym, Hne. exact I.
Qed.

(** X12: when some collected value does not pass the numeric test, the
    difference names the first model of the values map, whatever the
    values are, and its description sets that model's raw value against
    the raw values of all the other models, joined by ", ". *)
Theorem text_difference_names_first_model
    (c : CompareProcessor.combination) (m0 : string)
    (v0 : Comparison.SpecificationValue)
    (rest : Dict.dict Comparison.SpecificationValue) :
  Dict.wf ((m0, v0) :: rest) ->
  (exists m v, (m, v) ∈ (m0, v0) :: rest /\
               CompareProcessor.numeric_test (Comparison.value v) = false) ->
  let d := CompareProcessor.make_difference c ((m0, v0) :: rest) in
  Differences.model d = m0 /\
  Differences.difference d
  = "Value of " +:+ Comparison.value v0 +:+ " vs "
    +:+ Py.join ", " (map (fun kv => Comparison.value kv.2) rest).
Proof.
  intros Hwf Hn d. subst d. destruct c as [[s cat] sp].
  unfold CompareProcessor.make_difference. rewrite (not_all_numbers _ Hn).
  apply wf_cons in Hwf as [Hk _].
  cbn [Dict.keys Dict.items map hd fst Differences.model Differences.difference
       Dict.get].
  rewrite String.eqb_refl. split; [reflexivity |].
  unfold Dict.items, Dict.dict in *.
  rewrite filter_cons_False by (cbn; rewrite String.eqb_refl; exact id).
  rewrite (filter_other_keys m0 rest Hk). reflexivity.
Qed.

Lemma text_difference_names_first_model_witness :
  Differences.model
    (CompareProcessor.make_difference
       ("physical/operational specifications", "Capsule", "")
       [("A", Comparison.mkValue None "glass" "glass");
        ("B", Comparison.mkValue None "steel" "steel");
        ("C", Comparison.mkValue None "glass" "glass")]) = "A".
Proof.
  refine (proj1 (text_difference_names_first_model
                   ("physical/operational specifications", "Capsule", "")
                   "A" (Comparison.mkValue None "glass" "glass")
                   [("B", Comparison.mkValue None "steel" "steel");
                    ("C", Comparison.mkValue None "glass" "glass")] _ _)).
  - unfold Dict.wf. cbn. repeat constructor; intros H; cases_in H; discriminate.
  - exists "A", (Comparison.mkValue None "glass" "glass").
    split; [apply list_elem_of_here | reflexivity].
Defined.

(** ** Comparator: sections, triples and the count of differences *)

Lemma fold_left_reaches {A S : Type} (I P : S -> Prop) (f : S -> A -> S) l s x :
  I s -> (forall s y, y ∈ l -> I s -> I (f s y)) ->
  x ∈ l -> (forall s, I s -> P (f s x)) ->
  (forall s y, I s -> P s -> P (f s y)) ->
  P (fold_left f l s).
Proof.
  intros Hi HI Hx Hest Hkeep. revert s Hi HI.
  induction l as [| a r IH]; intros s Hi HI; [inversion Hx |].
  cbn [fold_left]. apply elem_of_cons in Hx as [<- | Hx].
  - assert (H : I (f s x) /\ P (f s x)).
    { split; [apply HI; [apply list_elem_of_here | exact Hi] | apply Hest, Hi]. }
    apply proj2 with (A := I (fold_left f r (f s x))).
    apply (fold_left_inv (fun t => I t /\ P t)); [| exact H].
    intros t y Hy [H1 H2].
    split; [apply HI; [apply list_elem_of_further, Hy | exact H1] |].
    apply Hkeep; assumption.
  - apply (IH Hx).
    + apply HI; [apply list_elem_of_here | exact Hi].
    + intros t y Hy. apply HI. apply list_elem_of_further, Hy.
Qed.

Lemma foldM_reaches {A S : Type} (I P : S -> Prop) (f : S -> A -> result S) l s s' x :
  foldM f l s = Ok s' -> I s ->
  (forall s y s1, y ∈ l -> I s -> f s y = Ok s1 -> I s1) ->
  x ∈ l -> (forall s s1, I s -> f s x = Ok s1 -> P s1) ->
  (forall s y s1, P s -> f s y = Ok s1 -> P s1) ->
  P s'.
Proof.
  intros Hf Hi HI Hx Hest Hkeep. revert s Hf Hi HI.
  induction l as [| a r IH]; intros s Hf Hi HI; [inversion Hx |].
  rewrite foldM_cons in Hf. destruct (f s a) as [s1 |] eqn:E; [| discriminate].
  apply elem_of_cons in Hx as [<- | Hx].
  - apply (foldM_inv P f r s1 s'); [| exact (Hest s s1 Hi E) | exact Hf].
    intros t y t' _ Ht Hy. exact (Hkeep t y t' Ht Hy).
  - apply (IH Hx s1 Hf).
    + apply (HI s a s1); [apply list_elem_of_here | exact Hi | exact E].
    + intros t y t' Hy. apply HI. apply list_elem_of_further, Hy.
Qed.

Lemma mem_setdefault_iff {V : Type} k k' (v : V) d :
  Dict.mem k (Dict.setdefault k' v d) = Dict.mem k d || String.eqb k k'.
Proof.
  unfold Dict.mem. rewrite get_setdefault.
  destruct (Dict.get k d); [reflexivity |]. destruct (String.eqb k k'); reflexivity.
Qed.

Lemma mem_modify_iff {V : Type} k k' (f : V -> V) d :
  Dict.mem k (Dict.modify k' f d) = Dict.mem k d.
Proof.
  unfold Dict.mem. rewrite get_modify.
  destruct (String.eqb_spec k k') as [-> | _]; [| reflexivity].
  destruct (Dict.get k' d); reflexivity.
Qed.

Lemma note_combination_inv models nums st c :
  Dict.mem c.1.1 (CompareProcessor.c_sections st) = true ->
  collect_inv models nums st ->
  collect_inv models nums (CompareProcessor.note_combination st c) /\
  c ∈ CompareProcessor.spec_combinations (CompareProcessor.note_combination st c).
Proof.
  intros Hm (H1 & H2 & H3 & H4). unfold CompareProcessor.note_combination.
  destruct (bool_decide _) eqn:E.
  - apply bool_decide_eq_true_1 in E.
    split; [exact (conj H1 (conj H2 (conj H3 H4))) | apply H4, E].
  - cbn. split; [| apply elem_of_app; right; apply list_elem_of_here].
    split; [| split; [exact H2 | split; [exact H3 |]]]; cbn.
    + intros c' [H | ->%list_elem_of_singleton]%elem_of_app; [apply H1, H | exact Hm].
    + intros c' [->%elem_of_singleton | H]%elem_of_union; apply elem_of_app;
        [right; apply list_elem_of_here | left; apply H4, H].
Qed.

Lemma note_combination_keeps st c c' :
  c' ∈ CompareProcessor.spec_combinations st ->
  c' ∈ CompareProcessor.spec_combinations (CompareProcessor.note_combination st c).
Proof.
  intros H. unfold CompareProcessor.note_combination.
  destruct (bool_decide _); [exact H |]. cbn. apply elem_of_app. left. exact H.
Qed.

Lemma note_section_sections s section st :
  CompareProcessor.c_sections (note_section s section st) = CompareProcessor.c_sections st.
Proof.
  unfold note_section.
  apply (fold_left_inv
           (fun st' => CompareProcessor.c_sections st' = CompareProcessor.c_sections st));
    [| reflexivity].
  intros st1 [cat category] _ H1.
  apply (fold_left_inv
           (fun st' => CompareProcessor.c_sections st' = CompareProcessor.c_sections st));
    [| exact H1].
  intros st2 k _ H2. rewrite note_combination_sections. exact H2.
Qed.

Lemma note_section_inv models nums s section st :
  Dict.mem s (CompareProcessor.c_sections st) = true ->
  collect_inv models nums st -> collect_inv models nums (note_section s section st).
Proof.
  intros Hm H. unfold note_section.
  apply (fold_left_inv
           (fun st' => collect_inv models nums st' /\
                       Dict.mem s (CompareProcessor.c_sections st') = true)); [| auto].
  intros st1 [cat category] _ H1.
  apply (fold_left_inv
           (fun st' => collect_inv models nums st' /\
                       Dict.mem s (CompareProcessor.c_sections st') = true)); [| exact H1].
  intros st2 k _ [H2 Hm2]. split.
  - apply note_combination_inv; assumption.
  - rewrite note_combination_sections. exact Hm2.
Qed.

Lemma collect_section_eq st s section :
  CompareProcessor.collect_section st (s, section) =
  if bool_decide (s ∈ CompareProcessor.skipped_sections) then st
  else note_section s section
         (CompareProcessor.mkCollect
            (Dict.setdefault s [] (CompareProcessor.c_sections st))
            (CompareProcessor.spec_combinations st)
            (CompareProcessor.seen_combinations st)).
Proof. reflexivity. Qed.

Lemma elem_of_mem {V : Type} k (v : V) (d : Dict.dict V) :
  (k, v) ∈ d -> Dict.mem k d = true.
Proof.
  intros H. unfold Dict.mem. destruct (Dict.get k d) eqn:E; [reflexivity |].
  apply get_None_keys in E. destruct E. unfold Dict.keys.
  apply (list_elem_of_fmap_2 fst) in H. exact H.
Qed.

Lemma mem_get {V : Type} k (d : Dict.dict V) :
  Dict.mem k d = true -> exists v, Dict.get k d = Some v.
Proof. unfold Dict.mem. destruct (Dict.get k d) as [v |]; [eauto | discriminate]. Qed.

Lemma collect_section_inv_full models nums name doc st s section :
  name ∈ nums -> models !! name = Some doc -> (s, section) ∈ Pdf.sections doc ->
  collect_inv models nums st ->
  collect_inv models nums (CompareProcessor.collect_section st (s, section)).
Proof.
  intros Hn Hd Hs (H1 & H2 & H3 & H4). rewrite collect_section_eq.
  destruct (bool_decide _) eqn:E; [exact (conj H1 (conj H2 (conj H3 H4))) |].
  apply bool_decide_eq_false_1 in E.
  apply note_section_inv; cbn.
  - rewrite mem_setdefault_iff, String.eqb_refl. apply orb_true_r.
  - split; [| split; [| split; [| exact H4]]]; cbn.
    + intros c Hc. rewrite mem_setdefault_iff, (H1 c Hc). reflexivity.
    + apply Forall_setdefault; [exact H2 | reflexivity].
    + intros s'. rewrite mem_setdefault_iff.
      intros [H | H]%orb_true_iff; [apply H3, H |].
      apply String.eqb_eq in H as ->. split; [exact E |].
      destruct (mem_get _ _ (elem_of_mem _ _ _ Hs)) as [sec Hsec].
      exists name, doc, sec. auto.
Qed.

Lemma collect_inv_init models nums :
  collect_inv models nums (CompareProcessor.mkCollect Dict.empty [] ∅).
Proof.
  split; [| split; [| split]]; cbn.
  - intros c H. inversion H.
  - constructor.
  - intros s H. discriminate H.
  - intros c H. apply elem_of_empty in H. destruct H.
Qed.

Lemma collect_model_inv models nums name st :
  name ∈ nums -> collect_inv models nums st ->
  collect_inv models nums
    match models !! name with
    | None => st
    | Some model =>
        fold_left CompareProcessor.collect_section (Dict.items (Pdf.sections model)) st
    end.
Proof.
  intros Hn H. destruct (models !! name) as [doc |] eqn:Hd; [| exact H].
  unfold Dict.items. apply (fold_left_inv (collect_inv models nums)); [| exact H].
  intros st1 [s section] Hs H1.
  apply (collect_section_inv_full models nums name doc); assumption.
Qed.

Lemma collect_combinations_inv_full models nums :
  collect_inv models nums (CompareProcessor.collect_combinations models nums).
Proof.
  unfold CompareProcessor.collect_combinations.
  apply (fold_left_inv (collect_inv models nums)); [| apply collect_inv_init].
  intros st name Hn H. apply collect_model_inv; assumption.
Qed.

Lemma modify_cons {V : Type} k (f : V -> V) k0 v0 (r : Dict.dict V) :
  Dict.modify k f ((k0, v0) :: r) =
  if String.eqb k k0 then (k, f v0) :: r else (k0, v0) :: Dict.modify k f r.
Proof.
  unfold Dict.modify. cbn [Dict.get].
  destruct (String.eqb k k0) eqn:E; [cbn; rewrite E; reflexivity |].
  destruct (Dict.get k r); [cbn; rewrite E |]; reflexivity.
Qed.

Lemma differing_specs_append secs k cs :
  Dict.mem k secs = true ->
  length (differing_specs (Dict.modify k (fun l => l ++ [cs]) secs)) =
  (length (differing_specs secs)
   + if Comparison.has_differences cs then 1 else 0)%nat.
Proof.
  unfold differing_specs. induction secs as [| [k0 l0] r IH]; [discriminate |].
  rewrite modify_cons. unfold Dict.mem. cbn [Dict.get].
  destruct (String.eqb k k0) eqn:E.
  - intros _. cbn [map concat snd].
    rewrite !filter_app, !length_app. cbn [filter list_filter].
    destruct (Comparison.has_differences cs) eqn:Ed;
      destruct (decide _) as [Hd | Hd]; cbn [length]; first [lia | congruence].
  - intros H. cbn [map concat snd]. rewrite !filter_app, !length_app.
    unfold Dict.mem in IH. rewrite (IH H). lia.
Qed.

Lemma differing_specs_empty secs :
  Forall (fun kv => kv.2 = []) secs -> differing_specs secs = [].
Proof.
  unfold differing_specs. induction 1 as [| [k l] r Hl _ IH]; [reflexivity |].
  cbn in Hl. subst l. exact IH.
Qed.

(** X13: the number of differences returned (the response's
    [differences_count]) is the number of emitted specifications whose
    [has_differences] flag is true. *)
Theorem differences_are_counted
    (models : gmap string Pdf.PDFContent) (nums : list string)
    (secs : CompareProcessor.SpecSections) (diffs : list Differences.Difference) :
  CompareProcessor.process_specifications models nums = Ok (secs, diffs) ->
  length diffs
  = length (filter (fun cs => Comparison.has_differences cs = true)
                   (concat (map snd secs))).
Proof.
  unfold CompareProcessor.process_specifications.
  destruct (collect_combinations_inv_full models nums) as (H1 & H2 & _ & _).
  set (st0 := CompareProcessor.collect_combinations models nums) in *.
  intros H.
  apply (foldM_inv
           (fun st => length st.2 = length (differing_specs st.1) /\
                      forall k, Dict.mem k st.1
                                = Dict.mem k (CompareProcessor.c_sections st0))) in H.
  - exact (proj1 H).
  - intros [secs1 diffs1] c [secs2 diffs2] Hc [Hlen Hmem].
    unfold CompareProcessor.process_combination. cbn [fst snd] in *.
    destruct (CompareProcessor.collect_values models nums c) as [values |];
      [| discriminate].
    cbn [mbind result_bind]. cbv zeta.
    destruct (Dict.truthy values); [| intros [= <- <-]; auto].
    assert (Hk : Dict.mem c.1.1 secs1 = true) by (rewrite Hmem; apply H1, Hc).
    destruct (bool_decide _) eqn:Eb; intros [= <- <-];
      (split; [| intros k; rewrite mem_modify_iff; apply Hmem]);
      rewrite (differing_specs_append _ _ _ Hk); cbn [Comparison.has_differences];
      rewrite ?length_app; cbn; lia.
  - cbn [fst snd]. split; [| reflexivity].
    rewrite (differing_specs_empty _ H2). reflexivity.
Qed.

Lemma differences_are_counted_witness :
  length [Differences.mkDifference "B" "electrical specifications" (Some "Voltage") ""
            "Value of 30.0 vs 24.0" (Some "V") [("A", "24"); ("B", "30")]]
  = length
      (filter (fun cs => Comparison.has_differences cs = true)
         (concat
            (map snd
               [("electrical specifications",
                 [Comparison.mkCompSpec "Voltage" ""
                    [("A", Examples.voltage_value "24");
                     ("B", Examples.voltage_value "30")] true])]))).
Proof.
  apply (differences_are_counted (Examples.two_models "24" "30") ["A"; "B"]).
  vm_compute. reflexivity.
Defined.

Lemma process_specifications_keys models nums secs diffs :
  CompareProcessor.process_specifications models nums = Ok (secs, diffs) ->
  forall k, Dict.mem k secs
            = Dict.mem k (CompareProcessor.c_sections
                            (CompareProcessor.collect_combinations models nums)).
Proof.
  unfold CompareProcessor.process_specifications. intros H.
  change ((fun st : CompareProcessor.SpecSections * list Differences.Difference =>
             forall k,
               Dict.mem k st.1
               = Dict.mem k (CompareProcessor.c_sections
                               (CompareProcessor.collect_combinations models nums)))
            (secs, diffs)).
  revert H. apply foldM_inv; [| reflexivity].
  intros [secs1 diffs1] c [secs2 diffs2] _ Hmem.
  unfold CompareProcessor.process_combination. cbn [fst snd] in *.
  destruct (CompareProcessor.collect_values models nums c) as [values |];
    [| discriminate].
  cbn [mbind result_bind]. cbv zeta.
  destruct (Dict.truthy values); [| intros [= <- <-]; exact Hmem].
  destruct (bool_decide _); intros [= <- <-] k; rewrite mem_modify_iff; apply Hmem.
Qed.

Lemma collect_section_sections st s section :
  CompareProcessor.c_sections (CompareProcessor.collect_section st (s, section)) =
  if bool_decide (s ∈ CompareProcessor.skipped_sections)
  then CompareProcessor.c_sections st
  else Dict.setdefault s [] (CompareProcessor.c_sections st).
Proof.
  rewrite collect_section_eq. destruct (bool_decide _); [reflexivity |].
  rewrite note_section_sections. reflexivity.
Qed.

Lemma collect_section_mem st item k :
  Dict.mem k (CompareProcessor.c_sections st) = true ->
  Dict.mem k (CompareProcessor.c_sections (CompareProcessor.collect_section st item))
  = true.
Proof.
  intros H. destruct item as [s section]. rewrite collect_section_sections.
  destruct (bool_decide _); [exact H |]. rewrite mem_setdefault_iff, H. reflexivity.
Qed.

Lemma collect_sections_mem st items k :
  Dict.mem k (CompareProcessor.c_sections st) = true ->
  Dict.mem k (CompareProcessor.c_sections
                (fold_left CompareProcessor.collect_section items st)) = true.
Proof.
  intros H.
  apply (fold_left_inv (fun st => Dict.mem k (CompareProcessor.c_sections st) = true));
    [| exact H].
  intros st1 item _. apply collect_section_mem.
Qed.

(** X14: the sections of the specification output are exactly the
    sections, other than "Features_And_Advantages" and "Diagram", of the
    documents of the requested models that are available. *)
Theorem output_sections_are_the_compared_sections
    (models : gmap string Pdf.PDFContent) (nums : list string)
    (secs : CompareProcessor.SpecSections) (diffs : list Differences.Difference)
    (s : string) :
  CompareProcessor.process_specifications models nums = Ok (secs, diffs) ->
  Dict.mem s secs = true <->
  ((s ∉ CompareProcessor.skipped_sections) /\
   exists name doc sec,
     name ∈ nums /\ models !! name = Some doc /\
     Dict.get s (Pdf.sections doc) = Some sec).
Proof.
  intros H. rewrite (process_specifications_keys _ _ _ _ H). split.
  - apply (collect_combinations_inv_full models nums).
  - intros (Hs & name & doc & sec & Hn & Hd & Hg).
    unfold CompareProcessor.collect_combinations.
    apply (fold_left_reaches
             (fun _ => True)
             (fun st => Dict.mem s (CompareProcessor.c_sections st) = true)
             _ nums _ name); [exact I | auto | exact Hn | |].
    + intros st _. rewrite Hd. unfold Dict.items.
      apply (fold_left_reaches
               (fun _ => True)
               (fun st => Dict.mem s (CompareProcessor.c_sections st) = true)
               _ _ _ (s, sec));
        [exact I | auto | apply get_elem_of, Hg | |].
      * intros st1 _. rewrite collect_section_sections.
        rewrite bool_decide_eq_false_2 by exact Hs.
        rewrite mem_setdefault_iff, String.eqb_refl. apply orb_true_r.
      * intros st1 item _. apply collect_section_mem.
    + intros st m _ Hst. destruct (models !! m); [| exact Hst].
      apply collect_sections_mem, Hst.
Qed.

Lemma output_sections_are_the_compared_sections_witness :
  Dict.mem "electrical specifications"
    [("electrical specifications",
      [Comparison.mkCompSpec "Voltage" ""
         [("A", Examples.voltage_value "24"); ("B", Examples.voltage_value "30")] true])]
  = true <->
  (("electrical specifications" ∉ CompareProcessor.skipped_sections) /\
   exists name doc sec,
     name ∈ ["A"; "B"] /\ Examples.two_models "24" "30" !! name = Some doc /\
     Dict.get "electrical specifications" (Pdf.sections doc) = Some sec).
Proof.
  apply (output_sections_are_the_compared_sections
           (Examples.two_models "24" "30") ["A"; "B"] _
           [Differences.mkDifference "B" "electrical specifications" (Some "Voltage") ""
              "Value of 30.0 vs 24.0" (Some "V") [("A", "24"); ("B", "30")]]).
  vm_compute. reflexivity.
Defined.

Lemma note_section_keeps s section st c :
  c ∈ CompareProcessor.spec_combinations st ->
  c ∈ CompareProcessor.spec_combinations (note_section s section st).
Proof.
  intros H. unfold note_section.
  apply (fold_left_inv (fun st => c ∈ CompareProcessor.spec_combinations st));
    [| exact H].
  intros st1 [cat category] _ H1.
  apply (fold_left_inv (fun st => c ∈ CompareProcessor.spec_combinations st));
    [| exact H1].
  intros st2 k _. apply note_combination_keeps.
Qed.

Lemma collect_section_keeps st item c :
  c ∈ CompareProcessor.spec_combinations st ->
  c ∈ CompareProcessor.spec_combinations (CompareProcessor.collect_section st item).
Proof.
  intros H. destruct item as [s section]. rewrite collect_section_eq.
  destruct (bool_decide _); [exact H |]. apply note_section_keeps. exact H.
Qed.

Lemma note_section_reaches models nums s section st cat category k :
  Dict.mem s (CompareProcessor.c_sections st) = true ->
  collect_inv models nums st ->
  (cat, category) ∈ Pdf.categories section ->
  k ∈ Dict.keys (Pdf.subcategories category) ->
  (s, cat, k) ∈ CompareProcessor.spec_combinations (note_section s section st).
Proof.
  intros Hm Hi Hc Hk. unfold note_section, Dict.items.
  set (I := fun st' => collect_inv models nums st' /\
                       Dict.mem s (CompareProcessor.c_sections st') = true).
  assert (Hstep : forall st' k', I st' ->
            I (CompareProcessor.note_combination st' (s, cat, k')) /\
            (s, cat, k') ∈ CompareProcessor.spec_combinations
                             (CompareProcessor.note_combination st' (s, cat, k'))).
  { intros st' k' [H1 H2].
    destruct (note_combination_inv models nums st' (s, cat, k') H2 H1) as [H3 H4].
    split; [split; [exact H3 |] | exact H4].
    rewrite note_combination_sections. exact H2. }
  assert (Hany : forall st' c, I st' -> Dict.mem c.1.1 (CompareProcessor.c_sections st') = true ->
            I (CompareProcessor.note_combination st' c)).
  { intros st' c [H1 H2] Hc'.
    split; [apply note_combination_inv; assumption |].
    rewrite note_combination_sections. exact H2. }
  apply (fold_left_reaches I
           (fun st => (s, cat, k) ∈ CompareProcessor.spec_combinations st)
           _ _ _ (cat, category)); [split; assumption | | exact Hc | |].
  - intros st1 [cat1 category1] _ H1.
    apply (fold_left_inv I); [| exact H1].
    intros st2 k2 _ H2. apply Hany; [exact H2 | apply H2].
  - intros st1 H1.
    apply (fold_left_reaches I
             (fun st => (s, cat, k) ∈ CompareProcessor.spec_combinations st)
             _ _ _ k); [exact H1 | | exact Hk | |].
    + intros st2 k2 _ H2. apply Hany; [exact H2 | apply H2].
    + intros st2 H2. apply Hstep, H2.
    + intros st2 k2 _. apply note_combination_keeps.
  - intros st1 [cat1 category1] _ H1.
    apply (fold_left_inv (fun st => (s, cat, k) ∈ CompareProcessor.spec_combinations st));
      [| exact H1].
    intros st2 k2 _. apply note_combination_keeps.
Qed.

Lemma combination_is_collected models nums name doc s cat k spec :
  name ∈ nums -> models !! name = Some doc ->
  s ∉ CompareProcessor.skipped_sections ->
  Pdf.get_specification doc s cat k = Some spec ->
  (s, cat, k) ∈ CompareProcessor.spec_combinations
                  (CompareProcessor.collect_combinations models nums).
Proof.
  intros Hn Hd Hs Hg. unfold Pdf.get_specification in Hg.
  destruct (Dict.get s (Pdf.sections doc)) as [sec |] eqn:E1; [| discriminate].
  destruct (Dict.get cat (Pdf.categories sec)) as [category |] eqn:E2; [| discriminate].
  unfold CompareProcessor.collect_combinations.
  apply (fold_left_reaches (collect_inv models nums)
           (fun st => (s, cat, k) ∈ CompareProcessor.spec_combinations st)
           _ nums _ name); [apply collect_inv_init | | exact Hn | |].
  - intros st m Hm Hst. apply collect_model_inv; assumption.
  - intros st Hst. rewrite Hd. unfold Dict.items.
    apply (fold_left_reaches (collect_inv models nums)
             (fun st => (s, cat, k) ∈ CompareProcessor.spec_combinations st)
             _ _ _ (s, sec)); [exact Hst | | apply get_elem_of, E1 | |].
    + intros st1 [s1 sec1] H1 Hst1.
      apply (collect_section_inv_full models nums name doc); assumption.
    + intros st1 Hst1. rewrite collect_section_eq.
      rewrite bool_decide_eq_false_2 by exact Hs.
      destruct Hst1 as (H1 & H2 & H3 & H4).
      apply (note_section_reaches models nums s sec _ cat category k).
      * cbn. rewrite mem_setdefault_iff, String.eqb_refl. apply orb_true_r.
      * split; [| split; [| split; [| exact H4]]]; cbn.
        -- intros c Hc. rewrite mem_setdefault_iff, (H1 c Hc). reflexivity.
        -- apply Forall_setdefault; [exact H2 | reflexivity].
        -- intros s'. rewrite mem_setdefault_iff.
           intros [H | H]%orb_true_iff; [apply H3, H |].
           apply String.eqb_eq in H as ->. split; [exact Hs |].
           exists name, doc, sec. auto.
      * apply get_elem_of, E2.
      * unfold Dict.keys. apply get_elem_of in Hg.
        apply (list_elem_of_fmap_2 fst) in Hg. exact Hg.
    + intros st1 item _. apply collect_section_keeps.
  - intros st m _ Hst. destruct (models !! m); [| exact Hst].
    unfold Dict.items.
    apply (fold_left_inv (fun st => (s, cat, k) ∈ CompareProcessor.spec_combinations st));
      [| exact Hst].
    intros st1 item _. apply collect_section_keeps.
Qed.

Lemma reported_kept models nums secs1 diffs1 c' secs2 diffs2 c name v :
  CompareProcessor.process_combination models nums (secs1, diffs1) c'
  = Ok (secs2, diffs2) ->
  reported secs1 c name v -> reported secs2 c name v.
Proof.
  unfold CompareProcessor.process_combination.
  destruct (CompareProcessor.collect_values models nums c') as [values |];
    [| discriminate].
  cbn [mbind result_bind]. cbv zeta.
  intros H (l & cs & Hl & Hcs & Hrest).
  assert (Hmod : forall x,
             reported (Dict.modify c'.1.1 (fun l => l ++ [x]) secs1) c name v).
  { intros x. destruct (String.eqb_spec c.1.1 c'.1.1) as [Heq | Hne].
    - exists (l ++ [x]), cs. split; [| split; [apply elem_of_app; auto | exact Hrest]].
      rewrite get_modify, <- Heq, String.eqb_refl, Hl. reflexivity.
    - exists l, cs. split; [| split; [exact Hcs | exact Hrest]].
      rewrite get_modify. apply String.eqb_neq in Hne. rewrite Hne. exact Hl. }
  destruct (Dict.truthy values); [| injection H as <- <-; exists l, cs; auto].
  destruct (bool_decide _); injection H as <- <-; apply Hmod.
Qed.

(** X15: every specification of an available requested model that lies
    outside "Features_And_Advantages" and "Diagram" is reported: the output
    holds, under its section, an entry with its category and its name whose
    values give that model the specification's unit, value and display
    value. *)
Theorem every_specification_is_reported
    (models : gmap string Pdf.PDFContent) (nums : list string)
    (secs : CompareProcessor.SpecSections) (diffs : list Differences.Difference)
    (name : string) (doc : Pdf.PDFContent) (s cat k : string)
    (spec : Pdf.PDFSpecification) :
  CompareProcessor.process_specifications models nums = Ok (secs, diffs) ->
  name ∈ nums -> models !! name = Some doc ->
  s ∉ CompareProcessor.skipped_sections ->
  Pdf.get_specification doc s cat k = Some spec ->
  exists l cs,
    Dict.get s secs = Some l /\ cs ∈ l /\
    Comparison.category cs = cat /\ Comparison.specification cs = k /\
    Dict.get name (Comparison.values cs)
    = Some (Comparison.mkValue (Pdf.unit spec) (Pdf.value spec) (Pdf.display_value spec)).
Proof.
  intros H Hn Hd Hs Hg.
  pose proof (combination_is_collected models nums name doc s cat k spec Hn Hd Hs Hg)
    as Hc.
  destruct (collect_combinations_inv_full models nums) as (H1 & _).
  specialize (H1 _ Hc). cbn [fst] in H1.
  unfold CompareProcessor.process_specifications in H. cbv zeta in H.
  set (v := Comparison.mkValue (Pdf.unit spec) (Pdf.value spec) (Pdf.display_value spec)).
  change (reported (secs, diffs).1 (s, cat, k) name v).
  set (st0 := CompareProcessor.collect_combinations models nums) in *.
  apply (foldM_reaches
           (fun st => Dict.mem s st.1 = true)
           (fun st => reported st.1 (s, cat, k) name v)
           _ _ _ _ (s, cat, k) H); [exact H1 | | exact Hc | |].
  - intros [secs1 diffs1] c [secs2 diffs2] _ Hm Hp. cbn [fst] in *.
    unfold CompareProcessor.process_combination in Hp.
    destruct (CompareProcessor.collect_values models nums c) as [values |];
      [| discriminate].
    cbn [mbind result_bind] in Hp. cbv zeta in Hp.
    destruct (Dict.truthy values); [| injection Hp as <- <-; exact Hm].
    destruct (bool_decide _); injection Hp as <- <-; rewrite mem_modify_iff; exact Hm.
  - intros [secs1 diffs1] [secs2 diffs2] Hm Hp. cbn [fst] in *.
    unfold CompareProcessor.process_combination in Hp.
    destruct (CompareProcessor.collect_values models nums (s, cat, k)) as [values |] eqn:Ev;
      [| discriminate].
    cbn [mbind result_bind] in Hp. cbv zeta in Hp.
    destruct (collect_values_get models nums _ values Ev) as [_ Hget].
    specialize (Hget name). rewrite bool_decide_eq_true_2 in Hget by exact Hn.
    unfold expected_value in Hget. rewrite Hd in Hget. cbn in Hget. rewrite Hg in Hget.
    cbn in Hget.
    assert (Ht : Dict.truthy values = true).
    { destruct values; [discriminate Hget | reflexivity]. }
    rewrite Ht in Hp. destruct (mem_get _ _ Hm) as [l Hl].
    assert (Hmod : forall b,
               reported
                 (Dict.modify s
                    (fun l => l ++ [Comparison.mkCompSpec cat k values b]) secs1)
                 (s, cat, k) name v).
    { intros b. exists (l ++ [Comparison.mkCompSpec cat k values b]),
                       (Comparison.mkCompSpec cat k values b).
      cbn [fst snd]. rewrite get_modify, String.eqb_refl, Hl.
      split; [reflexivity |]. split; [apply elem_of_app; right; apply list_elem_of_here |].
      cbn. auto. }
    cbn [fst snd] in Hp.
    destruct (bool_decide _); injection Hp as <- <-; apply Hmod.
  - intros [secs1 diffs1] c [secs2 diffs2] Hr Hp.
    exact (reported_kept _ _ _ _ _ _ _ _ _ _ Hp Hr).
Qed.

Lemma every_specification_is_reported_witness :
  exists l cs,
    Dict.get "electrical specifications"
      [("electrical specifications",
        [Comparison.mkCompSpec "Voltage" ""
           [("A", Examples.voltage_value "24"); ("B", Examples.voltage_value "30")] true])]
    = Some l /\ cs ∈ l /\
    Comparison.category cs = "Voltage" /\ Comparison.specification cs = "" /\
    Dict.get "B" (Comparison.values cs)
    = Some (Examples.voltage_value "30").
Proof.
  apply (every_specification_is_reported
           (Examples.two_models "24" "30") ["A"; "B"] _
           [Differences.mkDifference "B" "electrical specifications" (Some "Voltage") ""
              "Value of 30.0 vs 24.0" (Some "V") [("A", "24"); ("B", "30")]]
           "B" (Examples.voltage_doc "30") "electrical specifications" "Voltage" ""
           (Pdf.mkSpec (Some "V") "30")).
  - vm_compute. reflexivity.
  - apply list_elem_of_further, list_elem_of_here.
  - vm_compute. reflexivity.
  - apply (bool_decide_eq_false_1 _). vm_compute. reflexivity.
  - vm_compute. reflexivity.
Defined.

(** ** Comparator: the presence flags *)

Lemma presence_dict_get nums name n :
  Dict.get n (CompareProcessor.presence_dict nums name) =
  if bool_decide (n ∈ nums) then Some (String.eqb n name) else None.
Proof.
  unfold CompareProcessor.presence_dict.
  assert (H : forall l d,
             Dict.get n (fold_left (fun d k => Dict.set k (String.eqb k name) d) l d) =
             if bool_decide (n ∈ l) then Some (String.eqb n name) else Dict.get n d).
  { induction l as [| k r IH]; intros d; cbn [fold_left]; [reflexivity |].
    rewrite IH, get_set.
    destruct (bool_decide (n ∈ r)) eqn:E.
    - apply bool_decide_eq_true_1 in E.
      rewrite bool_decide_eq_true_2 by (apply list_elem_of_further, E). reflexivity.
    - apply bool_decide_eq_false_1 in E.
      destruct (String.eqb_spec n k) as [-> | Hne].
      + rewrite bool_decide_eq_true_2 by apply list_elem_of_here. reflexivity.
      + rewrite bool_decide_eq_false_2; [reflexivity |].
        intros [H | H]%elem_of_cons; [exact (Hne H) | exact (E H)]. }
  rewrite H. destruct (bool_decide (n ∈ nums)); reflexivity.
Qed.

Lemma mark_present_models item name fs f :
  NoDup (map Comparison.text fs) ->
  f ∈ CompareProcessor.mark_present item name fs ->
  exists g, g ∈ fs /\ Comparison.text f = Comparison.text g /\
            Comparison.models f =
            if String.eqb (Comparison.text g) item
            then Dict.set name true (Comparison.models g) else Comparison.models g.
Proof.
  induction fs as [| g r IH]; cbn [CompareProcessor.mark_present map];
    [intros _ H; inversion H |].
  intros [Hg Hr]%NoDup_cons.
  destruct (String.eqb (Comparison.text g) item) eqn:E.
  - intros [-> | H]%elem_of_cons.
    + exists g. cbn. rewrite E. split; [apply list_elem_of_here | auto].
    + exists f. split; [apply list_elem_of_further, H |]. split; [reflexivity |].
      destruct (String.eqb_spec (Comparison.text f) item) as [Ef | _]; [| reflexivity].
      destruct Hg. apply String.eqb_eq in E. rewrite E, <- Ef.
      apply (list_elem_of_fmap_2 Comparison.text) in H. exact H.
  - intros [-> | H]%elem_of_cons.
    + exists g. rewrite E. split; [apply list_elem_of_here | auto].
    + destruct (IH Hr H) as (g' & Hg' & Ht & Hm).
      exists g'. split; [apply list_elem_of_further, Hg' | auto].
Qed.

Lemma add_item_exact nums name done st item st' :
  name ∈ nums -> merged done st -> exact_flags nums done st.1 ->
  CompareProcessor.add_item nums name st item = Ok st' ->
  exact_flags nums (done ++ [(name, item)]) st'.1.
Proof.
  intros Hname (Hnd & Hseen & Htexts & _) Hex. destruct st as [fs seen].
  cbn [fst snd] in *. unfold CompareProcessor.add_item.
  destruct (bool_decide (item ∈ seen)) eqn:E.
  - intros [= <-]. cbn [fst]. intros f n Hf.
    destruct (mark_present_models item name fs f Hnd Hf) as (g & Hg & Ht & Hm).
    rewrite Hm, Ht. pose proof (Hex g n Hg) as Hgn.
    destruct (String.eqb_spec (Comparison.text g) item) as [Eg | Hne].
    + rewrite get_set. destruct (String.eqb_spec n name) as [-> | Hn].
      * rewrite bool_decide_eq_true_2 by exact Hname.
        rewrite bool_decide_eq_true_2; [reflexivity |].
        apply elem_of_app. right. rewrite Eg. apply list_elem_of_here.
      * rewrite Hgn. destruct (bool_decide (n ∈ nums)); [| reflexivity].
        f_equal. apply bool_decide_ext. rewrite elem_of_app, list_elem_of_singleton.
        split; [auto |]. intros [H | [= Hc _]]; [exact H | destruct (Hn Hc)].
    + rewrite Hgn. destruct (bool_decide (n ∈ nums)); [| reflexivity].
      f_equal. apply bool_decide_ext. rewrite elem_of_app, list_elem_of_singleton.
      split; [auto |]. intros [H | [= _ Hc]]; [exact H | destruct (Hne Hc)].
  - apply bool_decide_eq_false_1 in E.
    unfold Comparison.ComparisonFeature_new.
    destruct (Py.truthy item); [| discriminate]. cbn [mbind result_bind].
    intros [= <-]. cbn [fst]. intros f n [Hf | ->%list_elem_of_singleton]%elem_of_app.
    + rewrite (Hex f n Hf). destruct (bool_decide (n ∈ nums)); [| reflexivity].
      f_equal. apply bool_decide_ext. rewrite elem_of_app, list_elem_of_singleton.
      split; [auto |]. intros [H | [= _ Hc]]; [exact H |].
      destruct E. apply Hseen. rewrite <- Hc.
      apply (list_elem_of_fmap_2 Comparison.text) in Hf. exact Hf.
    + cbn. rewrite presence_dict_get. destruct (bool_decide (n ∈ nums)); [| reflexivity].
      f_equal. destruct (String.eqb_spec n name) as [-> | Hn]; symmetry.
      * apply bool_decide_eq_true_2, elem_of_app. right. apply list_elem_of_here.
      * apply bool_decide_eq_false_2.
        intros [H | [= Hc]%list_elem_of_singleton]%elem_of_app; [| exact (Hn Hc)].
        destruct E. apply Hseen, Htexts.
        apply (list_elem_of_fmap_2 snd) in H. exact H.
Qed.

Lemma add_items_exact nums name items done st st' :
  name ∈ nums -> Forall (fun item => Py.truthy item = true) items ->
  merged done st -> exact_flags nums done st.1 ->
  foldM (CompareProcessor.add_item nums name) items st = Ok st' ->
  exact_flags nums (done ++ map (pair name) items) st'.1.
Proof.
  intros Hname. revert done st.
  induction items as [| item r IH]; intros done st Hall Hm Hex.
  - intros [= <-]. cbn. rewrite app_nil_r. exact Hex.
  - apply Forall_cons in Hall as [Hitem Hall].
    destruct (add_item_merged nums name done st item Hname Hitem Hm) as (st1 & E1 & H1).
    rewrite foldM_cons, E1. intros H.
    pose proof (add_item_exact nums name done st item st1 Hname Hm Hex E1) as Hex1.
    pose proof (IH _ st1 Hall H1 Hex1 H) as H2.
    cbn [map]. rewrite <- app_assoc in H2. exact H2.
Qed.

Lemma process_models_exact models nums ft names done st st' :
  names ⊆ nums -> merged done st -> exact_flags nums done st.1 ->
  foldM (fun st model_name =>
           foldM (CompareProcessor.add_item nums model_name)
                 (CompareProcessor.model_items models model_name ft) st)
        names st = Ok st' ->
  exact_flags nums (done ++ visited models ft names) st'.1.
Proof.
  revert done st. induction names as [| name r IH]; intros done st Hsub Hm Hex.
  - intros [= <-]. cbn. rewrite app_nil_r. exact Hex.
  - assert (Hname : name ∈ nums) by apply Hsub, list_elem_of_here.
    destruct (add_items_merged nums name
                (CompareProcessor.model_items models name ft) done st Hname
                (model_items_truthy models name ft) Hm) as (st1 & E1 & H1).
    rewrite foldM_cons, E1. intros H.
    pose proof (add_items_exact nums name _ done st st1 Hname
                  (model_items_truthy models name ft) Hm Hex E1) as Hex1.
    assert (Hsub' : r ⊆ nums).
    { intros x Hx. apply Hsub, list_elem_of_further, Hx. }
    pose proof (IH _ st1 Hsub' H1 Hex1 H) as H2.
    unfold visited in *. cbn [mbind list_bind]. rewrite <- app_assoc in H2. exact H2.
Qed.

(** X16: in the merged list each entry carries one flag for every
    requested model and no other key, and the flag of a model is true
    exactly when the entry's text is one of the items of that model. *)
Theorem presence_flags_are_exact
    (models : gmap string Pdf.PDFContent) (nums : list string) (ft : string)
    (features : list Comparison.ComparisonFeature)
    (f : Comparison.ComparisonFeature) (name : string) :
  CompareProcessor.process_feature_type models nums ft = Ok features ->
  f ∈ features ->
  Dict.get name (Comparison.models f) =
  if bool_decide (name ∈ nums)
  then Some (bool_decide
               (Comparison.text f ∈ CompareProcessor.model_items models name ft))
  else None.
Proof.
  unfold CompareProcessor.process_feature_type.
  destruct (foldM _ nums ([], ∅)) as [st |] eqn:E; [| discriminate].
  cbn [mbind result_bind]. intros [= <-] Hf.
  assert (Hm0 : merged [] (([], ∅) : list Comparison.ComparisonFeature * gset string)).
  { split; [constructor |]. split; [| split].
    - intros t. cbn. rewrite elem_of_empty. split; [tauto | intros H; inversion H].
    - intros t. cbn. tauto.
    - intros n t H. inversion H. }
  assert (Hex0 : exact_flags nums [] ([], ∅ : gset string).1).
  { intros g n H. inversion H. }
  pose proof (process_models_exact models nums ft nums [] _ st
                (reflexivity nums) Hm0 Hex0 E) as Hex.
  cbn [app] in Hex. rewrite (Hex f name Hf).
  destruct (bool_decide (name ∈ nums)) eqn:En; [| reflexivity].
  apply bool_decide_eq_true_1 in En. f_equal. apply bool_decide_ext.
  unfold visited. rewrite list_elem_of_bind. split.
  - intros (n & [item [[= -> ->] Hi]]%list_elem_of_fmap & _). exact Hi.
  - intros Hi. exists name. split; [| exact En].
    apply list_elem_of_fmap. exists (Comparison.text f). auto.
Qed.

Lemma presence_flags_are_exact_witness :
  Dict.get "B" (Comparison.models
                  (Comparison.mkFeature "- small" [("A", true); ("B", false)]))
  = Some false.
Proof.
  refine (eq_trans
            (presence_flags_are_exact Examples.two_feature_models ["A"; "B"] "features"
               [Comparison.mkFeature "- fast" [("A", true); ("B", true)];
                Comparison.mkFeature "- small" [("A", true); ("B", false)]]
               (Comparison.mkFeature "- small" [("A", true); ("B", false)]) "B" _ _)
            _).
  - vm_compute. reflexivity.
  - apply list_elem_of_further, list_elem_of_here.
  - vm_compute. reflexivity.
Defined.

(** ** Comparator: the sections of the response *)

Lemma group_by_category_fold specs cat d :
  Dict.get cat
    (fold_left
       (fun categories spec =>
          let categories := Dict.setdefault (Comparison.category spec) [] categories in
          Dict.modify (Comparison.category spec) (fun l => l ++ [spec]) categories)
       specs d) =
  match Dict.get cat d, filter (fun cs => Comparison.category cs = cat) specs with
  | Some l0, l => Some (l0 ++ l)
  | None, [] => None
  | None, l => Some l
  end.
Proof.
  revert d. induction specs as [| x r IH]; intros d; cbn [fold_left].
  - destruct (Dict.get cat d); [rewrite app_nil_r |]; reflexivity.
  - rewrite IH. cbv zeta. rewrite get_modify, !get_setdefault, String.eqb_refl.
    destruct (String.eqb_spec cat (Comparison.category x)) as [-> | Hne].
    + rewrite filter_cons_True by reflexivity.
      destruct (Dict.get (Comparison.category x) d) as [l0 |]; cbn [fmap option_fmap option_map].
      * rewrite <- app_assoc. reflexivity.
      * reflexivity.
    + rewrite filter_cons_False by congruence.
      destruct (Dict.get cat d); reflexivity.
Qed.

Lemma group_by_category_wf specs : Dict.wf (CompareProcessor.group_by_category specs).
Proof.
  unfold CompareProcessor.group_by_category.
  apply (fold_left_inv (fun d => Dict.wf d)); [| apply NoDup_nil_2].
  intros d x _ H. apply wf_modify, wf_setdefault, H.
Qed.

(** X17: grouping the specifications of a section by category keeps every
    specification, in its category and in the order of the list: the entry
    of a category is the sublist of the specifications with that category,
    and a category without specification has no entry. *)
Theorem group_by_category_partitions
    (specs : list Comparison.ComparisonSpecification) (cat : string) :
  Dict.wf (CompareProcessor.group_by_category specs) /\
  Dict.get cat (CompareProcessor.group_by_category specs) =
  match filter (fun cs => Comparison.category cs = cat) specs with
  | [] => None
  | l => Some l
  end.
Proof.
  split; [apply group_by_category_wf |].
  unfold CompareProcessor.group_by_category. rewrite group_by_category_fold.
  reflexivity.
Qed.

Lemma get_fold_set {V W : Type} (g : V -> W) (l : Dict.dict V) (d0 : Dict.dict W) s :
  Dict.wf l ->
  Dict.get s (fold_left (fun d '(k, v) => Dict.set k (g v) d) (Dict.items l) d0) =
  match Dict.get s l with Some v => Some (g v) | None => Dict.get s d0 end.
Proof.
  unfold Dict.items. revert d0. induction l as [| [k v] r IH]; intros d0 Hwf;
    [reflexivity |].
  apply wf_cons in Hwf as [Hk Hr]. cbn [fold_left Dict.get]. rewrite (IH _ Hr).
  destruct (String.eqb_spec s k) as [-> | Hne].
  - rewrite Hk, get_set, String.eqb_refl. reflexivity.
  - rewrite get_set. apply String.eqb_neq in Hne. rewrite Hne. reflexivity.
Qed.

Lemma process_specifications_wf models nums secs diffs :
  CompareProcessor.process_specifications models nums = Ok (secs, diffs) ->
  Dict.wf secs.
Proof.
  unfold CompareProcessor.process_specifications. intros H.
  apply (foldM_inv (fun st => Dict.wf st.1)) in H; [exact H | |].
  - intros [secs1 diffs1] c [secs2 diffs2] _ Hwf.
    unfold CompareProcessor.process_combination. cbn [fst] in *.
    destruct (CompareProcessor.collect_values models nums c) as [values |];
      [| discriminate].
    cbn [mbind result_bind]. cbv zeta.
    destruct (Dict.truthy values); [| intros [= <- <-]; exact Hwf].
    destruct (bool_decide _); intros [= <- <-]; apply wf_modify, Hwf.
  - cbn [fst]. apply (collect_combinations_inv (fun d => Dict.wf d));
      [intros k d; apply wf_setdefault | apply NoDup_nil_2].
Qed.

Lemma feature_section_lookup features advantages s :
  Dict.get s
    (if CompareProcessor.truthy_list features || CompareProcessor.truthy_list advantages
     then
       let categories : Dict.dict (list Comparison.ComparisonSpecification
                                   + list Comparison.ComparisonFeature) := Dict.empty in
       let categories :=
         if CompareProcessor.truthy_list features
         then Dict.set "features" (inr features) categories else categories in
       let categories :=
         if CompareProcessor.truthy_list advantages
         then Dict.set "advantages" (inr advantages) categories else categories in
       if Dict.truthy categories
       then Dict.set "Features_And_Advantages" (Comparison.mkCompSection categories)
              Dict.empty
       else Dict.empty
     else Dict.empty) =
  if String.eqb s "Features_And_Advantages" &&
     (CompareProcessor.truthy_list features || CompareProcessor.truthy_list advantages)
  then Some (Comparison.mkCompSection (feature_categories features advantages))
  else None.
Proof.
  unfold feature_categories.
  destruct features as [| f fs], advantages as [| a advs]; cbn;
    try (destruct (String.eqb s "Features_And_Advantages"); reflexivity).
Qed.

(** X18: the sections of the response.  A section of the specification
    output appears with its specifications grouped by category; the section
    "Features_And_Advantages" appears exactly when the list of features or
    the list of advantages is not empty, holding the category "features"
    and then "advantages", each only when its list is not empty; nothing
    else appears, and no specification section takes the place of
    "Features_And_Advantages". *)
Theorem response_sections_lookup
    (models : gmap string Pdf.PDFContent) (nums : list string)
    (secs : CompareProcessor.SpecSections) (diffs : list Differences.Difference)
    (features advantages : list Comparison.ComparisonFeature) (s : string) :
  CompareProcessor.process_specifications models nums = Ok (secs, diffs) ->
  Dict.get s (CompareProcessor.response_sections features advantages secs) =
  if String.eqb s "Features_And_Advantages" then
    if CompareProcessor.truthy_list features || CompareProcessor.truthy_list advantages
    then Some (Comparison.mkCompSection (feature_categories features advantages))
    else None
  else grouped_section <$> Dict.get s secs.
Proof.
  intros H. unfold CompareProcessor.response_sections. cbv zeta.
  rewrite (get_fold_set grouped_section secs _ s (process_specifications_wf _ _ _ _ H)).
  rewrite feature_section_lookup.
  destruct (String.eqb_spec s "Features_And_Advantages") as [-> | Hne].
  - assert (Hs : Dict.get "Features_And_Advantages" secs = None).
    { destruct (Dict.get "Features_And_Advantages" secs) eqn:E; [| reflexivity].
      assert (Hm : Dict.mem "Features_And_Advantages" secs = true)
        by (unfold Dict.mem; rewrite E; reflexivity).
      rewrite (process_specifications_keys _ _ _ _ H) in Hm.
      apply (collect_combinations_inv_full models nums) in Hm as [Hn _].
      destruct Hn. apply list_elem_of_here. }
    rewrite Hs. reflexivity.
  - destruct (Dict.get s secs); reflexivity.
Qed.

Lemma response_sections_lookup_witness :
  Dict.get "electrical specifications"
    (CompareProcessor.response_sections [] []
       [("electrical specifications",
         [Comparison.mkCompSpec "Voltage" ""
            [("A", Examples.voltage_value "24"); ("B", Examples.voltage_value "30")]
            true])])
  = Some (Comparison.mkCompSection
            [("Voltage",
              inl [Comparison.mkCompSpec "Voltage" ""
                     [("A", Examples.voltage_value "24");
                      ("B", Examples.voltage_value "30")] true])]).
Proof.
  refine (eq_trans
            (response_sections_lookup (Examples.two_models "24" "30") ["A"; "B"] _
               [Differences.mkDifference "B" "electrical specifications" (Some "Voltage")
                  "" "Value of 30.0 vs 24.0" (Some "V") [("A", "24"); ("B", "30")]]
               [] [] "electrical specifications" _)
            _).
  - vm_compute. reflexivity.
  - vm_compute. reflexivity.
Defined.

(** ** Comparator: the documents that are loaded *)

Lemma collect_model_data_fold get_content nums (m : gmap string Pdf.PDFContent) k :
  fold_left
    (fun models model_num =>
       match get_content model_num with
       | Some result =>
           let model_name :=
             if Py.truthy_opt (Pdf.model_number result)
             then default "" (Pdf.model_number result) else model_num in
           <[model_name := result]> models
       | None => models
       end) nums m !! k =
  match last (omap (loaded_under get_content k) nums) with
  | Some doc => Some doc
  | None => m !! k
  end.
Proof.
  revert m. induction nums as [| n r IH]; intros m; [reflexivity |].
  cbn [fold_left omap list_omap]. rewrite IH. unfold loaded_under at 2.
  destruct (get_content n) as [doc |]; cbn [mbind option_bind]; [| reflexivity].
  cbv zeta. fold (model_key doc n).
  destruct (String.eqb_spec (model_key doc n) k) as [<- | Hne].
  - rewrite last_cons, lookup_insert_eq.
    destruct (last (omap (loaded_under get_content (model_key doc n)) r)); reflexivity.
  - rewrite lookup_insert_ne by exact Hne. reflexivity.
Qed.

(** X19: the documents are stored under the model number found in the
    document, or under the requested number when the document has none:
    the entry of a key is the document of the last requested number whose
    document is stored under that key, and a key under which no loaded
    document is stored has no entry. *)
Theorem loaded_documents_are_keyed_by_their_number
    (get_content : string -> option Pdf.PDFContent) (nums : list string) (k : string) :
  CompareProcessor.collect_model_data get_content nums !! k
  = last (omap (loaded_under get_content k) nums).
Proof.
  unfold CompareProcessor.collect_model_data. rewrite collect_model_data_fold.
  rewrite lookup_empty. destruct (last _); reflexivity.
Qed.

(** ** Comparator: no triple is reported twice *)

Lemma note_combination_nodup st c :
  NoDup (CompareProcessor.spec_combinations st) /\
  (forall c', c' ∈ CompareProcessor.spec_combinations st ->
              c' ∈ CompareProcessor.seen_combinations st) ->
  NoDup (CompareProcessor.spec_combinations (CompareProcessor.note_combination st c)) /\
  (forall c', c' ∈ CompareProcessor.spec_combinations
                     (CompareProcessor.note_combination st c) ->
              c' ∈ CompareProcessor.seen_combinations
                     (CompareProcessor.note_combination st c)).
Proof.
  intros [Hnd Hsub]. unfold CompareProcessor.note_combination.
  destruct (bool_decide _) eqn:E; [auto |]. apply bool_decide_eq_false_1 in E. cbn.
  split.
  - apply NoDup_app. split; [exact Hnd |]. split; [| apply NoDup_singleton].
    intros c' Hc' ->%list_elem_of_singleton. apply E, Hsub, Hc'.
  - intros c' [H | ->%list_elem_of_singleton]%elem_of_app; apply elem_of_union;
      [right; apply Hsub, H | left; apply elem_of_singleton; reflexivity].
Qed.

Lemma collect_combinations_nodup models nums :
  NoDup (CompareProcessor.spec_combinations
           (CompareProcessor.collect_combinations models nums)).
Proof.
  set (I := fun st : CompareProcessor.CollectState =>
              NoDup (CompareProcessor.spec_combinations st) /\
              (forall c', c' ∈ CompareProcessor.spec_combinations st ->
                          c' ∈ CompareProcessor.seen_combinations st)).
  apply proj1 with (B := forall c', c' ∈ CompareProcessor.spec_combinations
                                         (CompareProcessor.collect_combinations models nums) ->
                                    c' ∈ CompareProcessor.seen_combinations
                                         (CompareProcessor.collect_combinations models nums)).
  change (I (CompareProcessor.collect_combinations models nums)).
  unfold CompareProcessor.collect_combinations. apply (fold_left_inv I).
  - intros st name _ H. destruct (models !! name) as [doc |]; [| exact H].
    apply (fold_left_inv I); [| exact H].
    intros st1 [s section] _ H1. rewrite collect_section_eq.
    destruct (bool_decide _); [exact H1 |].
    unfold note_section. apply (fold_left_inv I); [| exact H1].
    intros st2 [cat category] _ H2. apply (fold_left_inv I); [| exact H2].
    intros st3 k _. apply note_combination_nodup.
  - split; [apply NoDup_nil_2 | intros c' H; inversion H].
Qed.

Lemma process_combinations_nodup models nums l :
  forall st st',
    foldM (CompareProcessor.process_combination models nums) l st = Ok st' ->
    NoDup l ->
    (forall s lst cs, Dict.get s st.1 = Some lst -> cs ∈ lst ->
                      (s, Comparison.category cs, Comparison.specification cs) ∉ l) ->
    (forall s lst, Dict.get s st.1 = Some lst ->
                   NoDup (map (fun cs => (Comparison.category cs,
                                          Comparison.specification cs)) lst)) ->
    forall s lst, Dict.get s st'.1 = Some lst ->
                  NoDup (map (fun cs => (Comparison.category cs,
                                         Comparison.specification cs)) lst).
Proof.
  induction l as [| c r IH]; intros st st' H Hnd Hfresh Hok.
  - injection H as <-. exact Hok.
  - rewrite foldM_cons in H.
    destruct (CompareProcessor.process_combination models nums st c) as [st1 |] eqn:E;
      [| discriminate].
    apply NoDup_cons in Hnd as [Hc Hr].
    apply (IH st1 st' H Hr); clear IH H.
    + destruct st as [secs diffs]. unfold CompareProcessor.process_combination in E.
      destruct (CompareProcessor.collect_values models nums c) as [values |];
        [| discriminate].
      cbn [mbind result_bind] in E. cbv zeta in E. cbn [fst] in *.
      assert (Hold : forall s lst cs, Dict.get s secs = Some lst -> cs ∈ lst ->
                (s, Comparison.category cs, Comparison.specification cs) ∉ r).
      { intros s lst cs Hg Hcs Hin.
        apply (Hfresh s lst cs Hg Hcs), list_elem_of_further, Hin. }
      assert (Hmod : forall b s lst cs,
                Dict.get s (Dict.modify c.1.1
                              (fun l => l ++ [Comparison.mkCompSpec c.1.2 c.2 values b])
                              secs) = Some lst ->
                cs ∈ lst ->
                (s, Comparison.category cs, Comparison.specification cs) ∉ r).
      { intros b s lst cs. rewrite get_modify.
        destruct (String.eqb_spec s c.1.1) as [-> | _]; [| apply Hold].
        destruct (Dict.get c.1.1 secs) as [l0 |] eqn:E0; [| discriminate].
        intros [= <-] [Hcs | ->%list_elem_of_singleton]%elem_of_app.
        - exact (Hold _ _ _ E0 Hcs).
        - cbn. destruct c as [[s0 c0] k0]. exact Hc. }
      destruct (Dict.truthy values); [| injection E as <-; exact Hold].
      destruct (bool_decide _); injection E as <-; apply Hmod.
    + destruct st as [secs diffs]. unfold CompareProcessor.process_combination in E.
      destruct (CompareProcessor.collect_values models nums c) as [values |];
        [| discriminate].
      cbn [mbind result_bind] in E. cbv zeta in E. cbn [fst] in *.
      assert (Hmod : forall b s lst,
                Dict.get s (Dict.modify c.1.1
                              (fun l => l ++ [Comparison.mkCompSpec c.1.2 c.2 values b])
                              secs) = Some lst ->
                NoDup (map (fun cs => (Comparison.category cs,
                                       Comparison.specification cs)) lst)).
      { intros b s lst. rewrite get_modify.
        destruct (String.eqb_spec s c.1.1) as [-> | _]; [| apply Hok].
        destruct (Dict.get c.1.1 secs) as [l0 |] eqn:E0; [| discriminate].
        intros [= <-]. rewrite map_app. apply NoDup_app.
        split; [exact (Hok _ _ E0) |]. split; [| apply NoDup_singleton].
        intros key Hkey ->%list_elem_of_singleton.
        apply list_elem_of_fmap in Hkey as (cs & Hk & Hcs). cbn in Hk.
        apply (Hfresh _ _ cs E0 Hcs). injection Hk as <- <-.
        destruct c as [[s0 c0] k0]. apply list_elem_of_here. }
      destruct (Dict.truthy values); [| injection E as <-; exact Hok].
      destruct (bool_decide _); injection E as <-; apply Hmod.
Qed.

(** X20: no triple is reported twice: in every section of the
    specification output the entries have pairwise distinct pairs of
    category and specification name. *)
Theorem reported_triples_are_distinct
    (models : gmap string Pdf.PDFContent) (nums : list string)
    (secs : CompareProcessor.SpecSections) (diffs : list Differences.Difference)
    (s : string) (l : list Comparison.ComparisonSpecification) :
  CompareProcessor.process_specifications models nums = Ok (secs, diffs) ->
  Dict.get s secs = Some l ->
  NoDup (map (fun cs => (Comparison.category cs, Comparison.specification cs)) l).
Proof.
  unfold CompareProcessor.process_specifications. cbv zeta. intros H.
  destruct (collect_combinations_inv_full models nums) as (_ & Hempty & _).
  apply (process_combinations_nodup models nums _ _ (secs, diffs) H).
  - apply collect_combinations_nodup.
  - cbn [fst]. intros s' lst cs Hg Hcs.
    pose proof (Forall_get _ _ _ _ Hempty Hg) as He. cbn in He. subst lst.
    inversion Hcs.
  - cbn [fst]. intros s' lst Hg.
    pose proof (Forall_get _ _ _ _ Hempty Hg) as He. cbn in He. subst lst.
    apply NoDup_nil_2.
Qed.

Lemma reported_triples_are_distinct_witness :
  NoDup
    (map (fun cs => (Comparison.category cs, Comparison.specification cs))
       [Comparison.mkCompSpec "Voltage" ""
          [("A", Examples.voltage_value "24"); ("B", Examples.voltage_value "30")] true]).
Proof.
  apply (reported_triples_are_distinct (Examples.two_models "24" "30") ["A"; "B"]
           [("electrical specifications",
             [Comparison.mkCompSpec "Voltage" ""
                [("A", Examples.voltage_value "24"); ("B", Examples.voltage_value "30")]
                true])]
           [Differences.mkDifference "B" "electrical specifications" (Some "Voltage") ""
              "Value of 30.0 vs 24.0" (Some "V") [("A", "24"); ("B", "30")]]
           "electrical specifications").
  - vm_compute. reflexivity.
  - reflexivity.
Defined.

(** ** Comparator: the response *)

Lemma foldM_total {A S : Type} (f : S -> A -> result S) l s :
  (forall s x, x ∈ l -> exists s', f s x = Ok s') -> exists s', foldM f l s = Ok s'.
Proof.
  revert s. induction l as [| x r IH]; intros s H; [exists s; reflexivity |].
  destruct (H s x) as [s1 E]; [apply list_elem_of_here |].
  rewrite foldM_cons, E. apply IH.
  intros s0 y Hy. apply H, list_elem_of_further, Hy.
Qed.

Lemma collect_values_total models nums c :
  values_comparable models nums -> c.1.1 ∉ CompareProcessor.skipped_sections ->
  exists values, CompareProcessor.collect_values models nums c = Ok values.
Proof.
  intros H Hs. destruct c as [[s cat] sp]. unfold CompareProcessor.collect_values.
  apply foldM_total. intros values name Hn.
  destruct (models !! name) as [doc |] eqn:Em; [| eauto].
  unfold CompareProcessor.get_spec_value.
  destruct (Pdf.get_specification doc s cat sp) as [spec |] eqn:Eg; [| eauto].
  pose proof (H name doc s cat sp spec Hn Em Hs Eg) as Hp.
  unfold plain_value in Hp. apply andb_true_iff in Hp as [Hp _].
  unfold Comparison.SpecificationValue_new. rewrite Hp.
  cbn [mbind result_bind]. eauto.
Qed.

Lemma process_specifications_total models nums :
  values_comparable models nums ->
  exists r, CompareProcessor.process_specifications models nums = Ok r.
Proof.
  intros H. unfold CompareProcessor.process_specifications.
  destruct (collect_combinations_inv_full models nums) as (H1 & _ & H3 & _).
  apply foldM_total. intros [secs diffs] c Hc.
  unfold CompareProcessor.process_combination.
  destruct (collect_values_total models nums c H) as [values ->].
  { apply (H3 _ (H1 c Hc)). }
  cbn [mbind result_bind]. cbv zeta.
  destruct (Dict.truthy values); [destruct (bool_decide _) |]; eauto.
Qed.

Lemma process_feature_type_total models nums ft :
  exists features, CompareProcessor.process_feature_type models nums ft = Ok features.
Proof.
  destruct (process_models_merged models nums ft nums [] ([], ∅)) as (st & E & _).
  { reflexivity. }
  { split; [constructor |]. split; [| split].
    - intros t. cbn. rewrite elem_of_empty. split; [tauto | intros H; inversion H].
    - intros t. cbn. tauto.
    - intros n t H. inversion H. }
  exists st.1. unfold CompareProcessor.process_feature_type. rewrite E. reflexivity.
Qed.

(** Two models are requested and only "A" can be loaded: the call returns
    a response over the single document. *)
Lemma precondition_rule_fails :
  size (CompareProcessor.collect_model_data Examples.only_A ["A"; "B"]) = 1%nat /\
  CompareProcessor.compare_models Examples.only_A "id" ["A"; "B"]
  = Ok (Comparison.mkResponse ["A"; "B"] "id"
          [("electrical specifications",
            Comparison.mkCompSection
              [("Voltage",
                inl [Comparison.mkCompSpec "Voltage" ""
                       [("A", Examples.voltage_value "24")] false])])]
          0) /\
  ~ precondition_rule.
Proof.
  split; [vm_compute; reflexivity |]. split; [vm_compute; reflexivity |].
  intros H.
  assert (Hs : (size (CompareProcessor.collect_model_data Examples.only_A ["A"; "B"])
                < 2)%nat) by (vm_compute; lia).
  destruct (CompareProcessor.compare_models Examples.only_A "id" ["A"; "B"])
    as [r |] eqn:E.
  - exact (H Examples.only_A "id" ["A"; "B"] Hs r E).
  - vm_compute in E. discriminate E.
Qed.

(** C1 (amended): the comparator has no test on the number of available
    documents.  When fewer than two model numbers are requested the call
    fails in the validation of the response; when at least two are
    requested and no document is available it returns the empty response;
    and when at least two are requested it returns a response for any
    number of available documents, provided every value string that the
    comparator reads (those of the documents of the requested models,
    outside "Features_And_Advantages" and "Diagram") is not empty and is
    ASCII or has an ASCII character other than a digit besides its first
    point, so that [float] is never called on a string it rejects. *)
Theorem compare_models_checks_requested_numbers
    (get_content : string -> option Pdf.PDFContent) (uuid4 : string)
    (nums : list string) :
  ((length nums < 2)%nat ->
   CompareProcessor.compare_models get_content uuid4 nums = Err ValidationError) /\
  ((2 <= length nums)%nat -> Py.truthy uuid4 = true ->
   CompareProcessor.collect_model_data get_content nums = ∅ ->
   CompareProcessor.compare_models get_content uuid4 nums
   = Ok (Comparison.mkResponse nums uuid4 Dict.empty 0)) /\
  ((2 <= length nums)%nat -> Py.truthy uuid4 = true ->
   values_comparable (CompareProcessor.collect_model_data get_content nums) nums ->
   exists r, CompareProcessor.compare_models get_content uuid4 nums = Ok r /\
             Comparison.model_numbers r = nums /\ Comparison.comparison_id r = uuid4).
Proof.
  unfold CompareProcessor.compare_models.
  set (models := CompareProcessor.collect_model_data get_content nums).
  split; [| split].
  - intros Hlen.
    assert (Hnew : forall secs n,
               Comparison.ComparisonResponse_new nums uuid4 secs n = Err ValidationError).
    { intros secs n. unfold Comparison.ComparisonResponse_new.
      apply Nat.leb_gt in Hlen. rewrite Hlen. reflexivity. }
    destruct (bool_decide (models = ∅)); [apply Hnew |].
    unfold CompareProcessor.process_features, CompareProcessor.process_advantages.
    destruct (CompareProcessor.process_feature_type models nums "features")
      as [fs | []]; [| reflexivity].
    destruct (CompareProcessor.process_feature_type models nums "advantages")
      as [advs | []]; [| reflexivity].
    destruct (CompareProcessor.process_specifications models nums)
      as [[secs diffs] | []]; [| reflexivity].
    cbn [mbind result_bind]. apply Hnew.
  - intros Hlen Hid He. rewrite bool_decide_eq_true_2 by exact He.
    unfold Comparison.ComparisonResponse_new.
    apply Nat.leb_le in Hlen. rewrite Hlen, Hid. reflexivity.
  - intros Hlen Hid Hv.
    assert (Hnew : forall secs n,
               Comparison.ComparisonResponse_new nums uuid4 secs n
               = Ok (Comparison.mkResponse nums uuid4 secs n)).
    { intros secs n. unfold Comparison.ComparisonResponse_new.
      apply Nat.leb_le in Hlen. rewrite Hlen, Hid. reflexivity. }
    destruct (bool_decide (models = ∅)); [rewrite Hnew; eauto |].
    unfold CompareProcessor.process_features, CompareProcessor.process_advantages.
    destruct (process_feature_type_total models nums "features") as [fs ->].
    destruct (process_feature_type_total models nums "advantages") as [advs ->].
    destruct (process_specifications_total models nums Hv) as [[secs diffs] ->].
    cbn [mbind result_bind]. rewrite Hnew. eauto.
Qed.

Lemma compare_models_checks_requested_numbers_witness :
  CompareProcessor.compare_models (fun _ => None) "id" ["A"]
  = Err ValidationError /\
  CompareProcessor.compare_models (fun _ => None) "id" ["A"; "B"]
  = Ok (Comparison.mkResponse ["A"; "B"] "id" Dict.empty 0) /\
  exists r,
    CompareProcessor.compare_models Examples.only_A "id" ["A"; "B"] = Ok r /\
    Comparison.model_numbers r = ["A"; "B"] /\ Comparison.comparison_id r = "id".
Proof.
  split; [| split].
  - apply (compare_models_checks_requested_numbers (fun _ => None) "id" ["A"]).
    cbn. lia.
  - apply (compare_models_checks_requested_numbers (fun _ => None) "id" ["A"; "B"]);
      [cbn; lia | reflexivity | reflexivity].
  - apply (compare_models_checks_requested_numbers Examples.only_A "id" ["A"; "B"]);
      [cbn; lia | reflexivity |].
    intros name doc s c k spec _ Hm _ Hg.
    assert (E : CompareProcessor.collect_model_data Examples.only_A ["A"; "B"]
                = {["A" := Examples.voltage_doc "24"]})
      by (vm_compute; reflexivity).
    rewrite E in Hm. apply lookup_singleton_Some in Hm as [<- <-].
    unfold Pdf.get_specification, Examples.voltage_doc in Hg.
    repeat (cbn in Hg;
            match type of Hg with
            | context [String.eqb ?a ?b] => destruct (String.eqb a b); [| discriminate]
            end).
    injection Hg as <-. reflexivity.
Defined.
